(** * GAEB converter: the parser, the exporter and the list of files

    A shallow embedding of [src/app/lib/gaeb-parser.ts] (class [GAEBParser]),
    of the sheets, sheet names and CSV text of [ExcelExporter], and of the
    list of processed files kept by [useGAEBProcessor] and the page, with
    the JavaScript values they work on:

    - a string is the list of its UTF-16 code units;
    - a number is an IEEE 754 binary64 value (Rocq's primitive [float]);
    - a regular expression is a syntax tree run by a backtracking matcher
      with the priorities of ECMAScript (leftmost start, alternatives in
      order, greedy quantifiers);
    - an XML document is a tree of elements and text nodes; the browser's
      [DOMParser] and clock are parameters of the parser (record [Host]);
    - [try]/[catch] is a completion monad with [Normal] and [Throw]. *)

From Stdlib Require Import List Bool Arith NArith ZArith Lia String Ascii.
From Stdlib Require Import Floats DecimalNat.
Import ListNotations.

Set Implicit Arguments.

(** ** Strings *)

Module JS.

(** A UTF-16 code unit. *)
Definition char := N.
Definition jsstring := list char.

Definition char_eqb (a b : char) : bool := N.eqb a b.

Fixpoint string_eqb (s t : jsstring) : bool :=
  match s, t with
  | [], [] => true
  | a :: s', b :: t' => char_eqb a b && string_eqb s' t'
  | _, _ => false
  end.

(** String literals of this file are written as Rocq strings, which hold
    UTF-8 bytes; [str] decodes them to code units (a code point above
    U+FFFF becomes a surrogate pair). *)
Fixpoint bytes_of (s : string) : list N :=
  match s with
  | EmptyString => []
  | String a s' => N_of_ascii a :: bytes_of s'
  end.

Definition cont6 (b : N) : N := N.land b 63.

Fixpoint utf8_decode (bs : list N) : jsstring :=
  match bs with
  | [] => []
  | b0 :: t0 =>
    if b0 <? 128 then b0 :: utf8_decode t0
    else if b0 <? 224 then
      match t0 with
      | b1 :: t1 => (N.shiftl (N.land b0 31) 6 + cont6 b1) :: utf8_decode t1
      | [] => [b0]
      end
    else if b0 <? 240 then
      match t0 with
      | b1 :: b2 :: t2 =>
        (N.shiftl (N.land b0 15) 12 + N.shiftl (cont6 b1) 6 + cont6 b2)
          :: utf8_decode t2
      | _ => [b0]
      end
    else
      match t0 with
      | b1 :: b2 :: b3 :: t3 =>
        let cp := N.shiftl (N.land b0 7) 18 + N.shiftl (cont6 b1) 12
                  + N.shiftl (cont6 b2) 6 + cont6 b3 in
        let v := cp - 65536 in
        (55296 + N.shiftr v 10) :: (56320 + N.land v 1023) :: utf8_decode t3
      | _ => [b0]
      end
  end%N.

Definition str (s : string) : jsstring := utf8_decode (bytes_of s).

(** Truthiness of a string: the empty string is falsy. *)
Definition truthy (s : jsstring) : bool :=
  match s with [] => false | _ => true end.

(** [a || b] on strings. *)
Definition or_else (a b : jsstring) : jsstring := if truthy a then a else b.

(** [a || b] where [a] may be [null] or [undefined]. *)
Definition opt_or (a : option jsstring) (b : jsstring) : jsstring :=
  match a with
  | Some s => or_else s b
  | None => b
  end.

(** WhiteSpace and LineTerminator of ECMAScript: what [trim] strips and
    what [\s] matches. *)
Definition is_space (c : char) : bool :=
  ((9 <=? c) && (c <=? 13) || (c =? 32) || (c =? 160) || (c =? 5760)
   || (8192 <=? c) && (c <=? 8202) || (c =? 8232) || (c =? 8233)
   || (c =? 8239) || (c =? 8287) || (c =? 12288) || (c =? 65279))%N.

Definition is_digit (c : char) : bool := ((48 <=? c) && (c <=? 57))%N.
Definition is_upper (c : char) : bool := ((65 <=? c) && (c <=? 90))%N.
Definition is_lower (c : char) : bool := ((97 <=? c) && (c <=? 122))%N.

(** [s.trimStart()], [s.trimEnd()], [s.trim()] *)
Fixpoint trimStart (s : jsstring) : jsstring :=
  match s with
  | c :: s' => if is_space c then trimStart s' else s
  | [] => []
  end.

Definition trimEnd (s : jsstring) : jsstring := rev (trimStart (rev s)).
Definition trim (s : jsstring) : jsstring := trimEnd (trimStart s).

(** [s.startsWith(p)] *)
Fixpoint startsWith (p s : jsstring) : bool :=
  match p, s with
  | [], _ => true
  | a :: p', b :: s' => char_eqb a b && startsWith p' s'
  | _ :: _, [] => false
  end.

(** [s.includes(p)] *)
Fixpoint includes (p s : jsstring) : bool :=
  startsWith p s || match s with [] => false | _ :: s' => includes p s' end.

(** [s.substring(a, b)] for [0 <= a <= b] *)
Definition substring (a b : nat) (s : jsstring) : jsstring :=
  firstn (b - a) (skipn a s).

(** [s.split(sep)] for a one-unit separator: the pieces between the
    separators, at least one piece. *)
Fixpoint split (sep : char) (s : jsstring) : list jsstring :=
  match s with
  | [] => [[]]
  | c :: s' =>
    if char_eqb c sep then [] :: split sep s'
    else match split sep s' with
         | piece :: rest => (c :: piece) :: rest
         | [] => [[c]]
         end
  end.

(** [parts.join(sep)] *)
Fixpoint join (sep : jsstring) (parts : list jsstring) : jsstring :=
  match parts with
  | [] => []
  | [p] => p
  | p :: rest => p ++ sep ++ join sep rest
  end.

(** [s.replace(a, b)] with a string pattern of one unit: the first
    occurrence only. *)
Fixpoint replace_char (a b : char) (s : jsstring) : jsstring :=
  match s with
  | [] => []
  | c :: s' => if char_eqb c a then b :: s' else c :: replace_char a b s'
  end.

(** [s.toLowerCase()].  Exact on Basic Latin and Latin-1, and on the two
    code points outside them whose lower case holds an ASCII letter
    (U+0130 gives "i" and U+0307, the Kelvin sign U+212A gives "k"); any
    other code unit is kept, which never yields an ASCII letter either.  The
    parser only searches the result for ASCII words. *)
Definition lower_units (c : char) : jsstring :=
  (if is_upper c then [c + 32]
   else if (192 <=? c) && (c <=? 222) && negb (c =? 215) then [c + 32]
   else if c =? 304 then [105; 775]
   else if c =? 8490 then [107]
   else if c =? 8491 then [229]
   else [c])%N.

Definition toLowerCase (s : jsstring) : jsstring := flat_map lower_units s.

(** The decimal digits of a natural number: [String(n)] and [`${n}`] for
    an array index or a counter. *)
Fixpoint units_of_uint (d : Decimal.uint) : jsstring :=
  match d with
  | Decimal.Nil => []
  | Decimal.D0 d' => 48%N :: units_of_uint d'
  | Decimal.D1 d' => 49%N :: units_of_uint d'
  | Decimal.D2 d' => 50%N :: units_of_uint d'
  | Decimal.D3 d' => 51%N :: units_of_uint d'
  | Decimal.D4 d' => 52%N :: units_of_uint d'
  | Decimal.D5 d' => 53%N :: units_of_uint d'
  | Decimal.D6 d' => 54%N :: units_of_uint d'
  | Decimal.D7 d' => 55%N :: units_of_uint d'
  | Decimal.D8 d' => 56%N :: units_of_uint d'
  | Decimal.D9 d' => 57%N :: units_of_uint d'
  end.

Definition of_nat (n : nat) : jsstring := units_of_uint (Nat.to_uint n).

End JS.

(** ** Numbers *)

Module Num.

Definition number := float.

(** Truthiness of a number: [0], [-0] and [NaN] are falsy. *)
Definition truthy (x : number) : bool :=
  negb (PrimFloat.is_nan x || PrimFloat.is_zero x).

(** The binary64 value nearest to [n / d] (ties to even), for [0 <= n] and
    [0 < d]: the quotient is taken with at least 55 bits and handed to the
    rounding of the standard library with the place of the remainder. *)
Definition of_ratio (neg : bool) (n d : Z) : number :=
  if (n =? 0)%Z then (if neg then neg_zero else zero)
  else
    let s := Z.max 0 (55 + Z.log2 d - Z.log2 n) in
    let (q, r) := Z.div_eucl (Z.shiftl n s) d in
    let loc := if (r =? 0)%Z then loc_Exact
               else loc_Inexact (Z.compare (2 * r) d) in
    SF2Prim (binary_round_aux prec emax neg q (- s) loc).

(** The value of [m * 10^e]. *)
Definition of_decimal (neg : bool) (m e : Z) : number :=
  if (0 <=? e)%Z then of_ratio neg (m * 10 ^ e) 1
  else of_ratio neg m (10 ^ (- e)).

Definition digit_value (c : JS.char) : Z := Z.of_N c - 48.

Definition digits_value (ds : JS.jsstring) : Z :=
  fold_left (fun acc c => 10 * acc + digit_value c)%Z ds 0%Z.

(** The longest prefix whose units satisfy [p], and what follows it. *)
Fixpoint span (p : JS.char -> bool) (s : JS.jsstring)
  : JS.jsstring * JS.jsstring :=
  match s with
  | c :: s' =>
    if p c then let (a, b) := span p s' in (c :: a, b) else ([], s)
  | [] => ([], [])
  end.

(** An optional sign: [true] for a minus. *)
Definition take_sign (s : JS.jsstring) : bool * JS.jsstring :=
  match s with
  | 43%N :: r => (false, r)
  | 45%N :: r => (true, r)
  | _ => (false, s)
  end.

(** The exponent part [e±ddd] at the head of [s], 0 when there is none. *)
Definition exponent_part (s : JS.jsstring) : Z :=
  match s with
  | c :: r =>
    if (c =? 101)%N || (c =? 69)%N then
      let (neg, r1) := take_sign r in
      match span JS.is_digit r1 with
      | ([], _) => 0%Z
      | (ds, _) => if neg then (- digits_value ds)%Z else digits_value ds
      end
    else 0%Z
  | [] => 0%Z
  end.

(** [parseFloat(s)]: leading white space is skipped, then the longest
    prefix that is a decimal literal ([Infinity], digits with an optional
    fraction and exponent, each with an optional sign) is converted; [NaN]
    when there is none. *)
Definition parseFloat (s : JS.jsstring) : number :=
  let (neg, t1) := take_sign (JS.trimStart s) in
  if JS.startsWith (JS.str "Infinity") t1 then
    (if neg then neg_infinity else infinity)
  else
    let (ip, t2) := span JS.is_digit t1 in
    let (fp, t3) := match t2 with
                    | 46%N :: r => span JS.is_digit r
                    | _ => ([], t2)
                    end in
    match ip ++ fp with
    | [] => nan
    | ds => of_decimal neg (digits_value ds)
                       (exponent_part t3 - Z.of_nat (List.length fp))
    end.

Definition is_hex_digit (c : JS.char) : bool :=
  (JS.is_digit c || (65 <=? c) && (c <=? 70) || (97 <=? c) && (c <=? 102))%N.

Definition hex_value (c : JS.char) : Z :=
  if JS.is_digit c then Z.of_N c - 48
  else if (c <=? 70)%N then Z.of_N c - 55 else Z.of_N c - 87.

(** [parseInt(s)] without a radix: base 10, or base 16 after [0x]/[0X];
    the longest prefix of digits, [NaN] when it is empty. *)
Definition parseInt (s : JS.jsstring) : number :=
  let (neg, t1) := take_sign (JS.trimStart s) in
  let hex := match t1 with
             | 48%N :: x :: r =>
               if (x =? 120)%N || (x =? 88)%N then Some r else None
             | _ => None
             end in
  match hex with
  | Some r =>
    match span is_hex_digit r with
    | ([], _) => nan
    | (ds, _) =>
      of_ratio neg (fold_left (fun acc c => 16 * acc + hex_value c)%Z ds 0%Z) 1
    end
  | None =>
    match span JS.is_digit t1 with
    | ([], _) => nan
    | (ds, _) => of_ratio neg (digits_value ds) 1
    end
  end.

(** [Math.max(...xs)] *)
Definition max2 (hi x : number) : number :=
  if PrimFloat.is_nan hi || PrimFloat.is_nan x then nan
  else if PrimFloat.ltb hi x then x
  else if PrimFloat.is_zero hi && PrimFloat.is_zero x
          && PrimFloat.get_sign hi && negb (PrimFloat.get_sign x) then x
  else hi.

Definition Math_max (xs : list number) : number :=
  fold_left max2 xs neg_infinity.

(** [Number::toString(x)] in base 10: the shortest digit string that
    reads back as [x] (the nearest to [x] among those of that length),
    laid out as ECMAScript does: plain digits up to 21 integer places,
    a leading "0." down to 1e-6, and the exponent form otherwise. *)

(** [x = vn / vd] for a finite positive [x]. *)
Definition exact_ratio (x : number) : Z * Z :=
  match Prim2SF x with
  | S754_finite _ m e =>
    if (0 <=? e)%Z then (Z.pos m * 2 ^ e, 1)%Z else (Z.pos m, 2 ^ (- e))%Z
  | _ => (0, 1)%Z
  end.

(** [vn / vd < 10^n] *)
Definition below_pow10 (vn vd n : Z) : bool :=
  if (0 <=? n)%Z then (vn <? vd * 10 ^ n)%Z else (vn * 10 ^ (- n) <? vd)%Z.

(** The [n] with [10^(n-1) <= vn/vd < 10^n], searched upwards from an
    estimate that is below it. *)
Fixpoint first_below (fuel : nat) (vn vd n : Z) : Z :=
  match fuel with
  | O => n
  | S f => if below_pow10 vn vd n then n else first_below f vn vd (n + 1)
  end.

Definition int_places (vn vd : Z) : Z :=
  first_below 8 vn vd ((Z.log2 vn - Z.log2 vd) * 30103 / 100000 - 2).

(** [s * 10^(n-k)] read back as a number. *)
Definition scaled (s n k : Z) : number := of_decimal false s (n - k).

(** The distance of [s * 10^(n-k)] to [vn / vd], as a numerator over the
    common denominator of both candidates. *)
Definition distance (vn vd s n k : Z) : Z :=
  if (0 <=? n - k)%Z then Z.abs (s * 10 ^ (n - k) * vd - vn)
  else Z.abs (s * vd - vn * 10 ^ (k - n)).

(** The digits [s] of length [k], if a string of that length reads back. *)
Definition candidate (x : number) (vn vd n k : Z) : option Z :=
  let lo := if (0 <=? n - k)%Z then (vn / (vd * 10 ^ (n - k)))%Z
            else (vn * 10 ^ (k - n) / vd)%Z in
  let hi := (lo + 1)%Z in
  let ok_lo := (10 ^ (k - 1) <=? lo)%Z && PrimFloat.eqb (scaled lo n k) x in
  let ok_hi := PrimFloat.eqb (scaled hi n k) x in
  match ok_lo, ok_hi with
  | true, true =>
    let dl := distance vn vd lo n k in
    let dh := distance vn vd hi n k in
    if (dl <? dh)%Z then Some lo
    else if (dh <? dl)%Z then Some hi
    else if Z.even lo then Some lo else Some hi
  | true, false => Some lo
  | false, true => Some hi
  | false, false => None
  end.

Fixpoint shortest (fuel : nat) (x : number) (vn vd n k : Z) : Z * Z :=
  match fuel with
  | O => (0, k)%Z
  | S f =>
    match candidate x vn vd n k with
    | Some s => (s, k)
    | None => shortest f x vn vd n (k + 1)
    end
  end.

Definition digits_of (z : Z) : JS.jsstring :=
  JS.units_of_uint (N.to_uint (Z.to_N z)).

Definition zeros (n : Z) : JS.jsstring := repeat 48%N (Z.to_nat n).

Definition layout (ds : JS.jsstring) (n : Z) : JS.jsstring :=
  let k := Z.of_nat (List.length ds) in
  if (k <=? n)%Z && (n <=? 21)%Z then ds ++ zeros (n - k)
  else if (0 <? n)%Z && (n <=? 21)%Z then
    firstn (Z.to_nat n) ds ++ JS.str "." ++ skipn (Z.to_nat n) ds
  else if (-6 <? n)%Z && (n <=? 0)%Z then
    JS.str "0." ++ zeros (- n) ++ ds
  else
    let e := (n - 1)%Z in
    let sign := if (e <? 0)%Z then JS.str "-" else JS.str "+" in
    let mant := match ds with
                | [d] => [d]
                | d :: rest => d :: JS.str "." ++ rest
                | [] => []
                end in
    mant ++ JS.str "e" ++ sign ++ digits_of (Z.abs e).

Definition positive_toString (x : number) : JS.jsstring :=
  let (vn, vd) := exact_ratio x in
  let n := int_places vn vd in
  let (s, k) := shortest 17 x vn vd n 1 in
  (* the upper candidate may be a power of ten with one digit more *)
  if (s =? 10 ^ k)%Z then layout (digits_of (s / 10)) (n + 1)
  else layout (digits_of s) n.

Definition toString (x : number) : JS.jsstring :=
  if PrimFloat.is_nan x then JS.str "NaN"
  else if PrimFloat.is_zero x then JS.str "0"
  else if PrimFloat.is_infinity x then
    (if PrimFloat.get_sign x then JS.str "-Infinity" else JS.str "Infinity")
  else if PrimFloat.get_sign x then
    JS.str "-" ++ positive_toString (PrimFloat.abs x)
  else positive_toString x.

End Num.

(** ** Regular expressions *)

Module RegExp.

Inductive class_item : Type :=
| One (c : JS.char)
| Range (lo hi : JS.char)
| AnyDigit
| AnySpace.

Inductive regex : Type :=
| Eps
| Lit (s : JS.jsstring)
| Class (items : list class_item)
| Seq (r1 r2 : regex)
| Alt (r1 r2 : regex)
| Star (r : regex)
| Bol
| Eol
| WordB
| Group (i : nat) (r : regex).

(** A regular expression object: the pattern with its [i] and [g] flags. *)
Record t : Type := { source : regex; ignoreCase : bool; global : bool }.

(** [Canonicalize] of a pattern without the [u] flag: the upper case of the
    code unit, unless that is several units or maps a unit above U+007F into
    ASCII.  Exact on Basic Latin and Latin-1; any other unit is kept.  The
    letters of the patterns under [/i] in the source are ASCII letters and
    "ä", whose only partners are their two cases. *)
Definition canonicalize (c : JS.char) : JS.char :=
  (if JS.is_lower c then c - 32
   else if (224 <=? c) && (c <=? 254) && negb (c =? 247) then c - 32
   else if c =? 255 then 376
   else if c =? 181 then 924
   else c)%N.

Definition unit_match (ic : bool) (p c : JS.char) : bool :=
  if ic then JS.char_eqb (canonicalize p) (canonicalize c)
  else JS.char_eqb p c.

(** [\w] without the [u] flag *)
Definition is_word (c : JS.char) : bool :=
  JS.is_digit c || JS.is_upper c || JS.is_lower c || (c =? 95)%N.

Definition word_at (s : JS.jsstring) : bool :=
  match s with c :: _ => is_word c | [] => false end.

(** No class of the source that stands under [/i] holds a letter, so class
    membership is plain. *)
Definition item_match (it : class_item) (c : JS.char) : bool :=
  match it with
  | One x => JS.char_eqb x c
  | Range lo hi => ((lo <=? c) && (c <=? hi))%N
  | AnyDigit => JS.is_digit c
  | AnySpace => JS.is_space c
  end.

Definition class_match (items : list class_item) (c : JS.char) : bool :=
  existsb (fun it => item_match it c) items.

(** The captures made so far, the latest first. *)
Definition captures := list (nat * JS.jsstring).

Fixpoint capture (i : nat) (cs : captures) : option JS.jsstring :=
  match cs with
  | [] => None
  | (j, s) :: cs' => if Nat.eqb i j then Some s else capture i cs'
  end.

(** The matcher reads the input as the consumed part [b], latest unit
    first, and the part [a] ahead. *)
Fixpoint eat (ic : bool) (p b a : JS.jsstring)
  : option (JS.jsstring * JS.jsstring) :=
  match p with
  | [] => Some (b, a)
  | x :: p' =>
    match a with
    | c :: a' => if unit_match ic x c then eat ic p' (c :: b) a' else None
    | [] => None
    end
  end.

(** The units consumed between the states [b] and [b']. *)
Definition consumed (b b' : JS.jsstring) : JS.jsstring :=
  rev (firstn (List.length b' - List.length b) b').

Section Run.
Variable R : Type.
Variable ic : bool.

Definition cont := JS.jsstring -> JS.jsstring -> captures -> option R.
Definition matcher :=
  JS.jsstring -> JS.jsstring -> captures -> cont -> option R.

(** The greedy star of a matcher [m]: another round of [m] is tried before
    the rest of the pattern; a round that consumes nothing is rejected, as
    in ECMAScript.  Each round shortens the input ahead, so as many rounds
    as it has units are enough. *)
Fixpoint star_loop (m : matcher) (k : cont) (fuel : nat)
         (b a : JS.jsstring) (cs : captures) : option R :=
  match
    m b a cs
      (fun b' a' cs' =>
         if List.length a' <? List.length a then
           match fuel with
           | S f => star_loop m k f b' a' cs'
           | O => None
           end
         else None)
  with
  | Some x => Some x
  | None => k b a cs
  end.

(** Backtracking by continuations: [run r b a cs k] tries the ways [r] can
    match at this point in priority order and returns what the first
    continuation to succeed returns. *)
Fixpoint run (r : regex) (b a : JS.jsstring) (cs : captures) (k : cont)
  {struct r} : option R :=
  match r with
  | Eps => k b a cs
  | Lit s =>
    match eat ic s b a with
    | Some (b', a') => k b' a' cs
    | None => None
    end
  | Class items =>
    match a with
    | c :: a' => if class_match items c then k (c :: b) a' cs else None
    | [] => None
    end
  | Seq r1 r2 => run r1 b a cs (fun b' a' cs' => run r2 b' a' cs' k)
  | Alt r1 r2 =>
    match run r1 b a cs k with
    | Some x => Some x
    | None => run r2 b a cs k
    end
  | Star r1 => star_loop (run r1) k (List.length a) b a cs
  | Bol => match b with [] => k b a cs | _ => None end
  | Eol => match a with [] => k b a cs | _ => None end
  | WordB => if xorb (word_at b) (word_at a) then k b a cs else None
  | Group i r1 =>
    run r1 b a cs (fun b' a' cs' => k b' a' ((i, consumed b b') :: cs'))
  end.

End Run.

(** What a match is, apart from the order in which the matcher tries the
    ways: [sem ic r s s'] says that [r] can take the matcher from the state
    [s] to the state [s']. *)
Record state : Type := {
  seen : JS.jsstring;
  rest : JS.jsstring;
  caps : captures
}.

Inductive iter (step : state -> state -> Prop) : state -> state -> Prop :=
| iter_stop (s : state) : iter step s s
| iter_more (s m s' : state) : step s m -> iter step m s' -> iter step s s'.

Fixpoint sem (ic : bool) (r : regex) (s s' : state) {struct r} : Prop :=
  match r with
  | Eps => s' = s
  | Lit l =>
    exists b' a',
      eat ic l (seen s) (rest s) = Some (b', a')
      /\ s' = {| seen := b'; rest := a'; caps := caps s |}
  | Class items =>
    exists c a',
      rest s = c :: a' /\ class_match items c = true
      /\ s' = {| seen := c :: seen s; rest := a'; caps := caps s |}
  | Seq r1 r2 => exists m, sem ic r1 s m /\ sem ic r2 m s'
  | Alt r1 r2 => sem ic r1 s s' \/ sem ic r2 s s'
  | Star r1 => iter (sem ic r1) s s'
  | Bol => seen s = [] /\ s' = s
  | Eol => rest s = [] /\ s' = s
  | WordB => xorb (word_at (seen s)) (word_at (rest s)) = true /\ s' = s
  | Group i r1 =>
    exists m,
      sem ic r1 s m
      /\ s' = {| seen := seen m; rest := rest m;
                 caps := (i, consumed (seen s) (seen m)) :: caps m |}
  end.

(** A matcher is sound for a step relation when whatever it returns comes
    from its continuation, called at the end of a step. *)
Definition after_state {R : Type} (k : cont R) (s : state) : option R :=
  k (seen s) (rest s) (caps s).

Definition sound {R : Type} (m : matcher R)
           (step : state -> state -> Prop) : Prop :=
  forall b a cs k x,
    m b a cs k = Some x ->
    exists s',
      step {| seen := b; rest := a; caps := cs |} s'
      /\ after_state k s' = Some x.

(** A pattern without groups. *)
Fixpoint no_group (r : regex) : bool :=
  match r with
  | Seq r1 r2 | Alt r1 r2 => no_group r1 && no_group r2
  | Star r1 => no_group r1
  | Group _ _ => false
  | _ => true
  end.

(** The class a pattern starts with, when it starts with one. *)
Fixpoint first_class (r : regex) : option (list class_item) :=
  match r with
  | Class items => Some items
  | Seq r1 _ => first_class r1
  | _ => None
  end.

(** The result of [exec]: where the match starts and ends and what the
    groups hold. *)
Record result : Type := {
  index : nat;
  lastIndex : nat;
  matched : JS.jsstring;
  groups : captures;
  behind : JS.jsstring;
  ahead : JS.jsstring
}.

Definition match_here (ic : bool) (r : regex) (b a : JS.jsstring)
  : option result :=
  run ic r b a []
      (fun b' a' cs =>
         Some {| index := List.length b; lastIndex := List.length b';
                 matched := consumed b b'; groups := cs;
                 behind := b'; ahead := a' |}).

(** The leftmost match at or after the current point. *)
Fixpoint search (ic : bool) (r : regex) (b a : JS.jsstring)
  : option result :=
  match match_here ic r b a with
  | Some m => Some m
  | None =>
    match a with
    | [] => None
    | c :: a' => search ic r (c :: b) a'
    end
  end.

(** [re.exec(s)] from the start of [s] *)
Definition exec (re : t) (s : JS.jsstring) : option result :=
  search (ignoreCase re) (source re) [] s.

(** [re.test(s)] *)
Definition test (re : t) (s : JS.jsstring) : bool :=
  match exec re s with Some _ => true | None => false end.

(** All matches from left to right, each search starting where the match
    before it ended (one unit further after an empty match). *)
Fixpoint scan (fuel : nat) (ic : bool) (r : regex) (b a : JS.jsstring)
  : list result :=
  match fuel with
  | O => []
  | S f =>
    match search ic r b a with
    | None => []
    | Some m =>
      m :: (if lastIndex m =? index m then
              match ahead m with
              | [] => []
              | c :: a' => scan f ic r (c :: behind m) a'
              end
            else scan f ic r (behind m) (ahead m))
    end
  end.

Definition exec_all (re : t) (s : JS.jsstring) : list result :=
  scan (S (List.length s)) (ignoreCase re) (source re) [] s.

(** [s.match(re)]: without [g] the first match with its groups; with [g]
    the texts of all matches, [null] when there is none. *)
Definition match_first (re : t) (s : JS.jsstring) : option result :=
  exec re s.

Definition match_global (re : t) (s : JS.jsstring)
  : option (list JS.jsstring) :=
  match exec_all re s with
  | [] => None
  | ms => Some (map matched ms)
  end.

(** [s.replace(re, by)] for a replacement text without [$]: the first match
    without [g], every match with [g]. *)
Fixpoint splice (s : JS.jsstring) (from : nat) (ms : list result)
         (by_ : JS.jsstring) : JS.jsstring :=
  match ms with
  | [] => skipn from s
  | m :: ms' =>
    JS.substring from (index m) s ++ by_ ++ splice s (lastIndex m) ms' by_
  end.

Definition replace (re : t) (by_ : JS.jsstring) (s : JS.jsstring)
  : JS.jsstring :=
  if global re then splice s 0 (exec_all re s) by_
  else match exec re s with
       | Some m => splice s 0 [m] by_
       | None => s
       end.

(** What a global replacement makes of one unit, for a pattern that is a
    class. *)
Definition replaced (items : list class_item) (by_ : JS.jsstring)
           (c : JS.char) : JS.jsstring :=
  if class_match items c then by_ else [c].

(** Pattern shorthands: [r+] is [r r*], and [r?] tries [r] before the
    empty match. *)
Definition Plus (r : regex) : regex := Seq r (Star r).
Definition Opt (r : regex) : regex := Alt r Eps.

Definition code (a : ascii) : JS.char := N_of_ascii a.
Definition ones (s : string) : list class_item := map One (JS.str s).
Definition range (lo hi : ascii) : class_item := Range (code lo) (code hi).

Definition digit : regex := Class [AnyDigit].
Definition space : regex := Class [AnySpace].
Definition one (a : ascii) : regex := Class [One (code a)].

Fixpoint seq (rs : list regex) : regex :=
  match rs with
  | [] => Eps
  | [r] => r
  | r :: rs' => Seq r (seq rs')
  end.

(** [w1|w2|...] *)
Fixpoint words (w : JS.jsstring) (ws : list JS.jsstring) : regex :=
  match ws with
  | [] => Lit w
  | w' :: ws' => Alt (Lit w) (words w' ws')
  end.

Definition any_of (ws : list string) : regex :=
  match map JS.str ws with
  | [] => Eps
  | w :: ws' => words w ws'
  end.

End RegExp.

(** ** Exceptions *)

Inductive completion (A : Type) : Type :=
| Normal (a : A)
| Throw (e : JS.jsstring).

Arguments Normal {A} a.
Arguments Throw {A} e.

Definition bind {A B : Type} (m : completion A) (f : A -> completion B)
  : completion B :=
  match m with
  | Normal a => f a
  | Throw e => Throw e
  end.

(** [try { m } catch (e) { handler e }] *)
Definition try_catch {A : Type} (m : completion A)
           (handler : JS.jsstring -> completion A) : completion A :=
  match m with
  | Normal a => Normal a
  | Throw e => handler e
  end.

Notation "x <- m ;; k" := (bind m (fun x => k))
  (at level 61, m at next level, right associativity).

(** ** The document tree of the browser *)

Module DOM.

#[warnings="-register-all"] Inductive node : Type :=
| Elem (tag : JS.jsstring) (attrs : list (JS.jsstring * JS.jsstring))
       (children : list node)
| Text (data : JS.jsstring).

(** An element as the program holds it: its own data and the names of the
    elements above it, the parent first. *)
Record element : Type := {
  ancestors : list JS.jsstring;
  tagName : JS.jsstring;
  attributes : list (JS.jsstring * JS.jsstring);
  childNodes : list node
}.

(** A document: its top-level nodes, the root element among them. *)
Record document : Type := { topNodes : list node }.

(** [e.getAttribute(name)], [None] for [null] *)
Fixpoint lookup (name : JS.jsstring) (l : list (JS.jsstring * JS.jsstring))
  : option JS.jsstring :=
  match l with
  | [] => None
  | (k, v) :: l' => if JS.string_eqb k name then Some v else lookup name l'
  end.

Definition getAttribute (name : JS.jsstring) (e : element)
  : option JS.jsstring :=
  lookup name (attributes e).

(** The text of all text nodes below, in document order. *)
Fixpoint text_of (n : node) : JS.jsstring :=
  match n with
  | Text d => d
  | Elem _ _ ch => flat_map text_of ch
  end.

Definition textContent (e : element) : JS.jsstring :=
  flat_map text_of (childNodes e).

(** The elements at and below a node, in document order. *)
Fixpoint elements_at (above : list JS.jsstring) (n : node) : list element :=
  match n with
  | Text _ => []
  | Elem tag attrs ch =>
    {| ancestors := above; tagName := tag; attributes := attrs;
       childNodes := ch |}
      :: flat_map (elements_at (tag :: above)) ch
  end.

Definition descendants (e : element) : list element :=
  flat_map (elements_at (tagName e :: ancestors e)) (childNodes e).

Definition all_elements (d : document) : list element :=
  flat_map (elements_at []) (topNodes d).

(** A selector of the source: element names joined by the descendant
    combinator, the subject last ("OutlineText TextOutlTxt span"). *)
Definition selector := list JS.jsstring.

(** The names [outer], innermost first, occur in this order among the
    ancestors, parent first. *)
Fixpoint chain (outer : list JS.jsstring) (above : list JS.jsstring) : bool :=
  match outer with
  | [] => true
  | o :: outer' =>
    (fix up (above : list JS.jsstring) : bool :=
       match above with
       | [] => false
       | a :: above' =>
         if JS.string_eqb a o then chain outer' above' else up above'
       end) above
  end.

Definition matches (sel : selector) (e : element) : bool :=
  match rev sel with
  | [] => false
  | subject :: outer =>
    JS.string_eqb (tagName e) subject && chain outer (ancestors e)
  end.

Definition select (names : list string) : selector := map JS.str names.

(** [e.querySelectorAll(sel)] and [e.querySelector(sel)] *)
Definition querySelectorAll (sel : selector) (e : element) : list element :=
  filter (matches sel) (descendants e).

Definition querySelector (sel : selector) (e : element) : option element :=
  hd_error (querySelectorAll sel e).

(** [doc.querySelector(sel)] *)
Definition docQuerySelector (sel : selector) (d : document)
  : option element :=
  hd_error (filter (matches sel) (all_elements d)).

End DOM.

(** The host of the program: [new DOMParser().parseFromString(content,
    'text/xml')], which throws where there is no [DOMParser], and
    [new Date().toISOString()]. *)
Record Host : Type := {
  parseFromString : JS.jsstring -> completion DOM.document;
  now : JS.jsstring
}.

(** ** The data model *)

Module GAEBHeader.
Record t : Type := {
  version : option JS.jsstring;
  project : option JS.jsstring;
  description : option JS.jsstring;
  date : option JS.jsstring;
  format : option JS.jsstring
}.

Definition empty : t :=
  {| version := None; project := None; description := None; date := None;
     format := None |}.

Definition set_version (v : option JS.jsstring) (h : t) : t :=
  {| version := v; project := project h; description := description h;
     date := date h; format := format h |}.
Definition set_project (v : option JS.jsstring) (h : t) : t :=
  {| version := version h; project := v; description := description h;
     date := date h; format := format h |}.
Definition set_description (v : option JS.jsstring) (h : t) : t :=
  {| version := version h; project := project h; description := v;
     date := date h; format := format h |}.
Definition set_date (v : option JS.jsstring) (h : t) : t :=
  {| version := version h; project := project h;
     description := description h; date := v; format := format h |}.
Definition set_format (v : option JS.jsstring) (h : t) : t :=
  {| version := version h; project := project h;
     description := description h; date := date h; format := v |}.
End GAEBHeader.

Module PositionType.
Inductive t : Type := title | position | text | calculation.

Definition eqb (a b : t) : bool :=
  match a, b with
  | title, title | position, position | text, text
  | calculation, calculation => true
  | _, _ => false
  end.
End PositionType.

Module GAEBPosition.
Record t : Type := {
  id : JS.jsstring;
  positionNumber : option JS.jsstring;
  title : JS.jsstring;
  description : option JS.jsstring;
  unit : option JS.jsstring;
  quantity : option Num.number;
  unitPrice : option Num.number;
  totalPrice : option Num.number;
  level : nat;
  parent : option JS.jsstring;
  children : option (list JS.jsstring);
  type : PositionType.t
}.
End GAEBPosition.

Module GAEBData.
Record t : Type := {
  header : GAEBHeader.t;
  positions : list GAEBPosition.t;
  rawContent : JS.jsstring;
  fileName : JS.jsstring;
  processedAt : JS.jsstring;
  totalPositions : nat
}.
End GAEBData.

(** ** The parser: [class GAEBParser] *)

Module GAEBParser.
Import RegExp.

Definition re (r : regex) : RegExp.t :=
  {| source := r; ignoreCase := false; global := false |}.
Definition re_i (r : regex) : RegExp.t :=
  {| source := r; ignoreCase := true; global := false |}.
Definition re_g (r : regex) : RegExp.t :=
  {| source := r; ignoreCase := false; global := true |}.
Definition re_gi (r : regex) : RegExp.t :=
  {| source := r; ignoreCase := true; global := true |}.

Definition dot : regex := one ".".
Definition comma_or_dot : regex := Class (ones ",.").
Definition letter : regex := Class [range "A" "Z"; range "a" "z"].
Definition capital : regex := Class [range "A" "Z"].
Definition capital_de : list class_item := range "A" "Z" :: ones "ÜÄÖ".

(** [\d+(\.\d+)*]; the group of the source is not read back. *)
Definition dotted_number : regex :=
  Seq (Plus digit) (Star (Seq dot (Plus digit))).

(** The unit vocabularies of [looksLikePosition] and [parsePosition]. *)
Definition quantity_units : list string :=
  ["m²"; "m³"; "lfm"; "kg"; "t"; "Stk"; "psch"; "St"; "qm"; "cbm"; "to";
   "lfd"; "Std"; "h"; "m"]%string.
Definition gaeb_units : list string :=
  quantity_units ++ ["cm"; "mm"; "l"; "kWh"; "Pfl"; "bgl"]%string.
Definition currency_words : list string := ["EUR"; "€"; "DM"]%string.

(** [content.includes(x)] *)
Definition contains (content : JS.jsstring) (x : string) : bool :=
  JS.includes (JS.str x) content.

(** [detectGAEBFormat(content)] *)
Definition detectGAEBFormat (content : JS.jsstring) : JS.jsstring :=
  if contains content "D81" || contains content "d81" then JS.str "D81"
  else if contains content "D83" || contains content "d83" then JS.str "D83"
  else if contains content "D84" || contains content "d84" then JS.str "D84"
  else if contains content "P81" || contains content "p81" then JS.str "P81"
  else if contains content "P83" || contains content "p83" then JS.str "P83"
  else if contains content "X81" || contains content "x81" then JS.str "X81"
  else if contains content "X83" || contains content "x83" then JS.str "X83"
  else JS.str "Unknown".

(** [detectXMLGAEBFormat(content)] *)
Definition detectXMLGAEBFormat (content : JS.jsstring) : JS.jsstring :=
  if contains content "DA83/3.3" then JS.str "X83"
  else if contains content "DA84" then JS.str "X84"
  else if contains content "DA81" then JS.str "X81"
  else if contains content "<GAEB" then JS.str "XML GAEB"
  else JS.str "XML".

(** [extractValue(line)] *)
Definition extractValue (line : JS.jsstring) : JS.jsstring :=
  let parts := JS.split (code ":") line in
  if 1 <? List.length parts
  then JS.trim (JS.join (JS.str ":") (skipn 1 parts))
  else line.

(** The seven patterns of [looksLikePosition], in the order of the source. *)
Definition looks_numbered : RegExp.t :=
  re (seq [Bol; Star space; dotted_number; Opt letter; Plus space]).
Definition looks_lettered : RegExp.t :=
  re (seq [Bol; Star space; capital; dotted_number; Plus space]).
Definition looks_unit : RegExp.t :=
  re_i (seq [WordB; any_of gaeb_units; WordB]).
Definition looks_price : RegExp.t :=
  re_i (seq [Plus digit; comma_or_dot; Plus digit; Star space;
             any_of ["€"; "EUR"; "DM"]%string]).
Definition looks_heading : RegExp.t :=
  re (seq [Bol; Star space; Plus digit; Plus space; Class capital_de]).
Definition looks_quantity : RegExp.t :=
  re_i (seq [Plus digit; Opt comma_or_dot; Star digit; Plus space;
             any_of quantity_units; WordB]).
Definition looks_trade : RegExp.t :=
  re_i (seq [WordB;
             any_of ["Beton"; "Mauerwerk"; "Estrich"; "Fliesen"; "Putz";
                     "Anstrich"; "Dämmung"; "Installation"; "Montage";
                     "Lieferung"]%string;
             WordB]).

(** [looksLikePosition(line)] *)
Definition looksLikePosition (line : JS.jsstring) : bool :=
  let trimmedLine := JS.trim line in
  if negb (JS.truthy trimmedLine) || (List.length trimmedLine <? 3) then false
  else if JS.includes (JS.str "header") (JS.toLowerCase trimmedLine)
          || JS.includes (JS.str "projekt") (JS.toLowerCase trimmedLine)
  then false
  else
    test looks_numbered line
    || test looks_lettered line
    || test looks_unit line
    || test looks_price line
    || test looks_heading line
    || test looks_quantity line
    || test looks_trade line.

(** The patterns of [parsePosition]. *)
Definition positionNumberPatterns : list RegExp.t :=
  [ re (seq [Bol; Star space;
             Group 1 (seq [dotted_number; Opt letter]); Plus space]);
    re (seq [Bol; Star space;
             Group 1 (seq [capital; dotted_number]); Plus space]);
    re (seq [Bol; Star space;
             Group 1 (seq [digit; digit; Opt digit]); Plus space]) ].

Definition numberPatterns : list RegExp.t :=
  [ re_g (Group 1 (seq [Plus digit; comma_or_dot; Plus digit]));
    re_g (Group 1 (Plus digit)) ].

Definition unitPattern : RegExp.t :=
  re_i (seq [WordB; Group 1 (any_of (gaeb_units ++ currency_words)); WordB]).

Definition amount : regex :=
  Group 1 (seq [Plus digit; comma_or_dot; Plus digit]).

Definition currencyPatterns : list RegExp.t :=
  [ re_i (seq [amount; Star space; any_of ["€"; "EUR"]%string]);
    re_i (seq [amount; Star space; Lit (JS.str "DM")]);
    re_i (seq [Lit (JS.str "€"); Star space; amount]);
    re_i (seq [Lit (JS.str "EUR"); Star space; amount]) ].

Definition section_title : RegExp.t :=
  re (seq [Bol; Star space; Plus digit; Plus space; Class capital_de;
           Plus (Class (capital_de ++ [AnySpace])); Eol]).

Definition summary_line : RegExp.t :=
  re_i (seq [WordB; any_of ["gesamt"; "summe"; "total"; "zwischensumme"]%string;
             WordB]).

(** [new RegExp(`^\\s*${escaped}\\s*`)]: escaping makes every unit of the
    position number stand for itself. *)
Definition leading_number (positionNumber : JS.jsstring) : RegExp.t :=
  re (seq [Bol; Star space; Lit positionNumber; Star space]).

Definition pricePattern : RegExp.t :=
  re_gi (seq [Plus digit; comma_or_dot; Star digit; Star space;
              any_of ["€"; "EUR"; "DM"]%string]).

(** [new RegExp(`\\d+[,\\.]?\\d*\\s*${escaped unit}`, 'gi')] *)
Definition quantityPattern (unit : JS.jsstring) : RegExp.t :=
  re_gi (seq [Plus digit; Opt comma_or_dot; Star digit; Star space; Lit unit]).

Definition spaces : RegExp.t := re_g (Plus space).

Definition leading_digits : RegExp.t :=
  re (seq [Bol; Plus digit; Star (Class [One (code "."); AnySpace])]).

(** The first pattern of the list that matches, with its match. *)
Fixpoint first_match (ps : list RegExp.t) (line : JS.jsstring)
  : option result :=
  match ps with
  | [] => None
  | p :: ps' =>
    match match_first p line with
    | Some m => Some m
    | None => first_match ps' line
    end
  end.

Fixpoint first_global (ps : list RegExp.t) (line : JS.jsstring)
  : list JS.jsstring :=
  match ps with
  | [] => []
  | p :: ps' =>
    match match_global p line with
    | Some ms => ms
    | None => first_global ps' line
    end
  end.

(** [match[1]] *)
Definition group1 (m : result) : JS.jsstring :=
  match capture 1 (groups m) with Some s => s | None => [] end.

(** A value that may be [undefined], as a condition. *)
Definition defined_truthy (o : option Num.number) : bool :=
  match o with Some x => Num.truthy x | None => false end.

Definition string_truthy (o : option JS.jsstring) : bool :=
  match o with Some s => JS.truthy s | None => false end.

Definition is_currency_word (u : JS.jsstring) : bool :=
  JS.string_eqb u (JS.str "€") || JS.string_eqb u (JS.str "EUR")
  || JS.string_eqb u (JS.str "DM").

(** [unit && unit !== '€' && unit !== 'EUR' && unit !== 'DM'] *)
Definition proper_unit (unit : option JS.jsstring) : bool :=
  match unit with
  | Some u => JS.truthy u && negb (is_currency_word u)
  | None => false
  end.

Definition count_dots (s : JS.jsstring) : nat :=
  List.length (filter (fun c => JS.char_eqb c (code ".")) s).

(** The type of the line, by the chain of tests of the source. *)
Definition classify (trimmedLine : JS.jsstring)
           (positionNumber unit : option JS.jsstring)
           (currencyAmount : option Num.number) : PositionType.t :=
  if test section_title trimmedLine then PositionType.title
  else if negb (string_truthy positionNumber)
          && (80 <? List.length trimmedLine)
          && negb (defined_truthy currencyAmount)
  then PositionType.text
  else if (match currencyAmount with Some _ => true | None => false end)
          || string_truthy unit
  then PositionType.position
  else if test summary_line trimmedLine then PositionType.calculation
  else PositionType.position.

(** The title of the line. *)
Definition derive_title (trimmedLine : JS.jsstring) (index : nat)
           (positionNumber unit : option JS.jsstring)
           (currencyAmount : option Num.number) : JS.jsstring :=
  let title := trimmedLine in
  let title :=
    match positionNumber with
    | Some pn =>
      if JS.truthy pn then replace (leading_number pn) [] title else title
    | None => title
    end in
  let title :=
    if defined_truthy currencyAmount then replace pricePattern [] title
    else title in
  let title :=
    match unit with
    | Some u =>
      if proper_unit unit then replace (quantityPattern u) [] title
      else title
    | None => title
    end in
  let title := JS.trim (replace spaces (JS.str " ") title) in
  if negb (JS.truthy title) || (List.length title <? 3) then
    JS.or_else (JS.trim (replace leading_digits [] trimmedLine))
               (JS.str "Position " ++ JS.of_nat (index + 1))
  else title.

(** The description found in the two lines after [currentIndex]. *)
Definition lookahead (allLines : list JS.jsstring) (currentIndex : nat)
  : JS.jsstring :=
  match
    find (fun nextLine =>
            JS.truthy nextLine && negb (looksLikePosition nextLine)
            && (10 <? List.length (JS.trim nextLine)))
         (firstn 2 (skipn (currentIndex + 1) allLines))
  with
  | Some nextLine => JS.trim nextLine
  | None => []
  end.

(** Quantity, unit price and total price. *)
Definition pricing (type : PositionType.t) (cleanNumbers : list Num.number)
           (currencyAmount : option Num.number)
  : option Num.number * option Num.number * option Num.number :=
  if PositionType.eqb type PositionType.position
     && (0 <? List.length cleanNumbers)
  then
    match cleanNumbers with
    | [] => (None, None, None)
    | first :: others =>
      if defined_truthy currencyAmount && (List.length cleanNumbers =? 1) then
        let quantity := first in
        let unitPrice := currencyAmount in
        (Some quantity, unitPrice,
         option_map (fun price => quantity * price)%float unitPrice)
      else if defined_truthy currencyAmount
              && (2 <=? List.length cleanNumbers) then
        (Some first, currencyAmount, nth_error cleanNumbers 1)
      else if (2 <=? List.length cleanNumbers)
              && negb (defined_truthy currencyAmount) then
        let quantity := first in
        let largerNumber := Num.Math_max others in
        if (1 <? largerNumber)%float then
          let totalPrice := largerNumber in
          (Some quantity, Some (totalPrice / quantity)%float, Some totalPrice)
        else (Some quantity, None, None)
      else if (List.length cleanNumbers =? 1)
              && negb (defined_truthy currencyAmount) then
        (Some first, None, None)
      else (None, None, None)
    end
  else (None, None, None).

(** The values [parsePosition] extracts from the line. *)
Definition extract_positionNumber (line : JS.jsstring)
  : option JS.jsstring :=
  option_map group1 (first_match positionNumberPatterns line).

(** [parseFloat(n.replace(',', '.'))] *)
Definition clean (n : JS.jsstring) : Num.number :=
  Num.parseFloat (JS.replace_char (code ",") (code ".") n).

Definition extract_cleanNumbers (line : JS.jsstring) : list Num.number :=
  map clean (first_global numberPatterns line).

Definition extract_unit (line : JS.jsstring) : option JS.jsstring :=
  option_map matched (match_first unitPattern line).

Definition extract_currencyAmount (line : JS.jsstring)
  : option Num.number :=
  option_map (fun m => clean (group1 m)) (first_match currencyPatterns line).

(** The depth of the line: a level per four leading blanks, raised to the
    number of dots of the position number. *)
Definition level_of (line : JS.jsstring)
           (positionNumber : option JS.jsstring) : nat :=
  let leadingSpaces := List.length line - List.length (JS.trimStart line) in
  let level := leadingSpaces / 4 in
  match positionNumber with
  | Some pn => if JS.truthy pn then Nat.max level (count_dots pn) else level
  | None => level
  end.

(** [parsePosition(line, index, allLines, currentIndex)]; [null] is
    [None]. *)
Definition parsePosition (line : JS.jsstring) (index : nat)
           (allLines : list JS.jsstring) (currentIndex : nat)
  : completion (option GAEBPosition.t) :=
  try_catch
    (let trimmedLine := JS.trim line in
     let positionNumber := extract_positionNumber line in
     let id :=
       JS.opt_or positionNumber (JS.str "pos_" ++ JS.of_nat (index + 1)) in
     let cleanNumbers := extract_cleanNumbers line in
     let unit := extract_unit line in
     let currencyAmount := extract_currencyAmount line in
     let type := classify trimmedLine positionNumber unit currencyAmount in
     let title :=
       derive_title trimmedLine index positionNumber unit currencyAmount in
     let level := level_of line positionNumber in
     let description := lookahead allLines currentIndex in
     let '(quantity, unitPrice, totalPrice) :=
       pricing type cleanNumbers currencyAmount in
     Normal
       (Some {| GAEBPosition.id := id;
                GAEBPosition.positionNumber := positionNumber;
                GAEBPosition.title := title;
                GAEBPosition.description :=
                  if JS.truthy description then Some description else None;
                GAEBPosition.unit := if proper_unit unit then unit else None;
                GAEBPosition.level := level;
                GAEBPosition.type := type;
                GAEBPosition.quantity := quantity;
                GAEBPosition.unitPrice := unitPrice;
                GAEBPosition.totalPrice := totalPrice;
                GAEBPosition.parent := None;
                GAEBPosition.children := None |}))
    (fun _ => Normal None).

(** The state of the loop of [parseTextGAEB]. *)
Inductive section : Type := in_header | in_positions.

Record text_state : Type := {
  header : GAEBHeader.t;
  positions : list GAEBPosition.t;
  currentSection : section;
  positionCounter : nat
}.

(** The header keywords of one line. *)
Definition header_line (line : JS.jsstring) (h : GAEBHeader.t)
  : GAEBHeader.t :=
  let lower := JS.toLowerCase line in
  if contains lower "project" || contains lower "projekt" then
    GAEBHeader.set_project (Some (extractValue line)) h
  else if contains lower "version" then
    GAEBHeader.set_version (Some (extractValue line)) h
  else if contains lower "date" || contains lower "datum" then
    GAEBHeader.set_date (Some (extractValue line)) h
  else if contains lower "description" || contains lower "beschreibung" then
    GAEBHeader.set_description (Some (extractValue line)) h
  else h.

(** [positions.push(position)] when [position] is not [null] *)
Definition push (position : option GAEBPosition.t)
           (positions : list GAEBPosition.t) : list GAEBPosition.t :=
  match position with
  | Some p => positions ++ [p]
  | None => positions
  end.

(** One round of the loop over [lines], at index [i]. *)
Definition text_step (lines : list JS.jsstring) (i : nat)
           (line : JS.jsstring) (st : text_state) : completion text_state :=
  if negb (JS.truthy line) then Normal st
  else
    let st1 :=
      match currentSection st with
      | in_header =>
        {| header := header_line line (header st);
           positions := positions st;
           currentSection :=
             if looksLikePosition line then in_positions else in_header;
           positionCounter := positionCounter st |}
      | in_positions => st
      end in
    match currentSection st1 with
    | in_positions =>
      if looksLikePosition line then
        position <- parsePosition line (positionCounter st1) lines i;;
        Normal {| header := header st1;
                  positions := push position (positions st1);
                  currentSection := in_positions;
                  positionCounter := S (positionCounter st1) |}
      else Normal st1
    | in_header => Normal st1
    end.

Fixpoint text_loop (lines rest : list JS.jsstring) (i : nat)
         (st : text_state) : completion text_state :=
  match rest with
  | [] => Normal st
  | line :: rest' =>
    st' <- text_step lines i line st;;
    text_loop lines rest' (S i) st'
  end.

(** [content.split('\n').map(line => line.trim()).filter(line => line)] *)
Definition lines_of (content : JS.jsstring) : list JS.jsstring :=
  filter JS.truthy (map JS.trim (JS.split 10%N content)).

Section WithHost.
Variable host : Host.

(** [parseTextGAEB(content, fileName)] *)
Definition parseTextGAEB (content fileName : JS.jsstring)
  : completion GAEBData.t :=
  let lines := lines_of content in
  let initial :=
    {| header := GAEBHeader.set_format (Some (detectGAEBFormat content))
                                       GAEBHeader.empty;
       positions := [];
       currentSection := in_header;
       positionCounter := 0 |} in
  st <- text_loop lines lines 0 initial;;
  Normal {| GAEBData.header := header st;
            GAEBData.positions := positions st;
            GAEBData.rawContent := content;
            GAEBData.fileName := fileName;
            GAEBData.processedAt := now host;
            GAEBData.totalPositions := List.length (positions st) |}.

(** [x.textContent?.trim() || fallback] *)
Definition text_or (e : DOM.element) (fallback : JS.jsstring) : JS.jsstring :=
  JS.or_else (JS.trim (DOM.textContent e)) fallback.

(** [parseXMLCategory(categoryElement, index, categoryNumber)] *)
Definition parseXMLCategory (categoryElement : DOM.element) (index : nat)
           (categoryNumber : Num.number)
  : completion (option GAEBPosition.t) :=
  try_catch
    (let id :=
       JS.opt_or (DOM.getAttribute (JS.str "ID") categoryElement)
                 (JS.str "cat_" ++ JS.of_nat (index + 1)) in
     let title := JS.str "Unknown Category" in
     let title :=
       match DOM.querySelector (DOM.select ["LblTx"]%string) categoryElement
       with
       | Some lblTxElement =>
         match DOM.querySelector (DOM.select ["span"]%string) lblTxElement
         with
         | Some spanElement => text_or spanElement title
         | None =>
           match DOM.querySelector (DOM.select ["p"]%string) lblTxElement
           with
           | Some pElement => text_or pElement title
           | None => text_or lblTxElement title
           end
         end
       | None => title
       end in
     Normal
       (Some {| GAEBPosition.id := id;
                GAEBPosition.positionNumber :=
                  Some (Num.toString categoryNumber);
                GAEBPosition.title := title;
                GAEBPosition.description := None;
                GAEBPosition.unit := None;
                GAEBPosition.quantity := None;
                GAEBPosition.unitPrice := None;
                GAEBPosition.totalPrice := None;
                GAEBPosition.level := 0;
                GAEBPosition.parent := None;
                GAEBPosition.children := None;
                GAEBPosition.type := PositionType.title |}))
    (fun _ => Normal None).

(** The title and the description of an item, from its [Description]
    element. *)
Definition item_texts (itemElement : DOM.element) (rNoPart : JS.jsstring)
  : JS.jsstring * JS.jsstring :=
  let placeholder := JS.str "Position " ++ rNoPart in
  match DOM.querySelector (DOM.select ["Description"]%string) itemElement
  with
  | None => (placeholder, [])
  | Some descriptionElement =>
    let title :=
      match DOM.querySelector
              (DOM.select ["OutlineText"; "TextOutlTxt"; "span"]%string)
              descriptionElement
      with
      | Some outlineTextElement => text_or outlineTextElement placeholder
      | None => placeholder
      end in
    match DOM.querySelector (DOM.select ["DetailTxt"]%string)
                            descriptionElement
    with
    | None => (title, [])
    | Some detailTextElement =>
      let paragraphs :=
        DOM.querySelectorAll (DOM.select ["p"; "span"]%string)
                             detailTextElement in
      let textParts :=
        filter JS.truthy
               (map (fun p => JS.trim (DOM.textContent p)) paragraphs) in
      match textParts with
      | [] => (title, [])
      | part0 :: _ =>
        let description := JS.join (JS.str " ") textParts in
        if JS.string_eqb title placeholder && JS.truthy part0 then
          (JS.substring 0 100 part0
             ++ (if 100 <? List.length part0 then JS.str "..." else []),
           description)
        else (title, description)
      end
    end
  end.

(** [parseXMLItem(itemElement, index, parentCategoryId, categoryNumber,
    itemNumber)] *)
Definition parseXMLItem (itemElement : DOM.element) (index : nat)
           (parentCategoryId : option JS.jsstring)
           (categoryNumber : Num.number) (itemNumber : nat)
  : completion (option GAEBPosition.t) :=
  try_catch
    (let id :=
       JS.opt_or (DOM.getAttribute (JS.str "ID") itemElement)
                 (JS.str "item_" ++ JS.of_nat (index + 1)) in
     let rNoPart :=
       JS.opt_or (DOM.getAttribute (JS.str "RNoPart") itemElement)
                 (JS.of_nat (index + 1)) in
     let quantity :=
       match DOM.querySelector (DOM.select ["Qty"]%string) itemElement with
       | Some qtyElement =>
         Some (Num.parseFloat
                 (JS.or_else (DOM.textContent qtyElement) (JS.str "0")))
       | None => None
       end in
     let unit :=
       match DOM.querySelector (DOM.select ["QU"]%string) itemElement with
       | Some quElement => Some (JS.trim (DOM.textContent quElement))
       | None => None
       end in
     let '(title, description) := item_texts itemElement rNoPart in
     let hierarchicalPositionNumber :=
       if Num.truthy categoryNumber && negb (itemNumber =? 0) then
         Num.toString categoryNumber ++ JS.str "." ++ JS.of_nat itemNumber
       else rNoPart in
     Normal
       (Some {| GAEBPosition.id := id;
                GAEBPosition.positionNumber :=
                  Some hierarchicalPositionNumber;
                GAEBPosition.title := title;
                GAEBPosition.description :=
                  if JS.truthy description then Some description else None;
                GAEBPosition.unit := unit;
                GAEBPosition.quantity := quantity;
                GAEBPosition.unitPrice := None;
                GAEBPosition.totalPrice := None;
                GAEBPosition.level := 1;
                GAEBPosition.type := PositionType.position;
                GAEBPosition.parent := parentCategoryId;
                GAEBPosition.children := None |}))
    (fun _ => Normal None).

(** [list.forEach((x, index) => ...)] over a state that the callback
    updates. *)
Fixpoint forEach {A St : Type} (f : A -> nat -> St -> completion St)
         (l : list A) (index : nat) (st : St) : completion St :=
  match l with
  | [] => Normal st
  | x :: l' => st' <- f x index st;; forEach f l' (S index) st'
  end.

(** The callback of [items.forEach] in [parseXMLGAEB]. *)
Definition item_callback (categoryId : option JS.jsstring)
           (categoryNumber : Num.number) (item : DOM.element)
           (itemIndex : nat) (positions : list GAEBPosition.t)
  : completion (list GAEBPosition.t) :=
  let itemNumber := itemIndex + 1 in
  itemPosition <-
    parseXMLItem item itemIndex categoryId categoryNumber itemNumber;;
  Normal (push itemPosition positions).

(** The number of a category: [parseInt] of its [RNoPart], or of its place
    when the attribute is missing or empty. *)
Definition category_number (category : DOM.element) (categoryIndex : nat)
  : Num.number :=
  Num.parseInt
    (JS.opt_or (DOM.getAttribute (JS.str "RNoPart") category)
               (JS.of_nat (categoryIndex + 1))).

(** The callback of [categories.forEach] in [parseXMLGAEB]. *)
Definition category_callback (category : DOM.element) (categoryIndex : nat)
           (positions : list GAEBPosition.t)
  : completion (list GAEBPosition.t) :=
  let categoryNumber := category_number category categoryIndex in
  categoryPosition <-
    parseXMLCategory category categoryIndex categoryNumber;;
  let positions := push categoryPosition positions in
  let items := DOM.querySelectorAll (DOM.select ["Item"]%string) category in
  forEach (item_callback (option_map GAEBPosition.id categoryPosition)
                         categoryNumber)
          items 0 positions.

(** [a || b] on elements that may be [null] *)
Definition or_element (a b : option DOM.element) : option DOM.element :=
  match a with Some _ => a | None => b end.

(** The header fields read from the document. *)
Definition xml_header (xmlDoc : DOM.document) (h : GAEBHeader.t)
  : GAEBHeader.t :=
  let h :=
    match DOM.docQuerySelector (DOM.select ["GAEB"]%string) xmlDoc with
    | Some gaebElement =>
      GAEBHeader.set_version
        (Some (JS.opt_or (DOM.getAttribute (JS.str "xmlns") gaebElement)
                         (JS.str "Unknown"))) h
    | None => h
    end in
  match DOM.docQuerySelector (DOM.select ["Award"]%string) xmlDoc with
  | Some awardElement =>
    let projectElement :=
      or_element
        (or_element
           (DOM.querySelector (DOM.select ["Project"]%string) awardElement)
           (DOM.querySelector (DOM.select ["Name"]%string) awardElement))
        (DOM.querySelector (DOM.select ["Title"]%string) awardElement) in
    match projectElement with
    | Some e => GAEBHeader.set_project (Some (JS.trim (DOM.textContent e))) h
    | None => h
    end
  | None => h
  end.

(** The nodes of the bill of quantities: the categories below the first
    [BoQ] element, each followed by its items. *)
Definition extract_positions (xmlDoc : DOM.document)
  : completion (list GAEBPosition.t) :=
  match DOM.docQuerySelector (DOM.select ["BoQ"]%string) xmlDoc with
  | Some boqElement =>
    forEach category_callback
            (DOM.querySelectorAll (DOM.select ["BoQCtgy"]%string) boqElement)
            0 []
  | None => Normal []
  end.

(** [parseXMLGAEB(content, fileName)] *)
Definition parseXMLGAEB (content fileName : JS.jsstring)
  : completion GAEBData.t :=
  let header :=
    GAEBHeader.set_format (Some (detectXMLGAEBFormat content))
                          GAEBHeader.empty in
  try_catch
    (xmlDoc <- parseFromString host content;;
     match DOM.docQuerySelector (DOM.select ["parsererror"]%string) xmlDoc
     with
     | Some _ => parseTextGAEB content fileName
     | None =>
       let header := xml_header xmlDoc header in
       positions <- extract_positions xmlDoc;;
       Normal {| GAEBData.header := header;
                 GAEBData.positions := positions;
                 GAEBData.rawContent := content;
                 GAEBData.fileName := fileName;
                 GAEBData.processedAt := now host;
                 GAEBData.totalPositions := List.length positions |}
     end)
    (fun _ => parseTextGAEB content fileName).

(** [parse(content, fileName)] *)
Definition parse (content fileName : JS.jsstring) : completion GAEBData.t :=
  if JS.startsWith (JS.str "<?xml") (JS.trim content)
     || contains content "<GAEB"
  then parseXMLGAEB content fileName
  else parseTextGAEB content fileName.

End WithHost.

End GAEBParser.

(** ** The sheet names of [ExcelExporter.exportToExcel] *)

Module ExcelExporter.
Import RegExp.

(** The global pattern of the characters replaced in a file name: the
    backslash, the slash, the colon, the star, the question mark, the double
    quote (code 34), the angle brackets and the bar. *)
Definition unsafe : RegExp.t :=
  {| source := Class (One 34%N :: ones "\/:*?<>|");
     ignoreCase := false; global := true |}.

Definition is_unsafe (c : JS.char) : bool :=
  match source unsafe with
  | Class items => class_match items c
  | _ => false
  end.

(** [gaebFile.fileName.replace(unsafe, '_').substring(0, 31)] *)
Definition cleanFileName (gaebFile : GAEBData.t) : JS.jsstring :=
  JS.substring 0 31 (replace unsafe (JS.str "_") (GAEBData.fileName gaebFile)).

(** The name of the sheet of the file at [index], among [count] files. *)
Definition sheetName (count index : nat) (gaebFile : GAEBData.t)
  : JS.jsstring :=
  if 1 <? count then
    JS.str "File_" ++ JS.of_nat (index + 1) ++ JS.str "_"
           ++ cleanFileName gaebFile
  else cleanFileName gaebFile.

Fixpoint names_from (count index : nat) (files : list GAEBData.t)
  : list JS.jsstring :=
  match files with
  | [] => []
  | f :: files' => sheetName count index f :: names_from count (S index) files'
  end.

(** The names passed to [book_append_sheet] for the files, in order (after
    the summary sheet). *)
Definition sheetNames (gaebFiles : list GAEBData.t) : list JS.jsstring :=
  names_from (List.length gaebFiles) 0 gaebFiles.

End ExcelExporter.

(** ** The sheets and the CSV text of [ExcelExporter] *)

Module Workbook.
Import RegExp.

(** A cell of the rows handed to [aoa_to_sheet]: a text, the length of an
    array or a sum of such lengths, or a quantity. *)
Inductive cell : Type :=
| Str (s : JS.jsstring)
| Count (n : nat)
| Num (x : Num.number).

(** [String(cell)] *)
Definition cell_text (c : cell) : JS.jsstring :=
  match c with
  | Str s => s
  | Count n => JS.of_nat n
  | Num x => Num.toString x
  end.

Definition blank : cell := Str [].

(** [file.positions.filter(p => p.type === type).length] *)
Definition count_type (type : PositionType.t) (file : GAEBData.t) : nat :=
  List.length
    (filter (fun p => PositionType.eqb (GAEBPosition.type p) type)
            (GAEBData.positions file)).

(** [gaebFiles.reduce((sum, file) => sum + f(file), 0)] *)
Definition reduce_sum (f : GAEBData.t -> nat) (gaebFiles : list GAEBData.t)
  : nat :=
  fold_left (fun sum file => sum + f file) gaebFiles 0.

Section Summary.
(** [new Date(processedAt).toLocaleString('de-DE')] *)
Variable toLocaleString : JS.jsstring -> JS.jsstring.

(** The row of a file.  The source also sums the quantities of the file
    ([totalQuantity]) and does not use the sum. *)
Definition summary_row (file : GAEBData.t) : list cell :=
  [ Str (GAEBData.fileName file);
    Str (JS.opt_or (GAEBHeader.format (GAEBData.header file)) (JS.str "X83"));
    Count (count_type PositionType.title file);
    Count (count_type PositionType.position file);
    Count (GAEBData.totalPositions file);
    Str (toLocaleString (GAEBData.processedAt file)) ].

Definition total_row (gaebFiles : list GAEBData.t) : list cell :=
  [ Str (JS.str "GESAMT");
    blank;
    Count (reduce_sum (count_type PositionType.title) gaebFiles);
    Count (reduce_sum (count_type PositionType.position) gaebFiles);
    Count (reduce_sum GAEBData.totalPositions gaebFiles);
    blank ].

(** [createSummarySheet(gaebFiles)] *)
Definition createSummarySheet (gaebFiles : list GAEBData.t)
  : list (list cell) :=
  let data :=
    [ [Str (JS.str "GAEB Produktionsliste - Übersicht")];
      [blank];
      map (fun s => Str (JS.str s))
          ["Datei"; "Format"; "Kategorien"; "Artikel"; "Gesamt Positionen";
           "Bearbeitet am"]%string ] in
  let data := data ++ map summary_row gaebFiles in
  if 1 <? List.length gaebFiles
  then data ++ [[blank]; total_row gaebFiles]
  else data.

End Summary.

(** The names of the sheets of the workbook: the summary sheet, then the
    sheets of the files. *)
Definition workbookSheetNames (gaebFiles : list GAEBData.t)
  : list JS.jsstring :=
  JS.str "Summary" :: ExcelExporter.sheetNames gaebFiles.

(** The row of a node in the sheet of its file. *)
Definition position_row (position : GAEBPosition.t) : list cell :=
  [ Str (JS.opt_or (GAEBPosition.positionNumber position) []);
    Str (GAEBPosition.title position);
    (if PositionType.eqb (GAEBPosition.type position) PositionType.position
     then match GAEBPosition.quantity position with
          | Some q => if Num.truthy q then Num q else blank
          | None => blank
          end
     else blank);
    blank; blank; blank; blank; blank; blank; blank; blank ].

(** [createPositionSheet(gaebFile, includeDescription)] *)
Definition createPositionSheet (gaebFile : GAEBData.t)
           (includeDescription : bool) : list (list cell) :=
  let data :=
    [ Str (JS.str "Projekt: "
             ++ JS.opt_or (GAEBHeader.project (GAEBData.header gaebFile))
                          (GAEBData.fileName gaebFile))
          :: repeat blank 9;
      repeat blank 10;
      [Str (JS.str "Werkstatt"); blank; blank; blank; blank;
       Str (JS.str "Zukauf"); blank; blank; blank; blank];
      repeat blank 10;
      [Str (JS.str "Position"); Str (JS.str "Produkt");
       Str (JS.str "Stückzahl"); Str (JS.str "zugeschnitten");
       Str (JS.str "gebaut"); blank; Str (JS.str "Produkt");
       Str (JS.str "Stückzahl"); Str (JS.str "bestellt am");
       Str (JS.str "geliefert"); blank] ] in
  data ++ map position_row (GAEBData.positions gaebFile).

(** The rows [exportToExcel] styles in the sheet of a file, as the numbers
    of its cell references (["A" + rowIndex]): the row of the column headers,
    and for each node of type title the row [dataStartRow + positionIndex].
    A cell reference counts the rows from 1, the rows handed to
    [aoa_to_sheet] are counted from 0. *)
Definition headerRowIndex : nat := 5.
Definition dataStartRow : nat := 6.

Fixpoint category_rows_from (positionIndex : nat)
         (positions : list GAEBPosition.t) : list nat :=
  match positions with
  | [] => []
  | position :: rest =>
    (if PositionType.eqb (GAEBPosition.type position) PositionType.title
     then [dataStartRow + positionIndex] else [])
      ++ category_rows_from (S positionIndex) rest
  end.

Definition category_rows (gaebFile : GAEBData.t) : list nat :=
  category_rows_from 0 (GAEBData.positions gaebFile).

(** [Math.max(...data.map(row => row.length))] for some rows *)
Definition max_length (data : list (list cell)) : nat :=
  fold_left Nat.max (map (@List.length cell) data) 0.

(** The width of the column [col]: two more than its longest text, at
    least 10 and at most 50. *)
Definition column_width (data : list (list cell)) (col : nat) : nat :=
  let maxWidth :=
    fold_left
      (fun maxWidth row =>
         match nth_error row col with
         | Some c => Nat.max maxWidth (List.length (cell_text c) + 2)
         | None => maxWidth
         end)
      data 10 in
  Nat.min maxWidth 50.

(** [calculateColumnWidths(data)], the [wch] of each column.  The cells of
    the rows of this file are never [undefined].  ([exportToExcel] sets
    fixed widths and does not call it.) *)
Definition calculateColumnWidths (data : list (list cell)) : list nat :=
  match data with
  | [] => []
  | _ => map (column_width data) (List.seq 0 (max_length data))
  end.

(** [getTypeDisplayName(type)] *)
Definition getTypeDisplayName (type : PositionType.t) : JS.jsstring :=
  match type with
  | PositionType.title => JS.str "Category"
  | PositionType.position => JS.str "Position"
  | PositionType.text => JS.str "Text"
  | PositionType.calculation => JS.str "Calculation"
  end.

(** The global pattern of the double quote (code 34), and a field between
    quotes with its own quotes doubled. *)
Definition quote : RegExp.t :=
  {| source := Class [One 34%N]; ignoreCase := false; global := true |}.

Definition quoted (s : JS.jsstring) : JS.jsstring :=
  [34%N] ++ replace quote [34%N; 34%N] s ++ [34%N].

(** [position.quantity || ''] as the text [join] makes of it *)
Definition quantity_text (quantity : option Num.number) : JS.jsstring :=
  match quantity with
  | Some q => if Num.truthy q then Num.toString q else []
  | None => []
  end.

(** The line of a node in the CSV text. *)
Definition csv_row (position : GAEBPosition.t) : JS.jsstring :=
  JS.join (JS.str ",")
          [ JS.opt_or (GAEBPosition.positionNumber position) [];
            getTypeDisplayName (GAEBPosition.type position);
            quoted (GAEBPosition.title position);
            quoted (JS.opt_or (GAEBPosition.description position) []);
            quantity_text (GAEBPosition.quantity position);
            JS.opt_or (GAEBPosition.unit position) [] ]
    ++ [10%N].

(** What one file adds to the CSV text after the separator. *)
Definition csv_block (file : GAEBData.t) : JS.jsstring :=
  JS.str "File: " ++ GAEBData.fileName file ++ [10%N]
    ++ JS.str "Format: "
    ++ JS.opt_or (GAEBHeader.format (GAEBData.header file)) [] ++ [10%N]
    ++ JS.str "Project: "
    ++ JS.opt_or (GAEBHeader.project (GAEBData.header file)) []
    ++ [10%N; 10%N]
    ++ JS.str "Position,Type,Title,Description,Quantity,Unit" ++ [10%N]
    ++ flat_map csv_row (GAEBData.positions file).

(** The loop of [exportToCSV] over the files, from [fileIndex] on. *)
Fixpoint csv_from (fileIndex : nat) (gaebFiles : list GAEBData.t)
         (csvContent : JS.jsstring) : JS.jsstring :=
  match gaebFiles with
  | [] => csvContent
  | file :: files =>
    let csvContent :=
      if 0 <? fileIndex then csvContent ++ [10%N; 10%N] else csvContent in
    csv_from (S fileIndex) files (csvContent ++ csv_block file)
  end.

(** The text [exportToCSV(gaebFiles)] puts into the download. *)
Definition csvContent (gaebFiles : list GAEBData.t) : JS.jsstring :=
  csv_from 0 gaebFiles [].

End Workbook.

(** ** The list of processed files: [useGAEBProcessor] and [Home] *)

Module Processor.

(** [s.lastIndexOf(c)] for a unit [c], -1 when [c] does not occur *)
Fixpoint lastIndexOf_from (c : JS.char) (s : JS.jsstring) (i found : Z) : Z :=
  match s with
  | [] => found
  | x :: s' =>
    lastIndexOf_from c s' (i + 1) (if JS.char_eqb x c then i else found)
  end.

Definition lastIndexOf (c : JS.char) (s : JS.jsstring) : Z :=
  lastIndexOf_from c s 0 (-1).

(** [s.slice(start)]: a negative [start] counts from the end. *)
Definition slice (start : Z) (s : JS.jsstring) : JS.jsstring :=
  let len := Z.of_nat (List.length s) in
  let from := if (start <? 0)%Z then Z.max (len + start) 0
              else Z.min start len in
  skipn (Z.to_nat from) s.

Definition validExtensions : list JS.jsstring :=
  map JS.str [".gaeb"; ".d83"; ".p83"; ".x83"]%string.

(** [file.name.toLowerCase().slice(file.name.lastIndexOf('.'))], also the
    check of [handleFile] in the upload component.  The four extensions are
    ASCII, where [JS.toLowerCase] is exact, so the check is exact; in the
    message of [unsupported] a letter outside Latin-1 keeps its case. *)
Definition fileExtension (name : JS.jsstring) : JS.jsstring :=
  slice (lastIndexOf (RegExp.code ".") name) (JS.toLowerCase name).

(** [validExtensions.includes(fileExtension)] *)
Definition accepted (name : JS.jsstring) : bool :=
  existsb (JS.string_eqb (fileExtension name)) validExtensions.


(** The state of the hook. *)
Record state : Type := {
  processedFiles : list GAEBData.t;
  isProcessing : bool;
  error : option JS.jsstring
}.





Definition clearFiles (st : state) : state :=
  {| processedFiles := []; isProcessing := isProcessing st; error := None |}.



End Processor.

(** ** Sample inputs *)

Module Samples.

Local Open Scope string_scope.

(** A host without [DOMParser]. *)
Definition bare_host : Host :=
  {| parseFromString := fun _ => Throw (JS.str "ReferenceError");
     now := JS.str "2024-01-01T00:00:00.000Z" |}.

(** A browser that answers every text with the same tree. *)
Definition browser (d : DOM.document) : Host :=
  {| parseFromString := fun _ => Normal d;
     now := JS.str "2024-01-01T00:00:00.000Z" |}.

Definition elem (tag : string) (attrs : list (string * string))
           (children : list DOM.node) : DOM.node :=
  DOM.Elem (JS.str tag)
           (map (fun kv => (JS.str (fst kv), JS.str (snd kv))) attrs) children.

Definition text (s : string) : DOM.node := DOM.Text (JS.str s).

(** An element taken on its own, with nothing above it. *)
Definition standalone (tag : string) (attrs : list (string * string))
           (children : list DOM.node) : DOM.element :=
  {| DOM.ancestors := [];
     DOM.tagName := JS.str tag;
     DOM.attributes :=
       map (fun kv => (JS.str (fst kv), JS.str (snd kv))) attrs;
     DOM.childNodes := children |}.

Definition boq_document (categories : list DOM.node) : DOM.document :=
  {| DOM.topNodes :=
       [elem "GAEB" [] [elem "Award" [] [elem "BoQ" [] categories]]] |}.

(** What a browser returns for markup that is not well formed. *)
Definition error_document : DOM.document :=
  {| DOM.topNodes := [elem "parsererror" [] [text "XML Parsing Error"]] |}.

Definition mauerwerk_line : JS.jsstring :=
  JS.str "1.2 Mauerwerk 20m² 15,50€".

Definition free_line : JS.jsstring := JS.str "Beton 0,00 €".

Definition repeated_lines : JS.jsstring :=
  (JS.str "1 Erdarbeiten 5 m" ++ [10%N] ++ JS.str "1 Erdarbeiten 5 m")%list.

Definition unclosed_markup : JS.jsstring :=
  (JS.str "<GAEB><Award><BoQ>" ++ [10%N] ++ JS.str "1 Beton 5 m")%list.

(** [<QU>EUR</QU>] in an item. *)
Definition euro_unit_document : DOM.document :=
  boq_document
    [elem "BoQCtgy" [("RNoPart", "1")]
          [elem "Item" [("ID", "a")] [elem "Qty" [] [text "5"];
                                      elem "QU" [] [text "EUR"]]]].

Definition euro_unit_markup : JS.jsstring :=
  JS.str ("<GAEB><Award><BoQ><BoQCtgy RNoPart='1'><Item ID='a'>"
          ++ "<Qty>5</Qty><QU>EUR</QU></Item></BoQCtgy></BoQ></Award></GAEB>").

Definition euro_line : JS.jsstring := JS.str "1 Beton 5 EUR".

(** A category numbered 3 whose two items carry numbers of their own. *)
Definition category_three : DOM.element :=
  standalone "BoQCtgy" [("RNoPart", "3")]
             [elem "Item" [("RNoPart", "7")] [];
              elem "Item" [("RNoPart", "9")] []].

(** A category whose number is a letter. *)
Definition category_letter : DOM.element :=
  standalone "BoQCtgy" [("RNoPart", "A")] [elem "Item" [] []].

Definition item_with_quantity (qty : string) : DOM.element :=
  standalone "Item" [] [elem "Qty" [] [text qty]].

(** An item whose [Qty] element is empty. *)
Definition item_with_empty_quantity : DOM.element :=
  standalone "Item" [] [elem "Qty" [] []].

Definition two_categories_markup : JS.jsstring :=
  JS.str ("<GAEB><Award><BoQ><BoQCtgy ID='c1'><Item/></BoQCtgy>"
          ++ "<BoQCtgy ID='c2'><Item/></BoQCtgy></BoQ></Award></GAEB>").

(** Two categories whose items have no [ID]. *)
Definition two_categories_document : DOM.document :=
  boq_document
    [elem "BoQCtgy" [("ID", "c1")] [elem "Item" [] []];
     elem "BoQCtgy" [("ID", "c2")] [elem "Item" [] []]].

Definition file (name : string) : GAEBData.t :=
  {| GAEBData.header := GAEBHeader.empty;
     GAEBData.positions := [];
     GAEBData.rawContent := [];
     GAEBData.fileName := JS.str name;
     GAEBData.processedAt := [];
     GAEBData.totalPositions := 0 |}.

Definition two_files : list GAEBData.t :=
  [file "Leistungsverzeichnis_Rohbau.x83";
   file "Leistungsverzeichnis_Ausbau.x83"].

(** Two lines, the first indented by eight blanks. *)
Definition indented_lines : JS.jsstring :=
  (JS.str "        1 Erdarbeiten 5 m" ++ [10%N]
     ++ JS.str "1.2.3 Aushub 5 m")%list.

End Samples.

(** ** Notions used in the statements *)

(** The unit of a node is none of the currency words. *)
Definition currency_free (p : GAEBPosition.t) : Prop :=
  GAEBPosition.unit p <> Some (JS.str "€")
  /\ GAEBPosition.unit p <> Some (JS.str "EUR")
  /\ GAEBPosition.unit p <> Some (JS.str "DM").

(** The ways the markup path fails: the tree is not built, the tree holds
    an error node, or the extraction throws. *)
Definition structured_path_fails (host : Host) (content : JS.jsstring)
  : Prop :=
  (exists e, parseFromString host content = Throw e)
  \/ (exists xmlDoc,
         parseFromString host content = Normal xmlDoc
         /\ ((exists err,
                 DOM.docQuerySelector (DOM.select ["parsererror"]%string)
                                      xmlDoc = Some err)
             \/ exists e,
                 GAEBParser.extract_positions xmlDoc = Throw e)).

(** Where the id of the node at place [j] comes from: made up from the
    place, or the position number of its line, which starts with a digit or
    a capital letter. *)
Definition id_explained (j : nat) (p : GAEBPosition.t) : Prop :=
  (GAEBPosition.positionNumber p = None
   /\ GAEBPosition.id p = JS.str "pos_" ++ JS.of_nat (j + 1))
  \/ (exists c w,
         GAEBPosition.positionNumber p = Some (c :: w)
         /\ GAEBPosition.id p = c :: w
         /\ (JS.is_digit c = true \/ JS.is_upper c = true)).

(** The nodes of a state of the line parser are as many as the calls of
    [parsePosition], and each id is explained by its place. *)
Definition ids_explained (st : GAEBParser.text_state) : Prop :=
  List.length (GAEBParser.positions st) = GAEBParser.positionCounter st
  /\ forall j p,
      nth_error (GAEBParser.positions st) j = Some p -> id_explained j p.

(** The prices as the description of the parser words them, from the
    plain numbers of the line and its currency amount: (a) one number and
    an amount, (b) two or more numbers and an amount, (c) two or more
    numbers without an amount, (d) one number without an amount. *)
Definition pricing_as_described (numbers : list Num.number)
           (currency : option Num.number)
  : option Num.number * option Num.number * option Num.number :=
  match numbers, currency with
  | [], _ => (None, None, None)
  | [n], Some c => (Some n, Some c, Some (n * c)%float)
  | n :: m :: _, Some c => (Some n, Some c, Some m)
  | [n], None => (Some n, None, None)
  | n :: others, None =>
    let largest := Num.Math_max others in
    if (1 <? largest)%float
    then (Some n, Some (largest / n)%float, Some largest)
    else (Some n, None, None)
  end.

(** The ordinal of a category as the description words it: the integer
    parse of [RNoPart] when the attribute is there and parses, else the
    place of the category, counted from 1. *)
Definition category_ordinal_as_described (category : DOM.element)
           (categoryIndex : nat) : Num.number :=
  match DOM.getAttribute (JS.str "RNoPart") category with
  | Some v =>
    if PrimFloat.is_nan (Num.parseInt v)
    then Num.parseInt (JS.of_nat (categoryIndex + 1))
    else Num.parseInt v
  | None => Num.parseInt (JS.of_nat (categoryIndex + 1))
  end.

(** The number of an item as the markup path composes it: the category
    number, a dot and the place of the item when the category number is
    truthy, else the [RNoPart] of the item or its place. *)
Definition item_number (categoryNumber : Num.number) (item : DOM.element)
           (itemIndex : nat) : JS.jsstring :=
  if Num.truthy categoryNumber then
    Num.toString categoryNumber ++ JS.str "." ++ JS.of_nat (itemIndex + 1)
  else
    JS.opt_or (DOM.getAttribute (JS.str "RNoPart") item)
              (JS.of_nat (itemIndex + 1)).

(** The prices of a node come together: a unit price and a total price are
    both there or both missing, a price needs a quantity, and only a node of
    type position has any of the three. *)
Definition prices_consistent (p : GAEBPosition.t) : Prop :=
  (GAEBPosition.unitPrice p = None <-> GAEBPosition.totalPrice p = None)
  /\ (GAEBPosition.unitPrice p <> None -> GAEBPosition.quantity p <> None)
  /\ (GAEBPosition.type p <> PositionType.position ->
      GAEBPosition.quantity p = None
      /\ GAEBPosition.unitPrice p = None
      /\ GAEBPosition.totalPrice p = None).

(** A node has an id and a title that are not empty, and its description is
    missing rather than empty. *)
Definition named (p : GAEBPosition.t) : Prop :=
  GAEBPosition.id p <> []
  /\ GAEBPosition.title p <> []
  /\ GAEBPosition.description p <> Some [].

(** The number of dots of the position number of a node, 0 without one. *)
Definition dots_of_number (p : GAEBPosition.t) : nat :=
  match GAEBPosition.positionNumber p with
  | Some pn => GAEBParser.count_dots pn
  | None => 0
  end.

(** The lines up to the first one that looks like a position, that one
    included. *)
Fixpoint header_part (lines : list JS.jsstring) : list JS.jsstring :=
  match lines with
  | [] => []
  | line :: lines' =>
    if GAEBParser.looksLikePosition line then [line]
    else line :: header_part lines'
  end.

(** The categories the markup path visits, and the items of a category:
    descendants at any depth. *)
Definition categories_of (xmlDoc : DOM.document) : list DOM.element :=
  match DOM.docQuerySelector (DOM.select ["BoQ"]%string) xmlDoc with
  | Some boqElement =>
    DOM.querySelectorAll (DOM.select ["BoQCtgy"]%string) boqElement
  | None => []
  end.

Definition items_of (category : DOM.element) : list DOM.element :=
  DOM.querySelectorAll (DOM.select ["Item"]%string) category.

(** The nodes of one category: a title node at level 0 without parent,
    then one position node per item, at level 1 and with the id of the title
    node as parent. *)
Definition block_of (category : DOM.element) (block : list GAEBPosition.t)
  : Prop :=
  exists c nodes,
    block = c :: nodes
    /\ GAEBPosition.type c = PositionType.title
    /\ GAEBPosition.level c = 0
    /\ GAEBPosition.parent c = None
    /\ List.length nodes = List.length (items_of category)
    /\ Forall (fun p => GAEBPosition.type p = PositionType.position
                        /\ GAEBPosition.level p = 1
                        /\ GAEBPosition.parent p
                           = Some (GAEBPosition.id c))
              nodes.

(** The count in the column [col] of a row of the summary sheet, 0 where the
    cell holds a text or is missing. *)
Definition count_at (col : nat) (row : list Workbook.cell) : nat :=
  match nth_error row col with
  | Some (Workbook.Count n) => n
  | _ => 0
  end.

(** Reading a quoted CSV field: after the opening quote, two quotes in a
    row stand for one quote of the field, and a single quote ends it.  The
    result is the field and the text after its closing quote. *)
Fixpoint read_quoted (s : JS.jsstring) : option (JS.jsstring * JS.jsstring) :=
  match s with
  | [] => None
  | c :: s' =>
    if JS.char_eqb c 34%N then
      match s' with
      | c' :: s'' =>
        if JS.char_eqb c' 34%N then
          option_map (fun r => (34%N :: fst r, snd r)) (read_quoted s'')
        else Some ([], s')
      | [] => Some ([], [])
      end
    else option_map (fun r => (c :: fst r, snd r)) (read_quoted s')
  end.

Definition read_field (s : JS.jsstring) : option (JS.jsstring * JS.jsstring) :=
  match s with
  | c :: s' => if JS.char_eqb c 34%N then read_quoted s' else None
  | [] => None
  end.

(** Two texts that differ in the case of their letters only, as a pattern
    with the [i] flag compares them. *)
Definition same_up_to_case (w u : JS.jsstring) : Prop :=
  map RegExp.canonicalize w = map RegExp.canonicalize u.

(** What the type of a node excludes: a node of type text has no position
    number, a node of type calculation has no unit. *)
Definition typed_consistently (p : GAEBPosition.t) : Prop :=
  (GAEBPosition.type p = PositionType.text ->
   GAEBPosition.positionNumber p = None)
  /\ (GAEBPosition.type p = PositionType.calculation ->
      GAEBPosition.unit p = None).

(** * Properties *)

Unset Implicit Arguments.

(** ** Strings *)

Lemma char_eqb_eq (a b : JS.char) : JS.char_eqb a b = true <-> a = b.
Proof. unfold JS.char_eqb. apply N.eqb_eq. Qed.

Lemma string_eqb_eq (s t : JS.jsstring) : JS.string_eqb s t = true <-> s = t.
Proof.
  revert t.
  induction s as [|a s IH]; intros [|b t]; simpl; split; intro H;
    try reflexivity; try discriminate.
  - apply andb_true_iff in H as [Hab Hst].
    apply char_eqb_eq in Hab. apply IH in Hst. congruence.
  - injection H as -> ->.
    apply andb_true_iff. split; [apply char_eqb_eq | apply IH]; reflexivity.
Qed.

Lemma string_eqb_refl (s : JS.jsstring) : JS.string_eqb s s = true.
Proof. apply string_eqb_eq. reflexivity. Qed.

Lemma units_of_uint_inj (d e : Decimal.uint) :
  JS.units_of_uint d = JS.units_of_uint e -> d = e.
Proof.
  revert e.
  induction d; intros e H; destruct e; simpl in H;
    try reflexivity; try discriminate H;
    injection H as H; f_equal; apply IHd; exact H.
Qed.

Lemma of_nat_inj (n m : nat) : JS.of_nat n = JS.of_nat m -> n = m.
Proof.
  unfold JS.of_nat. intro H.
  apply units_of_uint_inj in H.
  apply DecimalNat.Unsigned.to_uint_inj. exact H.
Qed.

Lemma units_of_uint_digits (d : Decimal.uint) :
  Forall (fun c => JS.is_digit c = true) (JS.units_of_uint d).
Proof. induction d; simpl; constructor; try reflexivity; exact IHd. Qed.

Lemma digits_then_underscore (d1 : JS.jsstring) :
  forall d2 x y,
    Forall (fun c => JS.is_digit c = true) d1 ->
    Forall (fun c => JS.is_digit c = true) d2 ->
    d1 ++ 95%N :: x = d2 ++ 95%N :: y -> d1 = d2.
Proof.
  induction d1 as [|a d1 IH]; intros [|b d2] x y H1 H2 E; simpl in E.
  - reflexivity.
  - injection E as <- _. apply Forall_inv in H2. discriminate H2.
  - injection E as -> _. apply Forall_inv in H1. discriminate H1.
  - injection E as -> E. f_equal.
    apply (IH d2 x y); [eapply Forall_inv_tail; eassumption
                       | eapply Forall_inv_tail; eassumption | exact E].
Qed.

Lemma skipn_nth (s : JS.jsstring) (n : nat) (c : JS.char) :
  nth_error s n = Some c -> skipn n s = c :: skipn (S n) s.
Proof.
  revert n. induction s as [|x s IH]; intros [|n] H; simpl in H;
    try discriminate H.
  - injection H as ->. reflexivity.
  - simpl. apply IH. exact H.
Qed.

Lemma Forall_firstn {A : Type} (P : A -> Prop) (n : nat) (l : list A) :
  Forall P l -> Forall P (firstn n l).
Proof.
  intro H. rewrite <- (firstn_skipn n l) in H.
  apply Forall_app in H. exact (proj1 H).
Qed.

(** ** Exceptions *)

Lemma try_catch_normal {A : Type} (m : completion A)
      (handler : JS.jsstring -> completion A) :
  (forall e, exists a, handler e = Normal a) ->
  exists a, try_catch m handler = Normal a.
Proof.
  intro Hh. destruct m as [a|e]; simpl.
  - exists a. reflexivity.
  - apply Hh.
Qed.

(** ** The matcher and what a match is *)

Section Matcher.
Variable R : Type.
Variable ic : bool.

Lemma star_loop_sound (m : RegExp.matcher R)
      (step : RegExp.state -> RegExp.state -> Prop) :
  RegExp.sound m step ->
  forall fuel b a cs k x,
    RegExp.star_loop m k fuel b a cs = Some x ->
    exists s',
      RegExp.iter step
                  {| RegExp.seen := b; RegExp.rest := a; RegExp.caps := cs |}
                  s'
      /\ RegExp.after_state k s' = Some x.
Proof.
  intros Hm fuel.
  induction fuel as [|fuel IH]; intros b a cs k x H; simpl in H.
  - destruct (m b a cs _) as [y|] eqn:E.
    + apply Hm in E as (s1 & _ & Hk). unfold RegExp.after_state in Hk.
      destruct (_ <? _) in Hk; discriminate Hk.
    + exists {| RegExp.seen := b; RegExp.rest := a; RegExp.caps := cs |}.
      split; [apply RegExp.iter_stop | exact H].
  - destruct (m b a cs _) as [y|] eqn:E.
    + injection H as ->.
      apply Hm in E as (s1 & Hstep & Hk). unfold RegExp.after_state in Hk.
      destruct (_ <? _) in Hk; [| discriminate Hk].
      apply IH in Hk as (s' & Hiter & Hk).
      exists s'. split; [| exact Hk].
      eapply RegExp.iter_more; [exact Hstep |].
      destruct s1. exact Hiter.
    + exists {| RegExp.seen := b; RegExp.rest := a; RegExp.caps := cs |}.
      split; [apply RegExp.iter_stop | exact H].
Qed.

(** Whatever the matcher returns comes from a continuation called at the
    end of a match. *)
Lemma run_sound (r : RegExp.regex) :
  RegExp.sound (@RegExp.run R ic r) (RegExp.sem ic r).
Proof.
  induction r as [| l | items | r1 IH1 r2 IH2 | r1 IH1 r2 IH2 | r1 IH1
                  | | | | i r1 IH1];
    intros b a cs k x H; simpl in H.
  - exists {| RegExp.seen := b; RegExp.rest := a; RegExp.caps := cs |}.
    split; [reflexivity | exact H].
  - destruct (RegExp.eat ic l b a) as [[b' a']|] eqn:E; [| discriminate H].
    exists {| RegExp.seen := b'; RegExp.rest := a'; RegExp.caps := cs |}.
    split; [| exact H].
    simpl. exists b', a'. split; [exact E | reflexivity].
  - destruct a as [|c a']; [discriminate H |].
    destruct (RegExp.class_match items c) eqn:E; [| discriminate H].
    exists {| RegExp.seen := c :: b; RegExp.rest := a'; RegExp.caps := cs |}.
    split; [| exact H].
    simpl. exists c, a'. repeat split. exact E.
  - apply IH1 in H as (m & Hm & Hk). unfold RegExp.after_state in Hk.
    apply IH2 in Hk as (s' & Hs' & Hk).
    exists s'. split; [| exact Hk].
    simpl. exists m. split; [exact Hm |]. destruct m. exact Hs'.
  - destruct (RegExp.run ic r1 b a cs k) as [y|] eqn:E.
    + injection H as ->. apply IH1 in E as (s' & Hs' & Hk).
      exists s'. split; [left; exact Hs' | exact Hk].
    + apply IH2 in H as (s' & Hs' & Hk).
      exists s'. split; [right; exact Hs' | exact Hk].
  - eapply star_loop_sound; [exact IH1 | exact H].
  - destruct b; [| discriminate H].
    exists {| RegExp.seen := []; RegExp.rest := a; RegExp.caps := cs |}.
    split; [| exact H]. simpl. split; reflexivity.
  - destruct a; [| discriminate H].
    exists {| RegExp.seen := b; RegExp.rest := []; RegExp.caps := cs |}.
    split; [| exact H]. simpl. split; reflexivity.
  - destruct (xorb _ _) eqn:E; [| discriminate H].
    exists {| RegExp.seen := b; RegExp.rest := a; RegExp.caps := cs |}.
    split; [| exact H]. simpl. split; [exact E | reflexivity].
  - apply IH1 in H as (m & Hm & Hk). unfold RegExp.after_state in Hk.
    exists {| RegExp.seen := RegExp.seen m; RegExp.rest := RegExp.rest m;
              RegExp.caps := (i, RegExp.consumed b (RegExp.seen m))
                               :: RegExp.caps m |}.
    split; [| exact Hk].
    simpl. exists m. split; [exact Hm | reflexivity].
Qed.

End Matcher.

Section Matches.
Variable ic : bool.

Lemma eat_extends (l b a b' a' : JS.jsstring) :
  RegExp.eat ic l b a = Some (b', a') -> exists w, b' = rev w ++ b.
Proof.
  revert b a. induction l as [|x l IH]; intros b a H; simpl in H.
  - injection H as <- <-. exists []. reflexivity.
  - destruct a as [|c a1]; [discriminate H |].
    destruct (RegExp.unit_match ic x c); [| discriminate H].
    apply IH in H as (w & ->). exists (c :: w).
    simpl. rewrite <- app_assoc. reflexivity.
Qed.

Lemma iter_extends (step : RegExp.state -> RegExp.state -> Prop) :
  (forall s s', step s s' ->
                exists w, RegExp.seen s' = rev w ++ RegExp.seen s) ->
  forall s s', RegExp.iter step s s' ->
               exists w, RegExp.seen s' = rev w ++ RegExp.seen s.
Proof.
  intros Hstep s s' H. induction H as [s | s m s' H1 _ IH].
  - exists []. reflexivity.
  - apply Hstep in H1 as (w1 & E1). destruct IH as (w2 & E2).
    exists (w1 ++ w2). rewrite E2, E1, rev_app_distr, app_assoc.
    reflexivity.
Qed.

(** A match only adds to the units seen. *)
Lemma sem_extends (r : RegExp.regex) :
  forall s s', RegExp.sem ic r s s' ->
               exists w, RegExp.seen s' = rev w ++ RegExp.seen s.
Proof.
  induction r as [| l | items | r1 IH1 r2 IH2 | r1 IH1 r2 IH2 | r1 IH1
                  | | | | i r1 IH1];
    intros s s' H; simpl in H.
  - subst. exists []. reflexivity.
  - destruct H as (b' & a' & E & ->). simpl.
    eapply eat_extends. exact E.
  - destruct H as (c & a' & _ & _ & ->). exists [c]. reflexivity.
  - destruct H as (m & H1 & H2).
    apply IH1 in H1 as (w1 & E1). apply IH2 in H2 as (w2 & E2).
    exists (w1 ++ w2). rewrite E2, E1, rev_app_distr, app_assoc.
    reflexivity.
  - destruct H as [H | H]; [apply IH1 | apply IH2]; exact H.
  - eapply iter_extends; [exact IH1 | exact H].
  - destruct H as (_ & ->). exists []. reflexivity.
  - destruct H as (_ & ->). exists []. reflexivity.
  - destruct H as (_ & ->). exists []. reflexivity.
  - destruct H as (m & H1 & ->). simpl. apply IH1. exact H1.
Qed.

Lemma iter_caps (step : RegExp.state -> RegExp.state -> Prop) :
  (forall s s', step s s' -> RegExp.caps s' = RegExp.caps s) ->
  forall s s', RegExp.iter step s s' -> RegExp.caps s' = RegExp.caps s.
Proof.
  intros Hstep s s' H. induction H as [s | s m s' H1 _ IH].
  - reflexivity.
  - rewrite IH. apply Hstep. exact H1.
Qed.

(** A pattern without groups leaves the captures as they are. *)
Lemma sem_no_group (r : RegExp.regex) :
  RegExp.no_group r = true ->
  forall s s', RegExp.sem ic r s s' -> RegExp.caps s' = RegExp.caps s.
Proof.
  induction r as [| l | items | r1 IH1 r2 IH2 | r1 IH1 r2 IH2 | r1 IH1
                  | | | | i r1 IH1];
    intros Hng s s' H; simpl in H, Hng.
  - subst. reflexivity.
  - destruct H as (b' & a' & _ & ->). reflexivity.
  - destruct H as (c & a' & _ & _ & ->). reflexivity.
  - apply andb_true_iff in Hng as [Hn1 Hn2].
    destruct H as (m & H1 & H2).
    rewrite (IH2 Hn2 _ _ H2). apply (IH1 Hn1 _ _ H1).
  - apply andb_true_iff in Hng as [Hn1 Hn2].
    destruct H as [H | H]; [apply (IH1 Hn1) | apply (IH2 Hn2)]; exact H.
  - eapply iter_caps; [apply (IH1 Hng) | exact H].
  - destruct H as (_ & ->). reflexivity.
  - destruct H as (_ & ->). reflexivity.
  - destruct H as (_ & ->). reflexivity.
  - discriminate Hng.
Qed.

(** A pattern that starts with a class consumes a unit of the class
    first. *)
Lemma sem_first_class (r : RegExp.regex) (items : list RegExp.class_item) :
  RegExp.first_class r = Some items ->
  forall s s',
    RegExp.sem ic r s s' ->
    exists c w,
      RegExp.class_match items c = true
      /\ RegExp.seen s' = rev w ++ c :: RegExp.seen s.
Proof.
  induction r as [| l | its | r1 IH1 r2 _ | r1 _ r2 _ | r1 _
                  | | | | i r1 _];
    intros Hfc s s' H; simpl in Hfc; try discriminate Hfc.
  - injection Hfc as ->. simpl in H.
    destruct H as (c & a' & _ & Hc & ->).
    exists c, []. split; [exact Hc | reflexivity].
  - simpl in H. destruct H as (m & H1 & H2).
    destruct (IH1 Hfc _ _ H1) as (c & w1 & Hc & E1).
    apply sem_extends in H2 as (w2 & E2).
    exists c, (w1 ++ w2). split; [exact Hc |].
    rewrite E2, E1, rev_app_distr, app_assoc. reflexivity.
Qed.

Lemma consumed_extends (b w : JS.jsstring) :
  RegExp.consumed b (rev w ++ b) = w.
Proof.
  unfold RegExp.consumed.
  rewrite length_app, Nat.add_sub, firstn_app, Nat.sub_diag.
  rewrite firstn_all, firstn_O, app_nil_r. apply rev_involutive.
Qed.

End Matches.

Lemma search_here (ic : bool) (r : RegExp.regex) (m : RegExp.result) :
  forall b a,
    RegExp.search ic r b a = Some m ->
    exists b1 a1, RegExp.match_here ic r b1 a1 = Some m.
Proof.
  intros b a. revert b.
  induction a as [|c a IH]; intros b H; simpl in H.
  - destruct (RegExp.match_here ic r b []) eqn:E; [| discriminate H].
    injection H as ->. exists b, []. exact E.
  - destruct (RegExp.match_here ic r b (c :: a)) eqn:E.
    + injection H as ->. exists b, (c :: a). exact E.
    + apply IH in H. exact H.
Qed.

(** A pattern [^\s*(g)tail], where [g] starts with a class and [tail] has
    no group, captures a text that starts with a unit of the class. *)
Lemma anchored_capture (ic : bool) (g tail : RegExp.regex)
      (items : list RegExp.class_item) (m : RegExp.result) :
  RegExp.first_class g = Some items ->
  RegExp.no_group tail = true ->
  forall b a,
    RegExp.match_here ic
      (RegExp.Seq RegExp.Bol
         (RegExp.Seq (RegExp.Star RegExp.space)
            (RegExp.Seq (RegExp.Group 1 g) tail))) b a = Some m ->
    exists c w,
      RegExp.class_match items c = true
      /\ RegExp.capture 1 (RegExp.groups m) = Some (c :: w).
Proof.
  intros Hfc Hng b a H. unfold RegExp.match_here in H.
  apply run_sound in H as (s' & Hsem & Hk).
  unfold RegExp.after_state in Hk. injection Hk as <-.
  cbn [RegExp.groups].
  simpl in Hsem.
  destruct Hsem as (m1 & _ & m2 & _ & m3 & (mg & Hg & ->) & Htail).
  rewrite (sem_no_group ic tail Hng _ _ Htail). cbn [RegExp.caps].
  destruct (sem_first_class ic g items Hfc _ _ Hg) as (c & w & Hc & E).
  exists c, w. split; [exact Hc |].
  cbn [RegExp.capture Nat.eqb]. f_equal.
  rewrite E.
  change (rev w ++ c :: RegExp.seen m2) with (rev w ++ [c] ++ RegExp.seen m2).
  rewrite app_assoc.
  change (rev w ++ [c]) with (rev (c :: w)).
  apply consumed_extends.
Qed.

(** ** Replacing the units of a class *)

Section ReplaceClass.
Variable items : list RegExp.class_item.
Variable by_ : JS.jsstring.

Lemma search_class (b a : JS.jsstring) :
  RegExp.search false (RegExp.Class items) b a
  = match a with
    | [] => None
    | c :: a' =>
      if RegExp.class_match items c then
        Some {| RegExp.index := List.length b;
                RegExp.lastIndex := S (List.length b);
                RegExp.matched := RegExp.consumed b (c :: b);
                RegExp.groups := [];
                RegExp.behind := c :: b;
                RegExp.ahead := a' |}
      else RegExp.search false (RegExp.Class items) (c :: b) a'
    end.
Proof.
  destruct a as [|c a']; [reflexivity |].
  simpl. unfold RegExp.match_here. simpl.
  destruct (RegExp.class_match items c); reflexivity.
Qed.

Lemma search_class_index (a : JS.jsstring) :
  forall b m,
    RegExp.search false (RegExp.Class items) b a = Some m ->
    List.length b <= RegExp.index m.
Proof.
  induction a as [|c a IH]; intros b m H; rewrite search_class in H.
  - discriminate H.
  - destruct (RegExp.class_match items c).
    + injection H as <-. simpl. lia.
    + apply IH in H. simpl in H. lia.
Qed.

Lemma splice_shift (s : JS.jsstring) (n : nat) (c : JS.char)
      (ms : list RegExp.result) :
  nth_error s n = Some c ->
  match ms with m :: _ => S n <= RegExp.index m | [] => True end ->
  RegExp.splice s n ms by_ = c :: RegExp.splice s (S n) ms by_.
Proof.
  intros Hc Hms. destruct ms as [|m ms]; simpl.
  - apply skipn_nth. exact Hc.
  - unfold JS.substring. rewrite (skipn_nth s n c Hc).
    replace (RegExp.index m - n) with (S (RegExp.index m - S n)) by lia.
    reflexivity.
Qed.

(** Replacing every match of a class puts the replacement in the place of
    each unit of the class. *)
Lemma splice_scan_class (a : JS.jsstring) :
  forall b fuel s,
    List.length a < fuel ->
    s = rev b ++ a ->
    RegExp.splice s (List.length b)
                  (RegExp.scan fuel false (RegExp.Class items) b a) by_
    = flat_map (RegExp.replaced items by_) a.
Proof.
  induction a as [|c a IH]; intros b fuel s Hfuel Hs;
    (destruct fuel as [|f]; [inversion Hfuel |]).
  - simpl. rewrite Hs, app_nil_r, <- length_rev. apply skipn_all.
  - assert (Hnth : nth_error s (List.length b) = Some c).
    { rewrite Hs, nth_error_app2, length_rev, Nat.sub_diag by
          (rewrite length_rev; lia).
      reflexivity. }
    assert (Hs' : s = rev (c :: b) ++ a)
      by (rewrite Hs; simpl; rewrite <- app_assoc; reflexivity).
    cbn [RegExp.scan flat_map]. rewrite search_class.
    unfold RegExp.replaced at 1.
    destruct (RegExp.class_match items c) eqn:Hc.
    + cbn [RegExp.lastIndex RegExp.index RegExp.behind RegExp.ahead].
      replace (S (List.length b) =? List.length b) with false
        by (symmetry; apply Nat.eqb_neq; lia).
      cbn [RegExp.splice RegExp.index RegExp.lastIndex].
      unfold JS.substring. rewrite Nat.sub_diag. cbn [firstn app].
      f_equal.
      apply (IH (c :: b) f s); [simpl in Hfuel; lia | exact Hs'].
    + change (match RegExp.search false (RegExp.Class items) (c :: b) a with
              | Some m =>
                m :: (if RegExp.lastIndex m =? RegExp.index m
                      then match RegExp.ahead m with
                           | [] => []
                           | c0 :: a' =>
                             RegExp.scan f false (RegExp.Class items)
                                         (c0 :: RegExp.behind m) a'
                           end
                      else RegExp.scan f false (RegExp.Class items)
                                       (RegExp.behind m) (RegExp.ahead m))
              | None => []
              end)
        with (RegExp.scan (S f) false (RegExp.Class items) (c :: b) a).
      rewrite (splice_shift s (List.length b) c _ Hnth).
      * cbn [app]. f_equal.
        apply (IH (c :: b) (S f) s); [simpl in Hfuel; lia | exact Hs'].
      * cbn [RegExp.scan].
        destruct (RegExp.search false (RegExp.Class items) (c :: b) a)
          as [m|] eqn:E; [| exact I].
        apply search_class_index in E. simpl in E. exact E.
Qed.

Lemma replace_class (s : JS.jsstring) :
  RegExp.replace {| RegExp.source := RegExp.Class items;
                    RegExp.ignoreCase := false;
                    RegExp.global := true |} by_ s
  = flat_map (RegExp.replaced items by_) s.
Proof.
  unfold RegExp.replace, RegExp.exec_all.
  cbn [RegExp.global RegExp.ignoreCase RegExp.source].
  apply (splice_scan_class s [] (S (List.length s)) s);
    [lia | reflexivity].
Qed.

End ReplaceClass.

(** ** The line parser *)

Section LineParser.
Import GAEBParser.

(** [parsePosition] returns a node, whose fields are the extracted
    values. *)
Lemma parsePosition_node (line : JS.jsstring) (index : nat)
      (allLines : list JS.jsstring) (currentIndex : nat) :
  exists p,
    parsePosition line index allLines currentIndex = Normal (Some p)
    /\ GAEBPosition.id p
       = JS.opt_or (extract_positionNumber line)
                   (JS.str "pos_" ++ JS.of_nat (index + 1))
    /\ GAEBPosition.positionNumber p = extract_positionNumber line
    /\ GAEBPosition.unit p
       = (if proper_unit (extract_unit line) then extract_unit line
          else None)
    /\ GAEBPosition.type p
       = classify (JS.trim line) (extract_positionNumber line)
                  (extract_unit line) (extract_currencyAmount line)
    /\ (GAEBPosition.quantity p, GAEBPosition.unitPrice p,
        GAEBPosition.totalPrice p)
       = pricing (GAEBPosition.type p) (extract_cleanNumbers line)
                 (extract_currencyAmount line).
Proof.
  unfold parsePosition.
  destruct (pricing
              (classify (JS.trim line) (extract_positionNumber line)
                        (extract_unit line) (extract_currencyAmount line))
              (extract_cleanNumbers line) (extract_currencyAmount line))
    as [[q u] t] eqn:Hpr.
  simpl. eexists. split; [reflexivity |]. simpl.
  repeat split; try reflexivity. symmetry. exact Hpr.
Qed.

(** One round of the loop returns; it leaves the nodes alone or appends
    the node of the line, made with the counter as its index. *)
Lemma text_step_cases (lines : list JS.jsstring) (i : nat)
      (line : JS.jsstring) (st : text_state) :
  exists st',
    text_step lines i line st = Normal st'
    /\ ((positions st' = positions st
         /\ positionCounter st' = positionCounter st)
        \/ (positions st'
            = positions st
                ++ match parsePosition line (positionCounter st) lines i with
                   | Normal (Some p) => [p]
                   | _ => []
                   end
            /\ positionCounter st' = S (positionCounter st))).
Proof.
  unfold text_step.
  destruct (negb (JS.truthy line)).
  { exists st. split; [reflexivity | left; split; reflexivity]. }
  destruct (parsePosition_node line (positionCounter st) lines i)
    as (p & Hp & _).
  destruct (currentSection st) eqn:Hsec; simpl.
  - destruct (looksLikePosition line); simpl.
    + rewrite Hp. simpl. eexists. split; [reflexivity |].
      right. simpl. split; reflexivity.
    + eexists. split; [reflexivity |]. left. simpl. split; reflexivity.
  - rewrite Hsec.
    destruct (looksLikePosition line); simpl.
    + rewrite Hp. simpl. eexists. split; [reflexivity |].
      right. simpl. split; reflexivity.
    + eexists. split; [reflexivity |]. left. split; reflexivity.
Qed.

(** An invariant of the rounds holds of the state the loop returns, and
    the loop does return. *)
Lemma text_loop_invariant (Inv : text_state -> Prop)
      (lines : list JS.jsstring) :
  (forall i line st st',
      Inv st -> text_step lines i line st = Normal st' -> Inv st') ->
  forall rest i st,
    Inv st ->
    exists st', text_loop lines rest i st = Normal st' /\ Inv st'.
Proof.
  intros Hstep rest.
  induction rest as [|line rest IH]; intros i st Hinv; simpl.
  - exists st. split; [reflexivity | exact Hinv].
  - destruct (text_step_cases lines i line st) as (st1 & Hst1 & _).
    rewrite Hst1. simpl.
    apply IH. eapply Hstep; eassumption.
Qed.

End LineParser.

(** An extracted position number starts with a digit or a capital
    letter. *)
Lemma positionNumber_head (line pn : JS.jsstring) :
  GAEBParser.extract_positionNumber line = Some pn ->
  exists c w,
    pn = c :: w /\ (JS.is_digit c = true \/ JS.is_upper c = true).
Proof.
  unfold GAEBParser.extract_positionNumber,
    GAEBParser.positionNumberPatterns, GAEBParser.first_match,
    RegExp.match_first, RegExp.exec.
  cbn [RegExp.ignoreCase RegExp.source GAEBParser.re].
  intro H.
  assert (Hcap :
            forall (g : RegExp.regex) (items : list RegExp.class_item)
                   (m : RegExp.result),
              RegExp.first_class g = Some items ->
              RegExp.search false
                (RegExp.seq [RegExp.Bol; RegExp.Star RegExp.space;
                             RegExp.Group 1 g; RegExp.Plus RegExp.space])
                [] line = Some m ->
              exists c w,
                RegExp.class_match items c = true
                /\ GAEBParser.group1 m = c :: w).
  { intros g items m Hfc Hs.
    apply search_here in Hs as (b1 & a1 & Hm).
    apply (anchored_capture false g (RegExp.Plus RegExp.space) items m Hfc
                            eq_refl) in Hm as (c & w & Hc & Hcap).
    exists c, w. split; [exact Hc |].
    unfold GAEBParser.group1. rewrite Hcap. reflexivity. }
  match type of H with
  | option_map _ (match ?s1 with Some _ => _ | None =>
                  match ?s2 with Some _ => _ | None =>
                  match ?s3 with Some _ => _ | None => _ end end end) = _ =>
    destruct s1 as [m|] eqn:E1;
      [| destruct s2 as [m|] eqn:E2; [| destruct s3 as [m|] eqn:E3]]
  end; simpl in H; try discriminate H; injection H as <-.
  - apply (Hcap _ [RegExp.AnyDigit]) in E1 as (c & w & Hc & ->);
      [| reflexivity].
    exists c, w. split; [reflexivity |]. left.
    simpl in Hc. rewrite orb_false_r in Hc. exact Hc.
  - apply (Hcap _ [RegExp.range "A" "Z"]) in E2 as (c & w & Hc & ->);
      [| reflexivity].
    exists c, w. split; [reflexivity |]. right.
    simpl in Hc. rewrite orb_false_r in Hc. exact Hc.
  - apply (Hcap _ [RegExp.AnyDigit]) in E3 as (c & w & Hc & ->);
      [| reflexivity].
    exists c, w. split; [reflexivity |]. left.
    simpl in Hc. rewrite orb_false_r in Hc. exact Hc.
Qed.

Lemma parsePosition_id (line : JS.jsstring) (index : nat)
      (allLines : list JS.jsstring) (currentIndex : nat)
      (p : GAEBPosition.t) :
  GAEBParser.parsePosition line index allLines currentIndex
  = Normal (Some p) ->
  id_explained index p.
Proof.
  intro H.
  destruct (parsePosition_node line index allLines currentIndex)
    as (p' & Hp' & Hid & Hnum & _).
  rewrite Hp' in H. injection H as <-.
  unfold id_explained. rewrite Hid, Hnum.
  destruct (GAEBParser.extract_positionNumber line) as [pn|] eqn:E.
  - right. apply positionNumber_head in E as (c & w & -> & Hc).
    exists c, w. repeat split. exact Hc.
  - left. split; reflexivity.
Qed.

Lemma text_step_ids (lines : list JS.jsstring) (i : nat)
      (line : JS.jsstring) (st st' : GAEBParser.text_state) :
  ids_explained st ->
  GAEBParser.text_step lines i line st = Normal st' ->
  ids_explained st'.
Proof.
  intros [Hlen Hids] Hstep.
  destruct (text_step_cases lines i line st)
    as (st1 & Hst1 & [[Hsame Hcount] | [Hpush Hcount]]);
    rewrite Hst1 in Hstep; injection Hstep as <-.
  - split; [rewrite Hsame, Hcount; exact Hlen |].
    rewrite Hsame. exact Hids.
  - destruct (parsePosition_node line (GAEBParser.positionCounter st)
                                 lines i) as (p & Hp & _).
    rewrite Hp in Hpush.
    split.
    + rewrite Hpush, Hcount, length_app, Hlen. simpl. lia.
    + intros j q Hq. rewrite Hpush in Hq.
      destruct (Nat.lt_ge_cases j (List.length (GAEBParser.positions st)))
        as [Hlt | Hge].
      * rewrite nth_error_app1 in Hq by exact Hlt. apply Hids. exact Hq.
      * rewrite nth_error_app2 in Hq by exact Hge.
        destruct (j - List.length (GAEBParser.positions st)) as [|n] eqn:En.
        -- injection Hq as <-.
           assert (Hj : j = GAEBParser.positionCounter st) by lia.
           rewrite Hj. eapply parsePosition_id. exact Hp.
        -- destruct n; discriminate Hq.
Qed.

Lemma proper_unit_currency_free (unit : option JS.jsstring) :
  let stored := if GAEBParser.proper_unit unit then unit else None in
  stored <> Some (JS.str "€")
  /\ stored <> Some (JS.str "EUR")
  /\ stored <> Some (JS.str "DM").
Proof.
  destruct unit as [u|]; simpl; [| repeat split; discriminate].
  destruct (JS.truthy u); simpl; [| repeat split; discriminate].
  unfold GAEBParser.is_currency_word.
  destruct (JS.string_eqb u (JS.str "€")) eqn:H1;
    [simpl; repeat split; discriminate |].
  destruct (JS.string_eqb u (JS.str "EUR")) eqn:H2;
    [simpl; repeat split; discriminate |].
  destruct (JS.string_eqb u (JS.str "DM")) eqn:H3;
    [simpl; repeat split; discriminate |].
  simpl.
  repeat split; intro E; injection E as ->;
    rewrite string_eqb_refl in *; discriminate.
Qed.

Lemma parsePosition_currency_free (line : JS.jsstring) (index : nat)
      (allLines : list JS.jsstring) (currentIndex : nat)
      (p : GAEBPosition.t) :
  GAEBParser.parsePosition line index allLines currentIndex
  = Normal (Some p) ->
  currency_free p.
Proof.
  intro H.
  destruct (parsePosition_node line index allLines currentIndex)
    as (p' & Hp' & _ & _ & Hunit & _).
  rewrite Hp' in H. injection H as <-.
  unfold currency_free. rewrite Hunit.
  apply proper_unit_currency_free.
Qed.

(** Where the currency amount is a number other than zero (or there is
    none), the prices of a node of type position are those of the
    description. *)
Lemma pricing_matches_description (numbers : list Num.number)
      (currency : option Num.number) :
  (forall c, currency = Some c -> Num.truthy c = true) ->
  GAEBParser.pricing PositionType.position numbers currency
  = pricing_as_described numbers currency.
Proof.
  intro Hc. unfold GAEBParser.pricing, pricing_as_described.
  destruct numbers as [|n [|m rest]]; simpl; [reflexivity | |].
  - destruct currency as [c|]; simpl; [| reflexivity].
    rewrite (Hc c eq_refl). reflexivity.
  - destruct currency as [c|]; simpl.
    + rewrite (Hc c eq_refl). reflexivity.
    + reflexivity.
Qed.

(** ** The two parsing paths *)

Section Paths.
Import GAEBParser.
Variable host : Host.

(** The line parser returns a document; its nodes are those of a state
    that satisfies every invariant of the rounds. *)
Lemma parseTextGAEB_invariant (Inv : text_state -> Prop)
      (content fileName : JS.jsstring) :
  (forall i line st st',
      Inv st -> text_step (lines_of content) i line st = Normal st' ->
      Inv st') ->
  (forall h, Inv {| header := h; positions := [];
                    currentSection := in_header; positionCounter := 0 |}) ->
  exists d st,
    parseTextGAEB host content fileName = Normal d
    /\ Inv st
    /\ GAEBData.positions d = positions st
    /\ GAEBData.totalPositions d = List.length (positions st).
Proof.
  intros Hstep Hinit. unfold parseTextGAEB.
  edestruct (text_loop_invariant Inv (lines_of content) Hstep
                                 (lines_of content) 0)
    as (st & Hloop & Hinv); [apply Hinit |].
  rewrite Hloop. simpl.
  eexists. exists st. split; [reflexivity |]. simpl.
  repeat split; try reflexivity. exact Hinv.
Qed.

Lemma parseTextGAEB_returns (content fileName : JS.jsstring) :
  exists d,
    parseTextGAEB host content fileName = Normal d
    /\ GAEBData.totalPositions d = List.length (GAEBData.positions d).
Proof.
  destruct (parseTextGAEB_invariant (fun _ => True) content fileName)
    as (d & st & Hd & _ & Hpos & Hcount); auto.
  exists d. split; [exact Hd |]. rewrite Hpos. exact Hcount.
Qed.

(** The markup path, by the ways it can go. *)
Lemma parseXMLGAEB_cases (content fileName : JS.jsstring) :
  parseXMLGAEB host content fileName = parseTextGAEB host content fileName
  \/ exists xmlDoc nodes,
      parseFromString host content = Normal xmlDoc
      /\ DOM.docQuerySelector (DOM.select ["parsererror"]%string) xmlDoc
         = None
      /\ extract_positions xmlDoc = Normal nodes
      /\ exists d,
          parseXMLGAEB host content fileName = Normal d
          /\ GAEBData.positions d = nodes
          /\ GAEBData.totalPositions d = List.length nodes.
Proof.
  unfold parseXMLGAEB.
  destruct (parseFromString host content) as [xmlDoc|e] eqn:Hdoc;
    cbn [bind try_catch].
  2: { left. reflexivity. }
  destruct (DOM.docQuerySelector (DOM.select ["parsererror"]%string) xmlDoc)
    eqn:Herr.
  { left. destruct (parseTextGAEB host content fileName); reflexivity. }
  destruct (extract_positions xmlDoc) as [nodes|e] eqn:Hex;
    cbn [bind try_catch].
  2: { left. reflexivity. }
  right. exists xmlDoc, nodes.
  split; [reflexivity |]. split; [exact Herr |]. split; [exact Hex |].
  eexists. split; [reflexivity |]. split; reflexivity.
Qed.

End Paths.

Lemma parseXMLGAEB_returns (host : Host) (content fileName : JS.jsstring) :
  exists d,
    GAEBParser.parseXMLGAEB host content fileName = Normal d
    /\ GAEBData.totalPositions d = List.length (GAEBData.positions d).
Proof.
  destruct (parseXMLGAEB_cases host content fileName)
    as [Htext | (xmlDoc & nodes & _ & _ & _ & d & Hd & Hpos & Hcount)].
  - rewrite Htext. apply parseTextGAEB_returns.
  - exists d. split; [exact Hd |]. rewrite Hpos. exact Hcount.
Qed.

(** ** The numbers of categories and items *)

Section Numbering.
Import GAEBParser.

Lemma parseXMLCategory_node (categoryElement : DOM.element) (index : nat)
      (categoryNumber : Num.number) :
  exists c,
    parseXMLCategory categoryElement index categoryNumber = Normal (Some c)
    /\ GAEBPosition.positionNumber c = Some (Num.toString categoryNumber)
    /\ GAEBPosition.type c = PositionType.title.
Proof.
  unfold parseXMLCategory. cbn [try_catch].
  eexists. split; [reflexivity |]. split; reflexivity.
Qed.

Lemma parseXMLItem_node (itemElement : DOM.element) (index : nat)
      (parentCategoryId : option JS.jsstring)
      (categoryNumber : Num.number) :
  exists p,
    parseXMLItem itemElement index parentCategoryId categoryNumber
                 (index + 1) = Normal (Some p)
    /\ GAEBPosition.positionNumber p
       = Some (item_number categoryNumber itemElement index)
    /\ GAEBPosition.type p = PositionType.position.
Proof.
  unfold parseXMLItem, item_number.
  destruct (item_texts itemElement
              (JS.opt_or (DOM.getAttribute (JS.str "RNoPart") itemElement)
                         (JS.of_nat (index + 1)))) as [title description].
  cbn [try_catch]. eexists. split; [reflexivity |].
  cbn [GAEBPosition.positionNumber GAEBPosition.type].
  split; [| reflexivity].
  replace (index + 1 =? 0) with false
    by (rewrite Nat.add_1_r; reflexivity).
  rewrite andb_true_r. reflexivity.
Qed.

(** The loop over the items appends one node per item, numbered by the
    place of the item. *)
Lemma items_forEach (categoryId : option JS.jsstring)
      (categoryNumber : Num.number) (items : list DOM.element) :
  forall (first : nat) (positions : list GAEBPosition.t),
  exists nodes,
    forEach (item_callback categoryId categoryNumber) items first positions
    = Normal (positions ++ nodes)
    /\ List.length nodes = List.length items
    /\ forall j item,
        nth_error items j = Some item ->
        exists p,
          nth_error nodes j = Some p
          /\ GAEBPosition.positionNumber p
             = Some (item_number categoryNumber item (first + j)).
Proof.
  induction items as [|item items IH]; intros first positions.
  - exists []. cbn [forEach]. rewrite app_nil_r.
    split; [reflexivity |]. split; [reflexivity |].
    intros [|j] it H; discriminate H.
  - cbn [forEach]. unfold item_callback at 1.
    destruct (parseXMLItem_node item first categoryId categoryNumber)
      as (p & Hp & Hnum & _).
    rewrite Hp. cbn [bind push].
    destruct (IH (S first) (positions ++ [p])) as (nodes & Hrun & Hlen & Hnth).
    exists (p :: nodes). rewrite Hrun. rewrite <- app_assoc.
    split; [reflexivity |]. split; [simpl; rewrite Hlen; reflexivity |].
    intros [|j] it Hit.
    + injection Hit as <-. exists p. rewrite Nat.add_0_r.
      split; [reflexivity | exact Hnum].
    + destruct (Hnth j it Hit) as (q & Hq & Hqn).
      exists q. split; [exact Hq |].
      rewrite Hqn. rewrite Nat.add_succ_comm. reflexivity.
Qed.

(** The callback of a category appends the node of the category and one
    node per item. *)
Lemma category_callback_block (category : DOM.element) (categoryIndex : nat)
      (positions : list GAEBPosition.t) :
  let n := category_number category categoryIndex in
  let items := DOM.querySelectorAll (DOM.select ["Item"]%string) category in
  exists c nodes,
    category_callback category categoryIndex positions
    = Normal (positions ++ c :: nodes)
    /\ GAEBPosition.positionNumber c = Some (Num.toString n)
    /\ List.length nodes = List.length items
    /\ forall j item,
        nth_error items j = Some item ->
        exists p,
          nth_error nodes j = Some p
          /\ GAEBPosition.positionNumber p = Some (item_number n item j).
Proof.
  intros n items. unfold category_callback. fold n. fold items.
  destruct (parseXMLCategory_node category categoryIndex n)
    as (c & Hc & Hcn & _).
  rewrite Hc. cbn [bind push option_map].
  destruct (items_forEach (Some (GAEBPosition.id c)) n items 0
                          (positions ++ [c]))
    as (nodes & Hrun & Hlen & Hnth).
  exists c, nodes. rewrite Hrun. rewrite <- app_assoc.
  split; [reflexivity |]. split; [exact Hcn |]. split; [exact Hlen |].
  exact Hnth.
Qed.

End Numbering.

(** ** Sheet names *)

Lemma prefixed_names_differ (i j : nat) (x y : JS.jsstring) :
  JS.str "File_" ++ JS.of_nat i ++ JS.str "_" ++ x
  = JS.str "File_" ++ JS.of_nat j ++ JS.str "_" ++ y ->
  i = j.
Proof.
  intro E. apply app_inv_head in E.
  apply of_nat_inj.
  apply (digits_then_underscore _ _ x y);
    [apply units_of_uint_digits | apply units_of_uint_digits | exact E].
Qed.

Lemma sheetName_prefixed (count index : nat) (f : GAEBData.t) :
  1 < count ->
  ExcelExporter.sheetName count index f
  = JS.str "File_" ++ JS.of_nat (index + 1) ++ JS.str "_"
           ++ ExcelExporter.cleanFileName f.
Proof.
  intro Hcount. unfold ExcelExporter.sheetName.
  replace (1 <? count) with true
    by (symmetry; apply Nat.ltb_lt; exact Hcount).
  reflexivity.
Qed.

Lemma names_from_later (count : nat) (files : list GAEBData.t) :
  1 < count ->
  forall index k name,
    In name (ExcelExporter.names_from count (S (index + k)) files) ->
    exists j x,
      index < j
      /\ name = JS.str "File_" ++ JS.of_nat (j + 1) ++ JS.str "_" ++ x.
Proof.
  intro Hcount.
  induction files as [|f files IH]; intros index k name Hin;
    simpl in Hin; [contradiction |].
  destruct Hin as [<- | Hin].
  - exists (S (index + k)), (ExcelExporter.cleanFileName f).
    split; [lia | apply sheetName_prefixed; exact Hcount].
  - apply (IH index (S k)).
    replace (S (index + S k)) with (S (S (index + k))) by lia.
    exact Hin.
Qed.

(** The names of several files are pairwise different. *)
Lemma names_from_distinct (count : nat) (files : list GAEBData.t) :
  1 < count ->
  forall index, NoDup (ExcelExporter.names_from count index files).
Proof.
  intro Hcount.
  induction files as [|f files IH]; intro index; simpl; constructor.
  - intro Hin.
    rewrite <- (Nat.add_0_r index) in Hin at 2.
    apply (names_from_later count files Hcount) in Hin as (j & x & Hj & E).
    rewrite (sheetName_prefixed _ _ _ Hcount) in E.
    apply prefixed_names_differ in E. lia.
  - apply IH.
Qed.

Lemma digit_not_unsafe (c : JS.char) :
  JS.is_digit c = true -> ExcelExporter.is_unsafe c = false.
Proof.
  unfold JS.is_digit. intro H.
  apply andb_true_iff in H as [H1 H2].
  apply N.leb_le in H1. apply N.leb_le in H2.
  change (ExcelExporter.is_unsafe c)
    with (existsb (fun x => N.eqb x c)
                  [34; 92; 47; 58; 42; 63; 60; 62; 124]%N).
  destruct (existsb _ _) eqn:E; [| reflexivity].
  apply existsb_exists in E as (x & Hin & Hx).
  apply N.eqb_eq in Hx. subst x. exfalso.
  simpl in Hin.
  repeat (destruct Hin as [Hin | Hin]; [lia |]).
  exact Hin.
Qed.

Lemma cleanFileName_safe (f : GAEBData.t) :
  Forall (fun c => ExcelExporter.is_unsafe c = false)
         (ExcelExporter.cleanFileName f).
Proof.
  unfold ExcelExporter.cleanFileName, JS.substring.
  apply Forall_firstn. cbn [skipn].
  unfold ExcelExporter.unsafe. rewrite replace_class.
  apply Forall_flat_map. apply Forall_forall. intros c _.
  unfold RegExp.replaced.
  destruct (RegExp.class_match _ c) eqn:Hc.
  - repeat constructor.
  - constructor; [exact Hc | constructor].
Qed.

(** What does hold of the sheet names: no name has one of the replaced
    characters, the name of a single file has at most 31 units, and the
    names of several files differ from one another. *)
Lemma sheet_names_facts (gaebFiles : list GAEBData.t) :
  Forall (Forall (fun c => ExcelExporter.is_unsafe c = false))
         (ExcelExporter.sheetNames gaebFiles)
  /\ (List.length gaebFiles <= 1 ->
      Forall (fun name => List.length name <= 31)
             (ExcelExporter.sheetNames gaebFiles))
  /\ (1 < List.length gaebFiles ->
      NoDup (ExcelExporter.sheetNames gaebFiles)).
Proof.
  unfold ExcelExporter.sheetNames.
  generalize (List.length gaebFiles) as count. intro count.
  split; [| split].
  - assert (H : forall index,
               Forall (Forall (fun c => ExcelExporter.is_unsafe c = false))
                      (ExcelExporter.names_from count index gaebFiles));
      [| apply H].
    induction gaebFiles as [|f files IH]; intro index; simpl;
      constructor; [| apply IH].
    unfold ExcelExporter.sheetName.
    destruct (1 <? count); [| apply cleanFileName_safe].
    repeat (apply Forall_app; split);
      try apply cleanFileName_safe; try (repeat constructor).
    unfold JS.of_nat.
    eapply Forall_impl; [| apply units_of_uint_digits].
    intros c Hc. apply digit_not_unsafe. exact Hc.
  - intro Hcount.
    assert (H : forall index,
               Forall (fun name => List.length name <= 31)
                      (ExcelExporter.names_from count index gaebFiles));
      [| apply H].
    induction gaebFiles as [|f files IH]; intro index; simpl;
      constructor; [| apply IH].
    unfold ExcelExporter.sheetName.
    replace (1 <? count) with false
      by (symmetry; apply Nat.ltb_ge; exact Hcount).
    unfold ExcelExporter.cleanFileName, JS.substring.
    apply firstn_le_length.
  - intro Hcount. apply names_from_distinct. exact Hcount.
Qed.

(** * The claims of the description *)

(** ** The line of masonry work *)

(** C1, as stated, fails: on the line "1.2 Mauerwerk 20m² 15,50€" the
    node the parser returns has neither the quantity 20 nor the total
    price 20 × 15.50, and its unit is not "m²". *)
Lemma mauerwerk_line_not_as_claimed :
  exists d p,
    GAEBParser.parse Samples.bare_host Samples.mauerwerk_line [] = Normal d
    /\ GAEBData.positions d = [p]
    /\ GAEBPosition.quantity p <> Some 20%float
    /\ GAEBPosition.totalPrice p <> Some (20 * 15.5)%float
    /\ GAEBPosition.unit p <> Some (JS.str "m²").
Proof.
  do 2 eexists.
  split; [vm_compute; reflexivity |].
  split; [reflexivity |].
  cbn [GAEBPosition.quantity GAEBPosition.totalPrice GAEBPosition.unit].
  repeat split; intro H; [| | discriminate H];
    apply (f_equal (fun o => match o with
                             | Some x => PrimFloat.ltb x 16
                             | None => false
                             end)) in H;
    vm_compute in H; discriminate H.
Qed.

(** C1, amended: on the line "1.2 Mauerwerk 20m² 15,50€" the decimal
    tokens are 1.2 and 15,50 (the integer 20 is not a decimal token), the
    currency amount is 15.50, and the parser returns one node with type
    position, position number "1.2", unit price 15.50, quantity 1.2 (the
    first decimal token) and total price 15.50 (the second decimal token,
    as it stands). *)
Theorem mauerwerk_line_parsed :
  forall (host : Host) (fileName : JS.jsstring),
    GAEBParser.extract_cleanNumbers Samples.mauerwerk_line
    = [Num.parseFloat (JS.str "1.2"); 15.5%float]
    /\ GAEBParser.extract_currencyAmount Samples.mauerwerk_line
       = Some 15.5%float
    /\ exists d p,
        GAEBParser.parse host Samples.mauerwerk_line fileName = Normal d
        /\ GAEBData.positions d = [p]
        /\ GAEBPosition.type p = PositionType.position
        /\ GAEBPosition.positionNumber p = Some (JS.str "1.2")
        /\ GAEBPosition.unitPrice p = Some 15.5%float
        /\ GAEBPosition.quantity p = Some (Num.parseFloat (JS.str "1.2"))
        /\ GAEBPosition.totalPrice p = Some 15.5%float.
Proof.
  intros host fileName.
  split; [vm_compute; reflexivity |].
  split; [vm_compute; reflexivity |].
  do 2 eexists.
  split; [vm_compute; reflexivity |].
  simpl.
  split; [reflexivity |].
  repeat split; vm_compute; reflexivity.
Qed.

(** ** Quantity and prices *)

(** C2 fails on the line "Beton 0,00 €": the line has one plain number, 0,
    and the currency amount 0, and its node has type position; case (a)
    asks for a unit price and a total price of 0, but the node has the
    quantity only, since the amount 0 counts as no amount. *)
Theorem zero_amount_taken_as_no_amount :
  forall (host : Host) (fileName : JS.jsstring),
    GAEBParser.extract_cleanNumbers Samples.free_line = [0%float]
    /\ GAEBParser.extract_currencyAmount Samples.free_line = Some 0%float
    /\ pricing_as_described [0%float] (Some 0%float)
       = (Some 0%float, Some 0%float, Some 0%float)
    /\ exists d p,
        GAEBParser.parse host Samples.free_line fileName = Normal d
        /\ GAEBData.positions d = [p]
        /\ GAEBPosition.type p = PositionType.position
        /\ GAEBPosition.quantity p = Some 0%float
        /\ GAEBPosition.unitPrice p = None
        /\ GAEBPosition.totalPrice p = None.
Proof.
  intros host fileName.
  split; [vm_compute; reflexivity |].
  split; [vm_compute; reflexivity |].
  split; [vm_compute; reflexivity |].
  do 2 eexists.
  split; [vm_compute; reflexivity |].
  simpl. repeat split; reflexivity.
Qed.

(** ** Units and currency words *)

(** C3, as stated, fails: the markup path stores the text of the [QU]
    element as it is, here "EUR" in a node of type position. *)
Lemma markup_path_stores_currency_unit :
  exists d p,
    GAEBParser.parse (Samples.browser Samples.euro_unit_document)
                     Samples.euro_unit_markup (JS.str "lv.x83") = Normal d
    /\ In p (GAEBData.positions d)
    /\ GAEBPosition.type p = PositionType.position
    /\ GAEBPosition.unit p = Some (JS.str "EUR").
Proof.
  eexists. eexists.
  split; [vm_compute; reflexivity |].
  split; [simpl; right; left; reflexivity |].
  split; reflexivity.
Qed.

(** C3, amended: in every document the line parser returns, the unit of a
    node of type position is none of "€", "EUR" and "DM". *)
Theorem line_parser_unit_not_currency :
  forall (host : Host) (content fileName : JS.jsstring)
         (d : GAEBData.t) (p : GAEBPosition.t),
    GAEBParser.parseTextGAEB host content fileName = Normal d ->
    In p (GAEBData.positions d) ->
    GAEBPosition.type p = PositionType.position ->
    GAEBPosition.unit p <> Some (JS.str "€")
    /\ GAEBPosition.unit p <> Some (JS.str "EUR")
    /\ GAEBPosition.unit p <> Some (JS.str "DM").
Proof.
  intros host content fileName d p Hd Hin _.
  destruct (parseTextGAEB_invariant host
              (fun st => Forall currency_free (GAEBParser.positions st))
              content fileName)
    as (d' & st & Hd' & Hinv & Hpos & _).
  - intros i line st st' Hinv Hstep.
    destruct (text_step_cases (GAEBParser.lines_of content) i line st)
      as (st1 & Hst1 & [[Hsame _] | [Hpush _]]);
      rewrite Hst1 in Hstep; injection Hstep as <-.
    + rewrite Hsame. exact Hinv.
    + rewrite Hpush. apply Forall_app. split; [exact Hinv |].
      destruct (GAEBParser.parsePosition line
                  (GAEBParser.positionCounter st)
                  (GAEBParser.lines_of content) i)
        as [[q|]|e] eqn:Hq; constructor.
      * eapply parsePosition_currency_free. exact Hq.
      * constructor.
  - intro h. constructor.
  - rewrite Hd' in Hd. injection Hd as <-.
    rewrite Hpos in Hin.
    rewrite Forall_forall in Hinv. exact (Hinv p Hin).
Qed.

Lemma line_parser_unit_not_currency_witness :
  exists d p,
    GAEBParser.parseTextGAEB Samples.bare_host Samples.euro_line
                             (JS.str "lv.d83") = Normal d
    /\ In p (GAEBData.positions d)
    /\ GAEBPosition.type p = PositionType.position
    /\ GAEBPosition.unit p <> Some (JS.str "€")
    /\ GAEBPosition.unit p <> Some (JS.str "EUR")
    /\ GAEBPosition.unit p <> Some (JS.str "DM").
Proof.
  destruct (GAEBParser.parseTextGAEB Samples.bare_host Samples.euro_line
                                     (JS.str "lv.d83")) as [d|e] eqn:Hd;
    [| vm_compute in Hd; discriminate Hd].
  destruct (GAEBData.positions d) as [|p rest] eqn:Hp;
    [exfalso; vm_compute in Hd; injection Hd as <-; discriminate Hp |].
  exists d, p.
  assert (Hin : In p (GAEBData.positions d))
    by (rewrite Hp; left; reflexivity).
  assert (Htype : GAEBPosition.type p = PositionType.position).
  { vm_compute in Hd. injection Hd as <-. simpl in Hp.
    injection Hp as <- _. reflexivity. }
  exact (conj eq_refl
           (conj Hin
              (conj Htype
                 (line_parser_unit_not_currency _ _ _ d p Hd Hin Htype)))).
Defined.

(** ** Category and item numbers *)

(** C4, as stated, fails: for a first category whose [RNoPart] is "A",
    which does not parse, the described ordinal is the place 1 and the
    item would be "1.1"; the parser has no category number to compose
    with and gives the item its own number "1". *)
Lemma unparsable_category_number_not_replaced :
  Num.toString (category_ordinal_as_described Samples.category_letter 0)
  = JS.str "1"
  /\ exists c p,
      GAEBParser.category_callback Samples.category_letter 0 []
      = Normal [c; p]
      /\ GAEBPosition.positionNumber p = Some (JS.str "1")
      /\ GAEBPosition.positionNumber p
         <> Some (Num.toString
                    (category_ordinal_as_described Samples.category_letter 0)
                    ++ JS.str "." ++ JS.of_nat 1).
Proof.
  split; [vm_compute; reflexivity |].
  do 2 eexists.
  split; [vm_compute; reflexivity |].
  split; [reflexivity |].
  vm_compute. discriminate.
Qed.

(** C4, amended: a category whose [RNoPart] is "3" and that has two items
    yields the items "3.1" and "3.2", whatever the items carry.  In
    general the category number is the integer parse of [RNoPart] when
    the attribute is there and not empty, else that of the place of the
    category counted from 1; the callback of the category appends the node
    of the category and one node per item, numbered with the category
    number, a dot and the place of the item when the category number is a
    number other than zero, and with the [RNoPart] of the item (or its
    place) when there is no such category number. *)
Theorem category_and_item_numbers :
  forall (category : DOM.element) (categoryIndex : nat)
         (positions : list GAEBPosition.t),
    let n := GAEBParser.category_number category categoryIndex in
    let items := DOM.querySelectorAll (DOM.select ["Item"]%string) category in
    (forall v, DOM.getAttribute (JS.str "RNoPart") category = Some v ->
               v <> [] -> n = Num.parseInt v)
    /\ (DOM.getAttribute (JS.str "RNoPart") category = None
        \/ DOM.getAttribute (JS.str "RNoPart") category = Some [] ->
        n = Num.parseInt (JS.of_nat (categoryIndex + 1)))
    /\ (exists c nodes,
          GAEBParser.category_callback category categoryIndex positions
          = Normal (positions ++ c :: nodes)
          /\ List.length nodes = List.length items
          /\ forall j item,
              nth_error items j = Some item ->
              exists p,
                nth_error nodes j = Some p
                /\ GAEBPosition.positionNumber p
                   = Some (item_number n item j))
    /\ (forall item1 item2,
          DOM.getAttribute (JS.str "RNoPart") category = Some (JS.str "3") ->
          items = [item1; item2] ->
          exists c p1 p2,
            GAEBParser.category_callback category categoryIndex positions
            = Normal (positions ++ [c; p1; p2])
            /\ GAEBPosition.positionNumber p1 = Some (JS.str "3.1")
            /\ GAEBPosition.positionNumber p2 = Some (JS.str "3.2")).
Proof.
  intros category categoryIndex positions n items.
  destruct (category_callback_block category categoryIndex positions)
    as (c & nodes & Hrun & _ & Hlen & Hnth).
  fold n in Hnth. fold items in Hlen, Hnth.
  split.
  { intros v Hv Hne. unfold n, GAEBParser.category_number. rewrite Hv.
    destruct v; [contradiction Hne; reflexivity | reflexivity]. }
  split.
  { intros [H | H]; unfold n, GAEBParser.category_number; rewrite H;
      reflexivity. }
  split.
  { exists c, nodes. split; [exact Hrun |]. split; [exact Hlen | exact Hnth]. }
  intros item1 item2 Hattr Hitems.
  rewrite Hitems in Hlen, Hnth.
  destruct nodes as [|p1 [|p2 [|p3 nodes]]]; try discriminate Hlen.
  exists c, p1, p2. split; [exact Hrun |].
  assert (Hn : n = 3%float).
  { unfold n, GAEBParser.category_number. rewrite Hattr.
    vm_compute. reflexivity. }
  destruct (Hnth 0 item1 eq_refl) as (q1 & Hq1 & Hn1).
  destruct (Hnth 1 item2 eq_refl) as (q2 & Hq2 & Hn2).
  injection Hq1 as <-. injection Hq2 as <-.
  rewrite Hn1, Hn2, Hn. split; vm_compute; reflexivity.
Qed.

Lemma category_and_item_numbers_witness :
  exists c p1 p2,
    GAEBParser.category_callback Samples.category_three 0 []
    = Normal ([] ++ [c; p1; p2])
    /\ GAEBPosition.positionNumber p1 = Some (JS.str "3.1")
    /\ GAEBPosition.positionNumber p2 = Some (JS.str "3.2").
Proof.
  refine (proj2 (proj2 (proj2
            (category_and_item_numbers Samples.category_three 0 [])))
            _ _ eq_refl eq_refl).
Defined.

(** ** The quantity of an item *)

(** C5, as stated, fails: with the text "abc" in [Qty], which does not
    parse, the quantity is [NaN], not undefined; with an empty [Qty] it is
    zero. *)
Lemma unparsable_quantity_is_defined :
  Num.parseFloat (JS.str "abc") = nan
  /\ (exists p,
        GAEBParser.parseXMLItem (Samples.item_with_quantity "abc") 0 None
                                1%float 1 = Normal (Some p)
        /\ GAEBPosition.quantity p = Some nan
        /\ GAEBPosition.quantity p <> None)
  /\ Num.parseFloat [] = nan
  /\ (exists p,
        GAEBParser.parseXMLItem Samples.item_with_empty_quantity 0 None
                                1%float 1 = Normal (Some p)
        /\ GAEBPosition.quantity p = Some 0%float).
Proof.
  split; [vm_compute; reflexivity |].
  split.
  { eexists. split; [vm_compute; reflexivity |].
    split; [reflexivity | discriminate]. }
  split; [vm_compute; reflexivity |].
  eexists. split; [vm_compute; reflexivity | reflexivity].
Qed.

(** C5, amended: for an item with a [Qty] element whose text does not
    parse as a number, the extraction returns a node and does not throw;
    the quantity of the node is zero when the text is empty and [NaN]
    otherwise, never undefined. *)
Theorem unparsable_quantity :
  forall (itemElement qtyElement : DOM.element) (index : nat)
         (parentCategoryId : option JS.jsstring)
         (categoryNumber : Num.number) (itemNumber : nat),
    DOM.querySelector (DOM.select ["Qty"]%string) itemElement
    = Some qtyElement ->
    Num.parseFloat (DOM.textContent qtyElement) = nan ->
    exists p,
      GAEBParser.parseXMLItem itemElement index parentCategoryId
                              categoryNumber itemNumber = Normal (Some p)
      /\ GAEBPosition.quantity p
         = Some (if JS.truthy (DOM.textContent qtyElement) then nan
                 else 0%float).
Proof.
  intros itemElement qtyElement index parentCategoryId categoryNumber
         itemNumber Hqty Hnan.
  unfold GAEBParser.parseXMLItem. rewrite Hqty.
  destruct (GAEBParser.item_texts itemElement
              (JS.opt_or (DOM.getAttribute (JS.str "RNoPart") itemElement)
                         (JS.of_nat (index + 1)))) as [title description].
  cbn [try_catch]. eexists. split; [reflexivity |].
  cbn [GAEBPosition.quantity]. f_equal.
  unfold JS.or_else.
  destruct (JS.truthy (DOM.textContent qtyElement)).
  - exact Hnan.
  - vm_compute. reflexivity.
Qed.

Lemma unparsable_quantity_witness :
  exists p,
    GAEBParser.parseXMLItem (Samples.item_with_quantity "abc") 0 None
                            1%float 1 = Normal (Some p)
    /\ GAEBPosition.quantity p = Some nan.
Proof.
  exact (unparsable_quantity
           (Samples.item_with_quantity "abc")
           {| DOM.ancestors := [JS.str "Item"];
              DOM.tagName := JS.str "Qty";
              DOM.attributes := [];
              DOM.childNodes := [Samples.text "abc"] |}
           0 None 1%float 1 eq_refl eq_refl).
Defined.

(** ** Falling back to the line parser *)

(** C6: when the markup path fails, [parse] returns what the line parser
    returns for the same text and file name. *)
Theorem fallback_equivalence :
  forall (host : Host) (content fileName : JS.jsstring),
    structured_path_fails host content ->
    GAEBParser.parse host content fileName
    = GAEBParser.parseTextGAEB host content fileName.
Proof.
  intros host content fileName Hfail. unfold GAEBParser.parse.
  destruct (JS.startsWith (JS.str "<?xml") (JS.trim content)
            || GAEBParser.contains content "<GAEB"); [| reflexivity].
  destruct (parseXMLGAEB_cases host content fileName)
    as [Htext | (xmlDoc & nodes & Hdoc & Herr & Hex & _)];
    [exact Htext |].
  exfalso.
  destruct Hfail as [(e & He) | (doc & Hdoc' & [(err & He) | (e & He)])].
  - congruence.
  - rewrite Hdoc in Hdoc'. injection Hdoc' as <-. congruence.
  - rewrite Hdoc in Hdoc'. injection Hdoc' as <-. congruence.
Qed.

Lemma fallback_equivalence_witness :
  structured_path_fails (Samples.browser Samples.error_document)
                        Samples.unclosed_markup
  /\ GAEBParser.parse (Samples.browser Samples.error_document)
                      Samples.unclosed_markup (JS.str "lv.x83")
     = GAEBParser.parseTextGAEB (Samples.browser Samples.error_document)
                                Samples.unclosed_markup (JS.str "lv.x83").
Proof.
  assert (H : structured_path_fails (Samples.browser Samples.error_document)
                                    Samples.unclosed_markup).
  { right. exists Samples.error_document. split; [reflexivity |].
    left. eexists. vm_compute. reflexivity. }
  split; [exact H |].
  exact (fallback_equivalence _ _ (JS.str "lv.x83") H).
Defined.

(** ** The count of the nodes *)

(** C7: the line parser, the markup parser and [parse] each return a
    document, and in it [totalPositions] is the length of [positions]. *)
Theorem totalPositions_is_length :
  forall (host : Host) (content fileName : JS.jsstring),
    (exists d,
        GAEBParser.parseTextGAEB host content fileName = Normal d
        /\ GAEBData.totalPositions d = List.length (GAEBData.positions d))
    /\ (exists d,
          GAEBParser.parseXMLGAEB host content fileName = Normal d
          /\ GAEBData.totalPositions d
             = List.length (GAEBData.positions d))
    /\ (exists d,
          GAEBParser.parse host content fileName = Normal d
          /\ GAEBData.totalPositions d
             = List.length (GAEBData.positions d)).
Proof.
  intros host content fileName.
  split; [apply parseTextGAEB_returns |].
  split; [apply parseXMLGAEB_returns |].
  unfold GAEBParser.parse.
  destruct (JS.startsWith (JS.str "<?xml") (JS.trim content)
            || GAEBParser.contains content "<GAEB").
  - apply parseXMLGAEB_returns.
  - apply parseTextGAEB_returns.
Qed.

(** ** Ids *)

(** C8, as stated, fails: two lines with the position number "1" give two
    nodes with the id "1"; and on the markup path the items without [ID]
    of two categories are both "item_1". *)
Lemma ids_repeat :
  (exists d,
      GAEBParser.parse Samples.bare_host Samples.repeated_lines
                       (JS.str "lv.d83") = Normal d
      /\ map GAEBPosition.id (GAEBData.positions d) = [JS.str "1"; JS.str "1"]
      /\ ~ NoDup (map GAEBPosition.id (GAEBData.positions d)))
  /\ (exists d,
        GAEBParser.parse (Samples.browser Samples.two_categories_document)
                         Samples.two_categories_markup (JS.str "lv.x83")
        = Normal d
        /\ map GAEBPosition.id (GAEBData.positions d)
           = [JS.str "c1"; JS.str "item_1"; JS.str "c2"; JS.str "item_1"]
        /\ ~ NoDup (map GAEBPosition.id (GAEBData.positions d))).
Proof.
  split.
  - eexists. split; [vm_compute; reflexivity |].
    split; [reflexivity |].
    intro H. simpl in H. apply NoDup_cons_iff in H as [H _].
    apply H. left. reflexivity.
  - eexists. split; [vm_compute; reflexivity |].
    split; [reflexivity |].
    intro H. simpl in H.
    apply NoDup_cons_iff in H as [_ H]. apply NoDup_cons_iff in H as [H _].
    apply H. right. left. reflexivity.
Qed.

(** C8, amended: in a document the line parser returns, two nodes at
    different places have the same id only if that id is the position
    number extracted from the line of each; an id made up as "pos_<n>"
    belongs to one node only. *)
Theorem line_parser_ids :
  forall (host : Host) (content fileName : JS.jsstring) (d : GAEBData.t)
         (i j : nat) (p q : GAEBPosition.t),
    GAEBParser.parseTextGAEB host content fileName = Normal d ->
    nth_error (GAEBData.positions d) i = Some p ->
    nth_error (GAEBData.positions d) j = Some q ->
    i <> j ->
    GAEBPosition.id p = GAEBPosition.id q ->
    GAEBPosition.positionNumber p = Some (GAEBPosition.id p)
    /\ GAEBPosition.positionNumber q = Some (GAEBPosition.id q).
Proof.
  intros host content fileName d i j p q Hd Hp Hq Hij Hsame.
  destruct (parseTextGAEB_invariant host ids_explained content fileName)
    as (d' & st & Hd' & [_ Hids] & Hpos & _).
  { intros k line st st'. apply text_step_ids. }
  { intro h. split; [reflexivity |]. intros [|k] x Hx; discriminate Hx. }
  rewrite Hd' in Hd. injection Hd as <-. rewrite Hpos in Hp, Hq.
  apply Hids in Hp. apply Hids in Hq.
  assert (Hhead : forall n c w,
             JS.str "pos_" ++ JS.of_nat n = c :: w ->
             JS.is_digit c = true \/ JS.is_upper c = true -> False).
  { intros n c w E Hc. change (JS.str "pos_") with [112; 111; 115; 95]%N in E.
    injection E as <- _. destruct Hc as [Hc | Hc]; discriminate Hc. }
  destruct Hp as [[Hpn Hpid] | (c & w & Hpn & Hpid & Hc)];
    destruct Hq as [[Hqn Hqid] | (c' & w' & Hqn & Hqid & Hc')].
  - exfalso. rewrite Hpid, Hqid in Hsame.
    apply app_inv_head in Hsame. apply of_nat_inj in Hsame. lia.
  - exfalso. rewrite Hpid, Hqid in Hsame. exact (Hhead _ _ _ Hsame Hc').
  - exfalso. rewrite Hpid, Hqid in Hsame. symmetry in Hsame.
    exact (Hhead _ _ _ Hsame Hc).
  - rewrite Hpn, Hpid, Hqn, Hqid. split; reflexivity.
Qed.

Lemma line_parser_ids_witness :
  exists d p q,
    GAEBParser.parseTextGAEB Samples.bare_host Samples.repeated_lines
                             (JS.str "lv.d83") = Normal d
    /\ nth_error (GAEBData.positions d) 0 = Some p
    /\ nth_error (GAEBData.positions d) 1 = Some q
    /\ 0 <> 1
    /\ GAEBPosition.id p = GAEBPosition.id q
    /\ GAEBPosition.positionNumber p = Some (GAEBPosition.id p)
    /\ GAEBPosition.positionNumber q = Some (GAEBPosition.id q).
Proof.
  destruct (GAEBParser.parseTextGAEB Samples.bare_host Samples.repeated_lines
                                     (JS.str "lv.d83")) as [d|e] eqn:Hd;
    [| vm_compute in Hd; discriminate Hd].
  destruct (nth_error (GAEBData.positions d) 0) as [p|] eqn:Hp;
    [| exfalso; vm_compute in Hd; injection Hd as <-; discriminate Hp].
  destruct (nth_error (GAEBData.positions d) 1) as [q|] eqn:Hq;
    [| exfalso; vm_compute in Hd; injection Hd as <-; discriminate Hq].
  exists d, p, q.
  assert (Hne : 0 <> 1) by discriminate.
  assert (Hsame : GAEBPosition.id p = GAEBPosition.id q).
  { vm_compute in Hd. injection Hd as <-. simpl in Hp, Hq.
    injection Hp as <-. injection Hq as <-. reflexivity. }
  exact (conj eq_refl
           (conj Hp
              (conj Hq
                 (conj Hne
                    (conj Hsame
                       (line_parser_ids _ _ _ d 0 1 p q Hd Hp Hq Hne
                                        Hsame)))))).
Defined.

(** ** No exception *)

(** C9: for every host, text and file name, [parse] returns a document and
    does not throw. *)
Theorem parse_never_throws :
  forall (host : Host) (content fileName : JS.jsstring),
  exists d, GAEBParser.parse host content fileName = Normal d.
Proof.
  intros host content fileName. unfold GAEBParser.parse.
  destruct (JS.startsWith (JS.str "<?xml") (JS.trim content)
            || GAEBParser.contains content "<GAEB").
  - unfold GAEBParser.parseXMLGAEB.
    apply try_catch_normal. intros _.
    destruct (parseTextGAEB_returns host content fileName) as (d & Hd & _).
    exists d. exact Hd.
  - destruct (parseTextGAEB_returns host content fileName) as (d & Hd & _).
    exists d. exact Hd.
Qed.

(** ** The length of sheet names *)

(** C10 fails for the two files "Leistungsverzeichnis_Rohbau.x83" and
    "Leistungsverzeichnis_Ausbau.x83": the names are cut to 31 units
    before the prefix is put in front, so both sheet names have 38. *)
Theorem prefixed_sheet_names_exceed_limit :
  ExcelExporter.sheetNames Samples.two_files
  = [JS.str "File_1_Leistungsverzeichnis_Rohbau.x83";
     JS.str "File_2_Leistungsverzeichnis_Ausbau.x83"]
  /\ map (@List.length JS.char) (ExcelExporter.sheetNames Samples.two_files)
     = [38; 38]
  /\ ~ Forall (fun name => List.length name <= 31)
              (ExcelExporter.sheetNames Samples.two_files).
Proof.
  split; [vm_compute; reflexivity |].
  split; [vm_compute; reflexivity |].
  intro H. apply Forall_inv in H. vm_compute in H.
  repeat apply le_S_n in H. inversion H.
Qed.

(** * More properties of the code *)

(** ** Every node of a document *)

Lemma forEach_invariant {A St : Type} (Inv : St -> Prop)
      (f : A -> nat -> St -> completion St) (l : list A) :
  (forall x i st st', Inv st -> f x i st = Normal st' -> Inv st') ->
  forall i st st',
    Inv st -> GAEBParser.forEach f l i st = Normal st' -> Inv st'.
Proof.
  intro Hf. induction l as [|x l IH]; intros i st st' Hinv H; simpl in H.
  - injection H as <-. exact Hinv.
  - destruct (f x i st) as [st1|e] eqn:E; [| discriminate H].
    simpl in H. eapply IH; [| exact H]. eapply Hf; eassumption.
Qed.

Section EveryNode.
Variable P : GAEBPosition.t -> Prop.

Hypothesis line_node :
  forall line index allLines currentIndex p,
    GAEBParser.parsePosition line index allLines currentIndex
    = Normal (Some p) -> P p.

(** What holds of every node of [parsePosition] holds of every node of the
    line parser. *)
Lemma line_parser_nodes (host : Host) (content fileName : JS.jsstring)
      (d : GAEBData.t) :
  GAEBParser.parseTextGAEB host content fileName = Normal d ->
  Forall P (GAEBData.positions d).
Proof.
  intro Hd.
  destruct (parseTextGAEB_invariant host
              (fun st => Forall P (GAEBParser.positions st))
              content fileName)
    as (d' & st & Hd' & Hinv & Hpos & _).
  - intros i line st st' Hinv Hstep.
    destruct (text_step_cases (GAEBParser.lines_of content) i line st)
      as (st1 & Hst1 & [[Hsame _] | [Hpush _]]);
      rewrite Hst1 in Hstep; injection Hstep as <-.
    + rewrite Hsame. exact Hinv.
    + rewrite Hpush. apply Forall_app. split; [exact Hinv |].
      destruct (GAEBParser.parsePosition line
                  (GAEBParser.positionCounter st)
                  (GAEBParser.lines_of content) i)
        as [[q|]|e] eqn:Hq; constructor.
      * eapply line_node. exact Hq.
      * constructor.
  - intro h. constructor.
  - rewrite Hd' in Hd. injection Hd as <-. rewrite Hpos. exact Hinv.
Qed.

Hypothesis category_node :
  forall categoryElement index categoryNumber c,
    GAEBParser.parseXMLCategory categoryElement index categoryNumber
    = Normal (Some c) -> P c.

Hypothesis item_node :
  forall itemElement index parentCategoryId categoryNumber itemNumber p,
    GAEBParser.parseXMLItem itemElement index parentCategoryId
                            categoryNumber itemNumber
    = Normal (Some p) -> P p.

Lemma push_keeps (o : option GAEBPosition.t)
      (positions : list GAEBPosition.t) :
  (forall p, o = Some p -> P p) ->
  Forall P positions -> Forall P (GAEBParser.push o positions).
Proof.
  intros Ho Hps. destruct o as [p|]; simpl; [| exact Hps].
  apply Forall_app. split; [exact Hps |].
  constructor; [apply Ho; reflexivity | constructor].
Qed.

(** The same for the nodes of the markup path. *)
Lemma markup_nodes (xmlDoc : DOM.document)
      (positions : list GAEBPosition.t) :
  GAEBParser.extract_positions xmlDoc = Normal positions ->
  Forall P positions.
Proof.
  unfold GAEBParser.extract_positions.
  destruct (DOM.docQuerySelector _ xmlDoc) as [boqElement|];
    [| intro H; injection H as <-; constructor].
  apply (forEach_invariant (Forall P)); [| constructor].
  intros category categoryIndex ps ps' Hps.
  unfold GAEBParser.category_callback.
  destruct (GAEBParser.parseXMLCategory category categoryIndex _)
    as [c|e] eqn:Hc; [| discriminate].
  cbn [bind].
  apply (forEach_invariant (Forall P)).
  - intros item itemIndex qs qs' Hqs.
    unfold GAEBParser.item_callback.
    destruct (GAEBParser.parseXMLItem item itemIndex _ _ _)
      as [p|e] eqn:Hp; [| discriminate].
    cbn [bind]. intro H. injection H as <-.
    apply push_keeps; [| exact Hqs].
    intros q ->. eapply item_node. exact Hp.
  - apply push_keeps; [| exact Hps].
    intros q ->. eapply category_node. exact Hc.
Qed.

(** And so for every node of a document of [parse]. *)
Lemma parse_nodes (host : Host) (content fileName : JS.jsstring)
      (d : GAEBData.t) :
  GAEBParser.parse host content fileName = Normal d ->
  Forall P (GAEBData.positions d).
Proof.
  unfold GAEBParser.parse.
  destruct (JS.startsWith _ _ || GAEBParser.contains content "<GAEB");
    [| apply line_parser_nodes].
  destruct (parseXMLGAEB_cases host content fileName)
    as [Htext | (xmlDoc & nodes & _ & _ & Hex & d' & Hd' & Hpos & _)].
  - rewrite Htext. apply line_parser_nodes.
  - rewrite Hd'. intro H. injection H as <-. rewrite Hpos.
    apply (markup_nodes xmlDoc). exact Hex.
Qed.

End EveryNode.

(** ** What a document keeps of its input *)








(** ** Names and prices of the nodes *)

Lemma or_else_nonempty (a b : JS.jsstring) : b <> [] -> JS.or_else a b <> [].
Proof.
  intro Hb. unfold JS.or_else. destruct a; [exact Hb | discriminate].
Qed.

Lemma opt_or_nonempty (a : option JS.jsstring) (b : JS.jsstring) :
  b <> [] -> JS.opt_or a b <> [].
Proof.
  intro Hb. destruct a as [s|]; [apply or_else_nonempty |]; exact Hb.
Qed.

Lemma literal_prefix_nonempty (s : string) (t : JS.jsstring) :
  JS.str s <> [] -> JS.str s ++ t <> [].
Proof.
  destruct (JS.str s); [intro H; contradiction H; reflexivity | discriminate].
Qed.

Ltac literal_nonempty :=
  first [ discriminate
        | apply literal_prefix_nonempty; vm_compute; discriminate ].

Lemma optional_description (description : JS.jsstring) :
  (if JS.truthy description then Some description else None) <> Some [].
Proof. destruct description; discriminate. Qed.

Lemma derive_title_nonempty (trimmedLine : JS.jsstring) (index : nat)
      (positionNumber unit : option JS.jsstring)
      (currencyAmount : option Num.number) :
  GAEBParser.derive_title trimmedLine index positionNumber unit
                          currencyAmount <> [].
Proof.
  unfold GAEBParser.derive_title.
  match goal with
  | |- (if negb (JS.truthy ?t) || _ then _ else _) <> _ =>
    destruct t as [|c title]
  end.
  - cbn [JS.truthy negb orb]. apply or_else_nonempty.
    apply literal_prefix_nonempty. vm_compute. discriminate.
  - cbn [JS.truthy negb orb].
    destruct (_ <? 3).
    + apply or_else_nonempty. apply literal_prefix_nonempty.
      vm_compute. discriminate.
    + discriminate.
Qed.

Lemma parsePosition_named (line : JS.jsstring) (index : nat)
      (allLines : list JS.jsstring) (currentIndex : nat)
      (p : GAEBPosition.t) :
  GAEBParser.parsePosition line index allLines currentIndex
  = Normal (Some p) ->
  named p.
Proof.
  unfold GAEBParser.parsePosition.
  destruct (GAEBParser.pricing _ _ _) as [[quantity unitPrice] totalPrice].
  cbn [try_catch]. intro H. injection H as <-.
  unfold named.
  cbn [GAEBPosition.id GAEBPosition.title GAEBPosition.description].
  repeat split.
  - apply opt_or_nonempty. literal_nonempty.
  - apply derive_title_nonempty.
  - apply optional_description.
Qed.

Lemma parseXMLCategory_named (categoryElement : DOM.element) (index : nat)
      (categoryNumber : Num.number) (c : GAEBPosition.t) :
  GAEBParser.parseXMLCategory categoryElement index categoryNumber
  = Normal (Some c) ->
  named c.
Proof.
  unfold GAEBParser.parseXMLCategory. cbn [try_catch].
  intro H. injection H as <-. unfold named.
  cbn [GAEBPosition.id GAEBPosition.title GAEBPosition.description].
  repeat split.
  - apply opt_or_nonempty. literal_nonempty.
  - repeat match goal with
           | |- context [match ?o with Some _ => _ | None => _ end] =>
             destruct o
           end;
      try (unfold GAEBParser.text_or; apply or_else_nonempty);
      vm_compute; discriminate.
  - discriminate.
Qed.

Lemma item_texts_named (itemElement : DOM.element) (rNoPart : JS.jsstring) :
  fst (GAEBParser.item_texts itemElement rNoPart) <> [].
Proof.
  assert (Hplace : JS.str "Position " ++ rNoPart <> []).
  { apply literal_prefix_nonempty. vm_compute. discriminate. }
  unfold GAEBParser.item_texts.
  destruct (DOM.querySelector _ itemElement) as [descriptionElement|];
    [| exact Hplace].
  set (title := match DOM.querySelector _ descriptionElement with
                | Some outlineTextElement =>
                  GAEBParser.text_or outlineTextElement
                                     (JS.str "Position " ++ rNoPart)
                | None => JS.str "Position " ++ rNoPart
                end).
  assert (Htitle : title <> []).
  { subst title. destruct (DOM.querySelector _ descriptionElement);
      [apply or_else_nonempty |]; exact Hplace. }
  clearbody title.
  destruct (DOM.querySelector _ descriptionElement); [| exact Htitle].
  destruct (filter _ _) as [|part0 parts]; [exact Htitle |].
  destruct (JS.string_eqb title _ && JS.truthy part0) eqn:Hb;
    [| exact Htitle].
  apply andb_prop in Hb. destruct Hb as [_ Hb].
  destruct part0; [discriminate Hb | discriminate].
Qed.

Lemma parseXMLItem_named (itemElement : DOM.element) (index : nat)
      (parentCategoryId : option JS.jsstring)
      (categoryNumber : Num.number) (itemNumber : nat)
      (p : GAEBPosition.t) :
  GAEBParser.parseXMLItem itemElement index parentCategoryId categoryNumber
                          itemNumber = Normal (Some p) ->
  named p.
Proof.
  unfold GAEBParser.parseXMLItem.
  pose proof (item_texts_named itemElement
                (JS.opt_or (DOM.getAttribute (JS.str "RNoPart") itemElement)
                           (JS.of_nat (index + 1)))) as Htitle.
  destruct (GAEBParser.item_texts _ _) as [title description].
  cbn [try_catch]. intro H. injection H as <-.
  unfold named.
  cbn [GAEBPosition.id GAEBPosition.title GAEBPosition.description].
  repeat split.
  - apply opt_or_nonempty. literal_nonempty.
  - exact Htitle.
  - apply optional_description.
Qed.

(** In every document of [parse], on either path, each node has an id and
    a title that are not empty, and a description that is missing rather
    than empty. *)
Theorem nodes_are_named (host : Host) (content fileName : JS.jsstring)
        (d : GAEBData.t) :
  GAEBParser.parse host content fileName = Normal d ->
  Forall named (GAEBData.positions d).
Proof.
  apply parse_nodes.
  - apply parsePosition_named.
  - apply parseXMLCategory_named.
  - apply parseXMLItem_named.
Qed.

Lemma nodes_are_named_witness :
  exists d,
    GAEBParser.parse Samples.bare_host Samples.repeated_lines
                     (JS.str "lv.d83") = Normal d
    /\ GAEBData.positions d <> []
    /\ Forall named (GAEBData.positions d).
Proof.
  destruct (GAEBParser.parse Samples.bare_host Samples.repeated_lines
                             (JS.str "lv.d83")) as [d|e] eqn:Hd;
    [| vm_compute in Hd; discriminate Hd].
  exists d. split; [reflexivity |]. split.
  - vm_compute in Hd. injection Hd as <-. discriminate.
  - exact (nodes_are_named _ _ _ d Hd).
Defined.

Lemma pricing_consistent (type : PositionType.t)
      (cleanNumbers : list Num.number) (currencyAmount : option Num.number) :
  let '(quantity, unitPrice, totalPrice) :=
    GAEBParser.pricing type cleanNumbers currencyAmount in
  (unitPrice = None <-> totalPrice = None)
  /\ (unitPrice <> None -> quantity <> None)
  /\ (type <> PositionType.position ->
      quantity = None /\ unitPrice = None /\ totalPrice = None).
Proof.
  assert (Hnone : (@None Num.number = None <-> @None Num.number = None)
                  /\ (@None Num.number <> None -> @None Num.number <> None)
                  /\ (type <> PositionType.position ->
                      @None Num.number = None /\ @None Num.number = None
                      /\ @None Num.number = None)).
  { repeat split; auto. }
  unfold GAEBParser.pricing.
  destruct type; cbn [PositionType.eqb andb]; try exact Hnone.
  destruct cleanNumbers as [|first others]; [exact Hnone |].
  cbn [List.length Nat.ltb Nat.leb andb].
  destruct currencyAmount as [amount|]; cbn [GAEBParser.defined_truthy].
  - destruct (Num.truthy amount); cbn [andb negb orb].
    + destruct others as [|second others']; cbn.
      * repeat split; intros; try discriminate; congruence.
      * repeat split; intros; try discriminate; congruence.
    + destruct others as [|second others']; cbn.
      * repeat split; intros; try discriminate; congruence.
      * destruct (PrimFloat.ltb _ _);
          repeat split; intros; try discriminate; congruence.
  - cbn [andb negb]. destruct others as [|second others']; cbn.
    + repeat split; intros; try discriminate; congruence.
    + destruct (PrimFloat.ltb _ _);
        repeat split; intros; try discriminate; congruence.
Qed.

Lemma parsePosition_prices (line : JS.jsstring) (index : nat)
      (allLines : list JS.jsstring) (currentIndex : nat)
      (p : GAEBPosition.t) :
  GAEBParser.parsePosition line index allLines currentIndex
  = Normal (Some p) ->
  prices_consistent p.
Proof.
  intro Hp.
  destruct (parsePosition_node line index allLines currentIndex)
    as (q & Hq & _ & _ & _ & _ & Hprices).
  rewrite Hq in Hp. injection Hp as <-.
  pose proof (pricing_consistent (GAEBPosition.type q)
                (GAEBParser.extract_cleanNumbers line)
                (GAEBParser.extract_currencyAmount line)) as H.
  rewrite <- Hprices in H. exact H.
Qed.

Lemma parseXMLCategory_prices (categoryElement : DOM.element) (index : nat)
      (categoryNumber : Num.number) (c : GAEBPosition.t) :
  GAEBParser.parseXMLCategory categoryElement index categoryNumber
  = Normal (Some c) ->
  prices_consistent c.
Proof.
  unfold GAEBParser.parseXMLCategory. cbn [try_catch].
  intro H. injection H as <-. unfold prices_consistent.
  cbn [GAEBPosition.unitPrice GAEBPosition.totalPrice GAEBPosition.quantity
       GAEBPosition.type].
  repeat split; intros; auto; congruence.
Qed.

Lemma parseXMLItem_prices (itemElement : DOM.element) (index : nat)
      (parentCategoryId : option JS.jsstring)
      (categoryNumber : Num.number) (itemNumber : nat)
      (p : GAEBPosition.t) :
  GAEBParser.parseXMLItem itemElement index parentCategoryId categoryNumber
                          itemNumber = Normal (Some p) ->
  prices_consistent p.
Proof.
  unfold GAEBParser.parseXMLItem.
  destruct (GAEBParser.item_texts _ _) as [title description].
  cbn [try_catch]. intro H. injection H as <-. unfold prices_consistent.
  cbn [GAEBPosition.unitPrice GAEBPosition.totalPrice GAEBPosition.quantity
       GAEBPosition.type].
  repeat split; intros; auto; congruence.
Qed.

(** In every document of [parse], on either path, each node has a unit
    price exactly when it has a total price, has a quantity whenever it has
    a price, and has neither quantity nor prices unless its type is
    position. *)
Theorem prices_come_together (host : Host) (content fileName : JS.jsstring)
        (d : GAEBData.t) :
  GAEBParser.parse host content fileName = Normal d ->
  Forall prices_consistent (GAEBData.positions d).
Proof.
  apply parse_nodes.
  - apply parsePosition_prices.
  - apply parseXMLCategory_prices.
  - apply parseXMLItem_prices.
Qed.

Lemma prices_come_together_witness :
  exists d,
    GAEBParser.parse Samples.bare_host Samples.mauerwerk_line
                     (JS.str "lv.d83") = Normal d
    /\ GAEBData.positions d <> []
    /\ Forall prices_consistent (GAEBData.positions d).
Proof.
  destruct (GAEBParser.parse Samples.bare_host Samples.mauerwerk_line
                             (JS.str "lv.d83")) as [d|e] eqn:Hd;
    [| vm_compute in Hd; discriminate Hd].
  exists d. split; [reflexivity |]. split.
  - vm_compute in Hd.
    apply (f_equal (fun c => match c with
                             | Normal x => List.length (GAEBData.positions x)
                             | Throw _ => 0
                             end)) in Hd.
    cbn in Hd. intro Hnil. rewrite Hnil in Hd. discriminate Hd.
  - exact (prices_come_together _ _ _ d Hd).
Defined.

(** ** The loop of the line parser, line by line *)

Lemma text_step_exact (lines : list JS.jsstring) (i : nat)
      (line : JS.jsstring) (st : GAEBParser.text_state) :
  exists st',
    GAEBParser.text_step lines i line st = Normal st'
    /\ GAEBParser.header st'
       = match GAEBParser.currentSection st with
         | GAEBParser.in_header =>
           GAEBParser.header_line line (GAEBParser.header st)
         | GAEBParser.in_positions => GAEBParser.header st
         end
    /\ GAEBParser.currentSection st'
       = (if GAEBParser.looksLikePosition line then GAEBParser.in_positions
          else GAEBParser.currentSection st)
    /\ (if GAEBParser.looksLikePosition line
        then exists p,
            GAEBParser.parsePosition line (GAEBParser.positionCounter st)
                                     lines i = Normal (Some p)
            /\ GAEBParser.positions st' = GAEBParser.positions st ++ [p]
            /\ GAEBParser.positionCounter st'
               = S (GAEBParser.positionCounter st)
        else GAEBParser.positions st' = GAEBParser.positions st
             /\ GAEBParser.positionCounter st'
                = GAEBParser.positionCounter st).
Proof.
  assert (Hempty : line = [] ->
                   GAEBParser.looksLikePosition line = false
                   /\ forall h, GAEBParser.header_line line h = h).
  { intros ->. split; [reflexivity | intro h; reflexivity]. }
  unfold GAEBParser.text_step.
  destruct line as [|c line'] eqn:Hline.
  - destruct (Hempty eq_refl) as [Hlooks Hhead].
    cbn [JS.truthy negb]. exists st. rewrite Hlooks, Hhead.
    destruct (GAEBParser.currentSection st); auto.
  - clear Hempty. rewrite <- Hline. replace (JS.truthy line) with true
      by (rewrite Hline; reflexivity).
    cbn [negb].
    destruct (parsePosition_node line (GAEBParser.positionCounter st)
                                 lines i) as (p & Hp & _).
    destruct (GAEBParser.currentSection st) eqn:Hsec;
      cbn [GAEBParser.currentSection];
      destruct (GAEBParser.looksLikePosition line) eqn:Hlooks.
    + cbn [GAEBParser.positionCounter GAEBParser.positions
           GAEBParser.header].
      rewrite Hp. cbn [bind GAEBParser.push]. eexists.
      split; [reflexivity |]. cbn. repeat split. exists p. auto.
    + eexists. split; [reflexivity |]. cbn. auto.
    + rewrite Hsec, Hp. cbn [bind GAEBParser.push]. eexists.
      split; [reflexivity |]. cbn. repeat split. exists p. auto.
    + rewrite Hsec. eexists. split; [reflexivity |]. cbn. auto.
Qed.

(** An invariant that follows the lines read so far. *)
Lemma text_loop_trace (Inv : list JS.jsstring -> GAEBParser.text_state -> Prop)
      (lines : list JS.jsstring) :
  (forall pre line rest st st',
      lines = pre ++ line :: rest ->
      Inv pre st ->
      GAEBParser.text_step lines (List.length pre) line st = Normal st' ->
      Inv (pre ++ [line]) st') ->
  forall rest pre st,
    lines = pre ++ rest ->
    Inv pre st ->
    exists st',
      GAEBParser.text_loop lines rest (List.length pre) st = Normal st'
      /\ Inv lines st'.
Proof.
  intro Hstep. induction rest as [|line rest IH]; intros pre st Hlines Hinv.
  - exists st. split; [reflexivity |].
    rewrite Hlines, app_nil_r. exact Hinv.
  - cbn [GAEBParser.text_loop].
    destruct (text_step_exact lines (List.length pre) line st)
      as (st1 & Hst1 & _).
    rewrite Hst1. cbn [bind].
    replace (S (List.length pre)) with (List.length (pre ++ [line]))
      by (rewrite length_app, Nat.add_1_r; reflexivity).
    apply IH.
    + rewrite <- app_assoc. exact Hlines.
    + eapply Hstep; eassumption.
Qed.

Lemma parseTextGAEB_trace
      (Inv : list JS.jsstring -> GAEBParser.text_state -> Prop)
      (host : Host) (content fileName : JS.jsstring) :
  (forall pre line rest st st',
      GAEBParser.lines_of content = pre ++ line :: rest ->
      Inv pre st ->
      GAEBParser.text_step (GAEBParser.lines_of content) (List.length pre)
                           line st = Normal st' ->
      Inv (pre ++ [line]) st') ->
  Inv [] {| GAEBParser.header :=
              GAEBHeader.set_format
                (Some (GAEBParser.detectGAEBFormat content))
                GAEBHeader.empty;
            GAEBParser.positions := [];
            GAEBParser.currentSection := GAEBParser.in_header;
            GAEBParser.positionCounter := 0 |} ->
  exists d st,
    GAEBParser.parseTextGAEB host content fileName = Normal d
    /\ Inv (GAEBParser.lines_of content) st
    /\ GAEBData.header d = GAEBParser.header st
    /\ GAEBData.positions d = GAEBParser.positions st.
Proof.
  intros Hstep Hinit.
  destruct (text_loop_trace Inv (GAEBParser.lines_of content) Hstep
              (GAEBParser.lines_of content) [] _ eq_refl Hinit)
    as (st & Hloop & Hinv).
  unfold GAEBParser.parseTextGAEB.
  cbn [List.length] in Hloop. rewrite Hloop. cbn [bind].
  eexists. exists st. split; [reflexivity |]. cbn. auto.
Qed.




(** ** The header of the line parser *)

Lemma header_part_snoc (pre : list JS.jsstring) (line : JS.jsstring) :
  header_part (pre ++ [line])
  = if existsb GAEBParser.looksLikePosition pre then header_part pre
    else header_part pre ++ [line].
Proof.
  induction pre as [|a pre IH]; cbn [app header_part existsb].
  - destruct (GAEBParser.looksLikePosition line); reflexivity.
  - destruct (GAEBParser.looksLikePosition a); cbn [orb]; [reflexivity |].
    rewrite IH. destruct (existsb _ pre); reflexivity.
Qed.

(** The line parser reads the header fields from the lines up to the first
    one that looks like a position, that line included, each line updating
    the header by [header_line]; no later line changes the header. *)
Theorem header_read_before_positions (host : Host)
        (content fileName : JS.jsstring) :
  exists d,
    GAEBParser.parseTextGAEB host content fileName = Normal d
    /\ GAEBData.header d
       = fold_left (fun h line => GAEBParser.header_line line h)
                   (header_part (GAEBParser.lines_of content))
                   (GAEBHeader.set_format
                      (Some (GAEBParser.detectGAEBFormat content))
                      GAEBHeader.empty).
Proof.
  set (h0 := GAEBHeader.set_format
               (Some (GAEBParser.detectGAEBFormat content))
               GAEBHeader.empty).
  destruct (parseTextGAEB_trace
              (fun pre st =>
                 GAEBParser.header st
                 = fold_left (fun h line => GAEBParser.header_line line h)
                             (header_part pre) h0
                 /\ GAEBParser.currentSection st
                    = if existsb GAEBParser.looksLikePosition pre
                      then GAEBParser.in_positions
                      else GAEBParser.in_header)
              host content fileName)
    as (d & st & Hd & (Hhead & _) & Hheader & _).
  - intros pre line rest st st' _ (Hhead & Hsec) Hstep.
    destruct (text_step_exact (GAEBParser.lines_of content)
                              (List.length pre) line st)
      as (st1 & Hst1 & Hh & Hs & _).
    rewrite Hst1 in Hstep. injection Hstep as <-.
    rewrite Hh, Hs, Hsec, header_part_snoc, existsb_app.
    cbn [existsb]. rewrite orb_false_r.
    destruct (existsb GAEBParser.looksLikePosition pre); cbn [orb].
    + split; [exact Hhead |].
      destruct (GAEBParser.looksLikePosition line); reflexivity.
    + split; [| reflexivity].
      rewrite fold_left_app, <- Hhead. reflexivity.
  - split; reflexivity.
  - exists d. split; [exact Hd |]. rewrite Hheader. exact Hhead.
Qed.

(** ** The level of a node of the line parser *)

Lemma trimStart_head (s : JS.jsstring) (c : JS.char) (r : JS.jsstring) :
  JS.trimStart s = c :: r -> JS.is_space c = false.
Proof.
  induction s as [|a s IH]; cbn [JS.trimStart]; [discriminate |].
  destruct (JS.is_space a) eqn:Ha; [exact IH |].
  intro H. injection H as <- _. exact Ha.
Qed.

Lemma trimStart_suffix (s : JS.jsstring) :
  exists w, s = w ++ JS.trimStart s.
Proof.
  induction s as [|a s [w IH]]; cbn [JS.trimStart]; [exists []; reflexivity |].
  destruct (JS.is_space a).
  - exists (a :: w). cbn [app]. rewrite <- IH. reflexivity.
  - exists []. reflexivity.
Qed.

Lemma trimStart_trim (s : JS.jsstring) : JS.trimStart (JS.trim s) = JS.trim s.
Proof.
  unfold JS.trim, JS.trimEnd.
  destruct (trimStart_suffix (rev (JS.trimStart s))) as [w Hw].
  apply (f_equal (@rev JS.char)) in Hw.
  rewrite rev_involutive, rev_app_distr in Hw.
  destruct (rev (JS.trimStart (rev (JS.trimStart s)))) as [|c r] eqn:Hr;
    [reflexivity |].
  cbn [app] in Hw. apply trimStart_head in Hw.
  cbn [JS.trimStart]. rewrite Hw. reflexivity.
Qed.

Lemma lines_of_trimmed (content line : JS.jsstring) :
  In line (GAEBParser.lines_of content) -> JS.trimStart line = line.
Proof.
  unfold GAEBParser.lines_of. intro H.
  apply filter_In in H. destruct H as [H _].
  apply in_map_iff in H. destruct H as (x & <- & _).
  apply trimStart_trim.
Qed.

Lemma parsePosition_level (line : JS.jsstring) (index : nat)
      (allLines : list JS.jsstring) (currentIndex : nat)
      (p : GAEBPosition.t) :
  JS.trimStart line = line ->
  GAEBParser.parsePosition line index allLines currentIndex
  = Normal (Some p) ->
  GAEBPosition.level p = dots_of_number p.
Proof.
  intro Htrim. unfold GAEBParser.parsePosition.
  destruct (GAEBParser.pricing _ _ _) as [[quantity unitPrice] totalPrice].
  cbn [try_catch]. intro H. injection H as <-.
  unfold dots_of_number, GAEBParser.level_of.
  cbn [GAEBPosition.level GAEBPosition.positionNumber].
  rewrite Htrim, Nat.sub_diag.
  change (0 / 4) with 0.
  destruct (GAEBParser.extract_positionNumber line) as [pn|]; [| reflexivity].
  destruct pn as [|c pn]; reflexivity.
Qed.

(** In a document of the line parser the level of every node is the number
    of dots of its position number, and 0 for a node without one: the lines
    are trimmed before they are parsed, so the indentation of a line never
    counts. *)
Theorem line_parser_level_counts_dots (host : Host)
        (content fileName : JS.jsstring) (d : GAEBData.t) :
  GAEBParser.parseTextGAEB host content fileName = Normal d ->
  Forall (fun p => GAEBPosition.level p = dots_of_number p)
         (GAEBData.positions d).
Proof.
  intro Hparse.
  destruct (parseTextGAEB_trace
              (fun pre st =>
                 Forall (fun p => GAEBPosition.level p = dots_of_number p)
                        (GAEBParser.positions st))
              host content fileName)
    as (d' & st & Hd & Hinv & _ & Hpos).
  - intros pre line rest st st' Hlines Hinv Hstep.
    destruct (text_step_exact (GAEBParser.lines_of content)
                              (List.length pre) line st)
      as (st1 & Hst1 & _ & _ & Hcase).
    rewrite Hst1 in Hstep. injection Hstep as <-.
    destruct (GAEBParser.looksLikePosition line).
    + destruct Hcase as (p & Hp & Hps & _). rewrite Hps.
      apply Forall_app. split; [exact Hinv |].
      constructor; [| constructor].
      apply (parsePosition_level _ _ _ _ _ (lines_of_trimmed content line
               ltac:(rewrite Hlines; apply in_elt)) Hp).
    + destruct Hcase as [Hps _]. rewrite Hps. exact Hinv.
  - constructor.
  - rewrite Hd in Hparse. injection Hparse as <-. rewrite Hpos. exact Hinv.
Qed.

Lemma line_parser_level_counts_dots_witness :
  exists d,
    GAEBParser.parseTextGAEB Samples.bare_host Samples.indented_lines
                             (JS.str "lv.d83") = Normal d
    /\ map GAEBPosition.level (GAEBData.positions d) = [0; 2]
    /\ Forall (fun p => GAEBPosition.level p = dots_of_number p)
              (GAEBData.positions d).
Proof.
  destruct (GAEBParser.parseTextGAEB Samples.bare_host
              Samples.indented_lines (JS.str "lv.d83")) as [d|e] eqn:Hd;
    [| vm_compute in Hd; discriminate Hd].
  exists d. split; [reflexivity |]. split.
  - apply (f_equal (fun c => match c with
                             | Normal x =>
                               map GAEBPosition.level (GAEBData.positions x)
                             | Throw _ => []
                             end)) in Hd.
    vm_compute in Hd. symmetry. exact Hd.
  - exact (line_parser_level_counts_dots _ _ _ d Hd).
Defined.

(** ** The nodes of the markup path, category by category *)

Lemma parseXMLCategory_shape (categoryElement : DOM.element) (index : nat)
      (categoryNumber : Num.number) :
  exists c,
    GAEBParser.parseXMLCategory categoryElement index categoryNumber
    = Normal (Some c)
    /\ GAEBPosition.type c = PositionType.title
    /\ GAEBPosition.level c = 0
    /\ GAEBPosition.parent c = None.
Proof.
  unfold GAEBParser.parseXMLCategory. cbn [try_catch].
  eexists. split; [reflexivity |]. cbn. auto.
Qed.

Lemma parseXMLItem_shape (itemElement : DOM.element) (index : nat)
      (parentCategoryId : option JS.jsstring)
      (categoryNumber : Num.number) (itemNumber : nat) :
  exists p,
    GAEBParser.parseXMLItem itemElement index parentCategoryId
                            categoryNumber itemNumber = Normal (Some p)
    /\ GAEBPosition.type p = PositionType.position
    /\ GAEBPosition.level p = 1
    /\ GAEBPosition.parent p = parentCategoryId.
Proof.
  unfold GAEBParser.parseXMLItem.
  destruct (GAEBParser.item_texts _ _) as [title description].
  cbn [try_catch]. eexists. split; [reflexivity |]. cbn. auto.
Qed.

Lemma items_forEach_shape (categoryId : option JS.jsstring)
      (categoryNumber : Num.number) (items : list DOM.element) :
  forall (first : nat) (positions : list GAEBPosition.t),
  exists nodes,
    GAEBParser.forEach (GAEBParser.item_callback categoryId categoryNumber)
                       items first positions
    = Normal (positions ++ nodes)
    /\ List.length nodes = List.length items
    /\ Forall (fun p => GAEBPosition.type p = PositionType.position
                        /\ GAEBPosition.level p = 1
                        /\ GAEBPosition.parent p = categoryId)
              nodes.
Proof.
  induction items as [|item items IH]; intros first positions.
  - exists []. cbn. rewrite app_nil_r. auto.
  - cbn [GAEBParser.forEach]. unfold GAEBParser.item_callback at 1.
    destruct (parseXMLItem_shape item first categoryId categoryNumber
                                 (first + 1)) as (p & Hp & Hshape).
    rewrite Hp. cbn [bind GAEBParser.push].
    destruct (IH (S first) (positions ++ [p])) as (nodes & Hnodes & Hlen & Hall).
    exists (p :: nodes). rewrite Hnodes, <- app_assoc.
    split; [reflexivity |]. split; [cbn; rewrite Hlen; reflexivity |].
    constructor; assumption.
Qed.

Lemma category_callback_shape (category : DOM.element) (categoryIndex : nat)
      (positions : list GAEBPosition.t) :
  exists block,
    GAEBParser.category_callback category categoryIndex positions
    = Normal (positions ++ block)
    /\ block_of category block.
Proof.
  unfold GAEBParser.category_callback.
  destruct (parseXMLCategory_shape category categoryIndex
              (GAEBParser.category_number category categoryIndex))
    as (c & Hc & Htype & Hlevel & Hparent).
  rewrite Hc. cbn [bind GAEBParser.push option_map].
  destruct (items_forEach_shape
              (Some (GAEBPosition.id c))
              (GAEBParser.category_number category categoryIndex)
              (DOM.querySelectorAll (DOM.select ["Item"]%string) category)
              0 (positions ++ [c]))
    as (nodes & Hnodes & Hlen & Hall).
  exists (c :: nodes). rewrite Hnodes, <- app_assoc.
  split; [reflexivity |].
  exists c, nodes. auto 7.
Qed.

Lemma categories_forEach_shape (categories : list DOM.element) :
  forall (first : nat) (positions : list GAEBPosition.t),
  exists blocks,
    GAEBParser.forEach GAEBParser.category_callback categories first
                       positions
    = Normal (positions ++ List.concat blocks)
    /\ Forall2 block_of categories blocks.
Proof.
  induction categories as [|category categories IH]; intros first positions.
  - exists []. cbn. rewrite app_nil_r. auto.
  - cbn [GAEBParser.forEach].
    destruct (category_callback_shape category first positions)
      as (block & Hblock & Hshape).
    rewrite Hblock. cbn [bind].
    destruct (IH (S first) (positions ++ block))
      as (blocks & Hblocks & Hall).
    exists (block :: blocks). rewrite Hblocks, <- app_assoc.
    split; [reflexivity |]. constructor; assumption.
Qed.

Lemma extract_positions_blocks (xmlDoc : DOM.document) :
  exists blocks,
    GAEBParser.extract_positions xmlDoc = Normal (List.concat blocks)
    /\ Forall2 block_of (categories_of xmlDoc) blocks.
Proof.
  unfold GAEBParser.extract_positions, categories_of.
  destruct (DOM.docQuerySelector _ xmlDoc) as [boqElement|].
  - destruct (categories_forEach_shape
                (DOM.querySelectorAll (DOM.select ["BoQCtgy"]%string)
                                      boqElement) 0 [])
      as (blocks & Hblocks & Hall).
    exists blocks. split; [exact Hblocks | exact Hall].
  - exists []. split; [reflexivity | constructor].
Qed.

(** The extraction of the markup path never throws, and its nodes are the
    blocks of the categories below the first [BoQ] element, in document
    order: for each category a title node at level 0, followed by one
    position node per [Item] descendant of the category, at level 1 and with
    the id of that title node as parent. *)
Theorem markup_nodes_by_category (xmlDoc : DOM.document) :
  exists blocks,
    GAEBParser.extract_positions xmlDoc = Normal (List.concat blocks)
    /\ Forall2 block_of (categories_of xmlDoc) blocks.
Proof. apply extract_positions_blocks. Qed.

(** ** The value of a header line *)

Lemma split_nonempty (sep : JS.char) (s : JS.jsstring) :
  JS.split sep s <> [].
Proof.
  destruct s as [|c s]; cbn [JS.split]; [discriminate |].
  destruct (JS.char_eqb c sep); [discriminate |].
  destruct (JS.split sep s); discriminate.
Qed.

Lemma split_without (sep : JS.char) (s : JS.jsstring) :
  ~ In sep s -> JS.split sep s = [s].
Proof.
  induction s as [|c s IH]; intro Hs; [reflexivity |].
  cbn [JS.split].
  destruct (JS.char_eqb c sep) eqn:Hc.
  - apply char_eqb_eq in Hc. contradiction Hs. left. exact Hc.
  - rewrite IH; [reflexivity |]. intro H. apply Hs. right. exact H.
Qed.

Lemma split_at_first (sep : JS.char) (key value : JS.jsstring) :
  ~ In sep key ->
  JS.split sep (key ++ sep :: value) = key :: JS.split sep value.
Proof.
  induction key as [|c key IH]; intro Hkey; cbn [app JS.split].
  - replace (JS.char_eqb sep sep) with true
      by (symmetry; apply char_eqb_eq; reflexivity).
    reflexivity.
  - destruct (JS.char_eqb c sep) eqn:Hc.
    + apply char_eqb_eq in Hc. contradiction Hkey. left. exact Hc.
    + rewrite IH; [reflexivity |]. intro H. apply Hkey. right. exact H.
Qed.

Lemma join_cons (sep piece : JS.jsstring) (rest : list JS.jsstring) :
  rest <> [] -> JS.join sep (piece :: rest) = piece ++ sep ++ JS.join sep rest.
Proof.
  destruct rest; [intro H; contradiction H; reflexivity | reflexivity].
Qed.

Lemma join_split (sep : JS.char) (s : JS.jsstring) :
  JS.join [sep] (JS.split sep s) = s.
Proof.
  induction s as [|c s IH]; [reflexivity |].
  cbn [JS.split].
  pose proof (split_nonempty sep s) as Hne.
  destruct (JS.char_eqb c sep) eqn:Hc.
  - apply char_eqb_eq in Hc. subst c.
    rewrite join_cons by exact Hne. rewrite IH. reflexivity.
  - destruct (JS.split sep s) as [|piece rest];
      [contradiction Hne; reflexivity |].
    destruct rest as [|piece' rest].
    + cbn [JS.join] in *. rewrite <- IH. reflexivity.
    + rewrite join_cons by discriminate.
      rewrite join_cons in IH by discriminate.
      rewrite <- IH. reflexivity.
Qed.

(** [extractValue] returns what follows the first colon of the line,
    trimmed; later colons stay in the value.  A line without colon is
    returned as it is. *)
Theorem extractValue_after_first_colon (key value : JS.jsstring) :
  ~ In (RegExp.code ":") key ->
  GAEBParser.extractValue key = key
  /\ GAEBParser.extractValue (key ++ RegExp.code ":" :: value)
     = JS.trim value.
Proof.
  intro Hkey. unfold GAEBParser.extractValue. split.
  - rewrite split_without by exact Hkey. reflexivity.
  - rewrite split_at_first by exact Hkey.
    pose proof (split_nonempty (RegExp.code ":") value) as Hne.
    pose proof (join_split (RegExp.code ":") value) as Hjoin.
    destruct (JS.split (RegExp.code ":") value) as [|piece rest];
      [contradiction Hne; reflexivity |].
    cbn [List.length Nat.ltb Nat.leb skipn].
    change (JS.str ":") with [RegExp.code ":"].
    rewrite Hjoin. reflexivity.
Qed.

Lemma extractValue_after_first_colon_witness :
  GAEBParser.extractValue (JS.str "Projekt")
  = JS.str "Projekt"
  /\ GAEBParser.extractValue (JS.str "Projekt: Halle 3: Rohbau ")
     = JS.str "Halle 3: Rohbau".
Proof.
  exact (extractValue_after_first_colon
           (JS.str "Projekt") (JS.str " Halle 3: Rohbau ")
           ltac:(vm_compute; intuition discriminate)).
Defined.

(** ** The sheets of the exporter *)

(** The name of a sheet holds none of the nine characters that
    [exportToExcel] replaces, whatever the file names are. *)
Theorem sheet_names_avoid_replaced_characters (gaebFiles : list GAEBData.t) :
  Forall (Forall (fun c => ExcelExporter.is_unsafe c = false))
         (ExcelExporter.sheetNames gaebFiles).
Proof. apply sheet_names_facts. Qed.

Lemma names_from_prefixed (count : nat) (files : list GAEBData.t) :
  1 < count ->
  forall index name,
    In name (ExcelExporter.names_from count index files) ->
    exists r, name = JS.str "File_" ++ r.
Proof.
  intro Hcount. induction files as [|f files IH]; intros index name;
    cbn [ExcelExporter.names_from]; [intros [] |].
  intros [<- | Hin].
  - rewrite sheetName_prefixed by exact Hcount. eexists. reflexivity.
  - apply (IH _ _ Hin).
Qed.

(** With two or more files all sheets of the workbook get names that
    differ from each other, the summary sheet included, also when two files
    have the same name. *)
Theorem workbook_sheet_names_differ (gaebFiles : list GAEBData.t) :
  1 < List.length gaebFiles ->
  NoDup (Workbook.workbookSheetNames gaebFiles).
Proof.
  intro Hcount. unfold Workbook.workbookSheetNames. constructor.
  - intro Hin. apply (names_from_prefixed _ _ Hcount) in Hin.
    destruct Hin as [r Hr]. vm_compute in Hr. discriminate Hr.
  - apply sheet_names_facts. exact Hcount.
Qed.

Lemma workbook_sheet_names_differ_witness :
  NoDup (Workbook.workbookSheetNames
           [Samples.file "a.x83"; Samples.file "a.x83"]).
Proof.
  apply workbook_sheet_names_differ. cbn. lia.
Defined.

(** With a single file the name of its sheet has at most 31 units. *)
Theorem single_sheet_name_within_limit (gaebFiles : list GAEBData.t) :
  List.length gaebFiles <= 1 ->
  Forall (fun name => List.length name <= 31)
         (ExcelExporter.sheetNames gaebFiles).
Proof. apply sheet_names_facts. Qed.

Lemma single_sheet_name_within_limit_witness :
  Forall (fun name => List.length name <= 31)
         (ExcelExporter.sheetNames
            [Samples.file "Leistungsverzeichnis_Rohbau_Bauabschnitt_2.x83"]).
Proof.
  apply single_sheet_name_within_limit. cbn. lia.
Defined.

Lemma flat_map_singletons {A B : Type} (f : A -> B) (g : A -> list B)
      (l : list A) :
  (forall x, g x = [f x]) -> flat_map g l = map f l.
Proof.
  intro Hg. induction l as [|x l IH]; [reflexivity |].
  cbn [flat_map map]. rewrite Hg, IH. reflexivity.
Qed.

(** The cleaned file name is the file name with each replaced character
    turned into one underscore and every other unit kept in its place, cut
    to its first 31 units. *)
Theorem cleanFileName_unit_by_unit (gaebFile : GAEBData.t) :
  ExcelExporter.cleanFileName gaebFile
  = firstn 31
           (map (fun c => if ExcelExporter.is_unsafe c then 95%N else c)
                (GAEBData.fileName gaebFile)).
Proof.
  unfold ExcelExporter.cleanFileName, JS.substring.
  unfold ExcelExporter.unsafe. rewrite replace_class.
  cbn [skipn]. f_equal.
  apply flat_map_singletons. intro c.
  unfold RegExp.replaced.
  change (ExcelExporter.is_unsafe c)
    with (RegExp.class_match
            (RegExp.One 34%N :: RegExp.ones "\/:*?<>|") c).
  destruct (RegExp.class_match _ c); reflexivity.
Qed.

Lemma reduce_sum_list_sum (f : GAEBData.t -> nat)
      (gaebFiles : list GAEBData.t) :
  Workbook.reduce_sum f gaebFiles = list_sum (map f gaebFiles).
Proof.
  unfold Workbook.reduce_sum.
  assert (H : forall a, fold_left (fun sum file => sum + f file) gaebFiles a
                        = a + list_sum (map f gaebFiles)).
  { induction gaebFiles as [|file files IH]; intro a; simpl.
    - lia.
    - rewrite IH. lia. }
  apply H.
Qed.

Lemma list_sum_zero {A : Type} (l : list A) :
  list_sum (map (fun _ => 0) l) = 0.
Proof. induction l as [|x l IH]; [reflexivity | exact IH]. Qed.

(** With two or more files the summary sheet is three heading rows, one row
    per file, a blank row and the row of totals, and each count of the row
    of totals is the sum of the counts in its column of the file rows. *)
Theorem summary_totals_are_column_sums
        (toLocaleString : JS.jsstring -> JS.jsstring)
        (gaebFiles : list GAEBData.t) :
  1 < List.length gaebFiles ->
  exists heading total,
    Workbook.createSummarySheet toLocaleString gaebFiles
    = heading ++ map (Workbook.summary_row toLocaleString) gaebFiles
              ++ [[Workbook.blank]; total]
    /\ List.length heading = 3
    /\ forall col,
        count_at col total
        = list_sum
            (map (count_at col)
                 (map (Workbook.summary_row toLocaleString) gaebFiles)).
Proof.
  intro Hlen. unfold Workbook.createSummarySheet.
  apply Nat.ltb_lt in Hlen. rewrite Hlen.
  eexists. exists (Workbook.total_row gaebFiles).
  rewrite <- app_assoc. split; [reflexivity |]. split; [reflexivity |].
  intro col. rewrite map_map. unfold Workbook.total_row.
  do 6 (destruct col as [|col];
        [cbn [count_at nth_error Workbook.summary_row Workbook.blank];
         try rewrite reduce_sum_list_sum;
         try (rewrite list_sum_zero; reflexivity);
         reflexivity |]).
  unfold count_at. cbn [nth_error Workbook.summary_row].
  replace (nth_error (@nil Workbook.cell) col) with (@None Workbook.cell)
    by (destruct col; reflexivity).
  rewrite list_sum_zero. reflexivity.
Qed.

Lemma summary_totals_are_column_sums_witness :
  exists heading total,
    Workbook.createSummarySheet (fun s => s) Samples.two_files
    = heading ++ map (Workbook.summary_row (fun s => s)) Samples.two_files
              ++ [[Workbook.blank]; total]
    /\ List.length heading = 3
    /\ forall col,
        count_at col total
        = list_sum
            (map (count_at col)
                 (map (Workbook.summary_row (fun s => s)) Samples.two_files)).
Proof.
  apply summary_totals_are_column_sums. cbn. lia.
Defined.

Lemma category_rows_from_spec (positions : list GAEBPosition.t) :
  forall first rowIndex,
    In rowIndex (Workbook.category_rows_from first positions)
    <-> exists j p,
        nth_error positions j = Some p
        /\ GAEBPosition.type p = PositionType.title
        /\ rowIndex = Workbook.dataStartRow + (first + j).
Proof.
  induction positions as [|position rest IH]; intros first rowIndex;
    cbn [Workbook.category_rows_from].
  - split; [intros [] |]. intros ([|j] & p & H & _); discriminate H.
  - rewrite in_app_iff, IH. split.
    + intros [Hhere | (j & p & Hj & Htype & Hrow)].
      * destruct (PositionType.eqb _ _) eqn:Heq; [| destruct Hhere].
        destruct Hhere as [<- | []].
        exists 0, position. rewrite Nat.add_0_r.
        split; [reflexivity |]. split; [| reflexivity].
        destruct (GAEBPosition.type position); try discriminate Heq.
        reflexivity.
      * exists (S j), p. split; [exact Hj |]. split; [exact Htype |]. lia.
    + intros ([|j] & p & Hj & Htype & Hrow).
      * left. cbn [nth_error] in Hj. injection Hj as <-.
        rewrite Htype. cbn [PositionType.eqb]. left. lia.
      * right. exists j, p. split; [exact Hj |]. split; [exact Htype |]. lia.
Qed.

(** In the sheet of a file the node at place [j] fills the row that the
    cell references number [dataStartRow + j], which is the row
    [exportToExcel] gives the category style exactly when the node has the
    type title; the row numbered [headerRowIndex] holds the column
    headers. *)
Theorem category_style_meets_category_rows
        (gaebFile : GAEBData.t) (includeDescription : bool)
        (j : nat) (p : GAEBPosition.t) :
  nth_error (GAEBData.positions gaebFile) j = Some p ->
  let data := Workbook.createPositionSheet gaebFile includeDescription in
  nth_error data (Workbook.dataStartRow + j - 1)
  = Some (Workbook.position_row p)
  /\ (In (Workbook.dataStartRow + j) (Workbook.category_rows gaebFile)
      <-> GAEBPosition.type p = PositionType.title)
  /\ option_map (map Workbook.cell_text)
                (nth_error data (Workbook.headerRowIndex - 1))
     = Some [JS.str "Position"; JS.str "Produkt"; JS.str "Stückzahl";
             JS.str "zugeschnitten"; JS.str "gebaut"; [];
             JS.str "Produkt"; JS.str "Stückzahl"; JS.str "bestellt am";
             JS.str "geliefert"; []].
Proof.
  intros Hj data. subst data. unfold Workbook.createPositionSheet.
  split; [| split].
  - change (Workbook.dataStartRow + j - 1) with (5 + j).
    rewrite nth_error_app2 by (cbn [List.length]; lia).
    cbn [List.length].
    replace (5 + j - 5) with j by lia.
    apply map_nth_error. exact Hj.
  - unfold Workbook.category_rows. rewrite category_rows_from_spec. split.
    + intros (k & q & Hk & Htype & Hrow).
      assert (k = j) as -> by lia.
      rewrite Hj in Hk. injection Hk as <-. exact Htype.
    + intro Htype. exists j, p. auto.
  - reflexivity.
Qed.

Lemma category_style_meets_category_rows_witness :
  let gaebFile :=
    {| GAEBData.header := GAEBHeader.empty;
       GAEBData.positions :=
         [ {| GAEBPosition.id := JS.str "c1";
              GAEBPosition.positionNumber := Some (JS.str "1");
              GAEBPosition.title := JS.str "Rohbau";
              GAEBPosition.description := None;
              GAEBPosition.unit := None;
              GAEBPosition.quantity := None;
              GAEBPosition.unitPrice := None;
              GAEBPosition.totalPrice := None;
              GAEBPosition.level := 0;
              GAEBPosition.parent := None;
              GAEBPosition.children := None;
              GAEBPosition.type := PositionType.title |} ];
       GAEBData.rawContent := [];
       GAEBData.fileName := JS.str "lv.x83";
       GAEBData.processedAt := [];
       GAEBData.totalPositions := 1 |} in
  In 6 (Workbook.category_rows gaebFile)
  /\ option_map (map Workbook.cell_text)
                (nth_error (Workbook.createPositionSheet gaebFile true) 5)
     = Some [JS.str "1"; JS.str "Rohbau"; []; []; []; []; []; []; []; []; []].
Proof.
  intro gaebFile.
  destruct (category_style_meets_category_rows gaebFile true 0 _ eq_refl)
    as (Hrow & Hstyle & _).
  split.
  - apply Hstyle. reflexivity.
  - cbn [Nat.add Nat.sub Workbook.dataStartRow] in Hrow.
    rewrite Hrow. reflexivity.
Defined.

Lemma max_length_bound (data : list (list Workbook.cell))
      (row : list Workbook.cell) :
  In row data -> List.length row <= Workbook.max_length data.
Proof.
  unfold Workbook.max_length.
  assert (H : forall l a, a <= fold_left Nat.max l a
                          /\ forall n, In n l -> n <= fold_left Nat.max l a).
  { induction l as [|x l IH]; intro a; cbn [fold_left].
    - split; [lia | intros n []].
    - destruct (IH (Nat.max a x)) as [Ha Hin]. split; [lia |].
      intros n [<- | Hn]; [lia | apply Hin; exact Hn]. }
  intro Hrow. apply H. apply in_map. exact Hrow.
Qed.

Lemma width_fold_bounds (col : nat) (data : list (list Workbook.cell)) :
  forall a,
    let step := fun maxWidth (row : list Workbook.cell) =>
                  match nth_error row col with
                  | Some c =>
                    Nat.max maxWidth
                            (List.length (Workbook.cell_text c) + 2)
                  | None => maxWidth
                  end in
    a <= fold_left step data a
    /\ forall row c,
        In row data -> nth_error row col = Some c ->
        List.length (Workbook.cell_text c) + 2 <= fold_left step data a.
Proof.
  induction data as [|r data IH]; intros a step; cbn [fold_left].
  - split; [lia | intros row c []].
  - destruct (IH (step a r)) as [Ha Hin]. fold step in Ha, Hin.
    assert (Hstep : a <= step a r).
    { unfold step. destruct (nth_error r col); lia. }
    split; [lia |].
    intros row c [<- | Hrow] Hc.
    + assert (List.length (Workbook.cell_text c) + 2 <= step a r).
      { unfold step. rewrite Hc. lia. }
      lia.
    + apply (Hin row c Hrow Hc).
Qed.

(** [calculateColumnWidths] gives one width per column of the longest row,
    each between 10 and 50, and wide enough for every cell of its column: at
    least the length of the text of the cell plus 2, or 50. *)
Theorem column_widths_fit (data : list (list Workbook.cell)) :
  List.length (Workbook.calculateColumnWidths data)
  = Workbook.max_length data
  /\ Forall (fun w => 10 <= w <= 50) (Workbook.calculateColumnWidths data)
  /\ forall row col c,
      In row data ->
      nth_error row col = Some c ->
      exists w,
        nth_error (Workbook.calculateColumnWidths data) col = Some w
        /\ Nat.min (List.length (Workbook.cell_text c) + 2) 50 <= w.
Proof.
  assert (Hall : Workbook.calculateColumnWidths data
                 = map (Workbook.column_width data)
                       (List.seq 0 (Workbook.max_length data))).
  { destruct data; reflexivity. }
  rewrite Hall. split; [| split].
  - rewrite length_map, length_seq. reflexivity.
  - apply Forall_forall. intros w Hw.
    apply in_map_iff in Hw. destruct Hw as (col & <- & _).
    unfold Workbook.column_width.
    pose proof (width_fold_bounds col data 10) as [Hlow _].
    cbv zeta in Hlow. lia.
  - intros row col c Hrow Hc.
    exists (Workbook.column_width data col). split.
    + assert (Hcol : col < Workbook.max_length data).
      { pose proof (max_length_bound data row Hrow).
        assert (col < List.length row)
          by (apply nth_error_Some; rewrite Hc; discriminate).
        lia. }
      apply map_nth_error. rewrite nth_error_seq.
      apply Nat.ltb_lt in Hcol. rewrite Hcol. reflexivity.
    + unfold Workbook.column_width.
      pose proof (width_fold_bounds col data 10) as [_ Hwide].
      cbv zeta in Hwide. specialize (Hwide row c Hrow Hc). lia.
Qed.

(** ** The CSV text *)

Lemma quoted_doubles (s : JS.jsstring) :
  Workbook.quoted s
  = 34%N :: flat_map (RegExp.replaced [RegExp.One 34%N] [34%N; 34%N]) s
        ++ [34%N].
Proof.
  unfold Workbook.quoted, Workbook.quote. rewrite replace_class. reflexivity.
Qed.

Lemma read_quoted_pair (t : JS.jsstring) :
  read_quoted (34%N :: 34%N :: t)
  = option_map (fun r => (34%N :: fst r, snd r)) (read_quoted t).
Proof. reflexivity. Qed.

Lemma read_quoted_other (c : JS.char) (t : JS.jsstring) :
  JS.char_eqb c 34%N = false ->
  read_quoted (c :: t)
  = option_map (fun r => (c :: fst r, snd r)) (read_quoted t).
Proof. intro Hc. cbn [read_quoted]. rewrite Hc. reflexivity. Qed.

Lemma read_quoted_end (rest : JS.jsstring) :
  match rest with c :: _ => c <> 34%N | [] => True end ->
  read_quoted (34%N :: rest) = Some ([], rest).
Proof.
  intro Hrest. destruct rest as [|c rest]; [reflexivity |].
  cbn [read_quoted]. change (JS.char_eqb 34%N 34%N) with true. cbv iota.
  destruct (JS.char_eqb c 34%N) eqn:Hc; [| reflexivity].
  apply char_eqb_eq in Hc. contradiction.
Qed.

Lemma read_quoted_doubled (s rest : JS.jsstring) :
  match rest with c :: _ => c <> 34%N | [] => True end ->
  read_quoted
    (flat_map (RegExp.replaced [RegExp.One 34%N] [34%N; 34%N]) s
       ++ 34%N :: rest)
  = Some (s, rest).
Proof.
  intro Hrest. induction s as [|c s IH].
  - apply read_quoted_end. exact Hrest.
  - cbn [flat_map]. rewrite <- app_assoc.
    destruct (JS.char_eqb c 34%N) eqn:Hq.
    + apply char_eqb_eq in Hq. subst c.
      change (RegExp.replaced [RegExp.One 34%N] [34%N; 34%N] 34%N)
        with [34%N; 34%N].
      cbn [app]. rewrite read_quoted_pair, IH. reflexivity.
    + replace (RegExp.replaced [RegExp.One 34%N] [34%N; 34%N] c) with [c].
      * cbn [app]. rewrite (read_quoted_other _ _ Hq), IH. reflexivity.
      * unfold RegExp.replaced, RegExp.class_match.
        cbn [existsb RegExp.item_match].
        unfold JS.char_eqb in *. rewrite N.eqb_sym, Hq. reflexivity.
Qed.

(** A field that [exportToCSV] puts between quotes is read back unchanged:
    read as a quoted CSV field, in front of any text that does not start
    with a quote, it gives the field itself and leaves that text. *)
Theorem quoted_field_reads_back (s rest : JS.jsstring) :
  match rest with c :: _ => c <> 34%N | [] => True end ->
  read_field (Workbook.quoted s ++ rest) = Some (s, rest).
Proof.
  intro Hrest. rewrite quoted_doubles.
  cbn [app read_field]. change (JS.char_eqb 34%N 34%N) with true. cbv iota.
  rewrite <- app_assoc. cbn [app].
  apply read_quoted_doubled. exact Hrest.
Qed.

Lemma quoted_field_reads_back_witness :
  read_field (Workbook.quoted [66%N; 34%N; 34%N; 44%N; 34%N] ++ [44%N; 34%N])
  = Some ([66%N; 34%N; 34%N; 44%N; 34%N], [44%N; 34%N]).
Proof.
  apply quoted_field_reads_back. cbn. lia.
Defined.

Lemma join_flat_map (sep piece : JS.jsstring) (rest : list JS.jsstring) :
  JS.join sep (piece :: rest) = piece ++ flat_map (fun x => sep ++ x) rest.
Proof.
  revert piece. induction rest as [|x rest IH]; intro piece.
  - cbn. rewrite app_nil_r. reflexivity.
  - rewrite join_cons by discriminate. rewrite IH.
    cbn [flat_map]. rewrite <- !app_assoc. reflexivity.
Qed.

Lemma csv_from_later (gaebFiles : list GAEBData.t) :
  forall fileIndex csvContent,
    Workbook.csv_from (S fileIndex) gaebFiles csvContent
    = csvContent
        ++ flat_map (fun file => [10%N; 10%N] ++ Workbook.csv_block file)
                    gaebFiles.
Proof.
  induction gaebFiles as [|file files IH]; intros fileIndex csvContent;
    cbn [Workbook.csv_from flat_map].
  - rewrite app_nil_r. reflexivity.
  - cbn [Nat.ltb Nat.leb]. rewrite IH, <- !app_assoc. reflexivity.
Qed.

(** The CSV text is the blocks of the files, in order, with two line feeds
    between one block and the next; no files give the empty text. *)
Theorem csv_blocks_joined (gaebFiles : list GAEBData.t) :
  Workbook.csvContent gaebFiles
  = JS.join [10%N; 10%N] (map Workbook.csv_block gaebFiles).
Proof.
  unfold Workbook.csvContent.
  destruct gaebFiles as [|file files]; [reflexivity |].
  cbn [Workbook.csv_from Nat.ltb Nat.leb map].
  rewrite csv_from_later, join_flat_map, flat_map_concat_map.
  rewrite (flat_map_concat_map _ (map _ _)), map_map. reflexivity.
Qed.

(** ** The list of processed files *)






(** ** The extension of a file name *)

Lemma lastIndexOf_from_absent (c : JS.char) (s : JS.jsstring) :
  ~ In c s -> forall i found, Processor.lastIndexOf_from c s i found = found.
Proof.
  induction s as [|x s IH]; intros Hs i found;
    cbn [Processor.lastIndexOf_from]; [reflexivity |].
  destruct (JS.char_eqb x c) eqn:Hx.
  - apply char_eqb_eq in Hx. contradiction Hs. left. exact Hx.
  - apply IH. intro H. apply Hs. right. exact H.
Qed.

Lemma lastIndexOf_from_last (c : JS.char) (pre post : JS.jsstring) :
  ~ In c post ->
  forall i found,
    Processor.lastIndexOf_from c (pre ++ c :: post) i found
    = (i + Z.of_nat (List.length pre))%Z.
Proof.
  intro Hpost. induction pre as [|x pre IH]; intros i found;
    cbn [app Processor.lastIndexOf_from List.length].
  - rewrite (proj2 (char_eqb_eq c c) eq_refl).
    rewrite lastIndexOf_from_absent by exact Hpost. lia.
  - rewrite IH. lia.
Qed.

Lemma slice_is_suffix (start : Z) (s : JS.jsstring) :
  exists pre, s = pre ++ Processor.slice start s.
Proof.
  unfold Processor.slice.
  match goal with
  | |- context [skipn ?n s] => exists (firstn n s)
  end.
  symmetry. apply firstn_skipn.
Qed.

Lemma extension_length (e : JS.jsstring) :
  In e Processor.validExtensions -> 4 <= List.length e.
Proof.
  intro H. repeat (destruct H as [<- | H]; [cbn; lia |]). destruct H.
Qed.

Lemma extension_has_dot (e : JS.jsstring) :
  In e Processor.validExtensions -> exists w, e = RegExp.code "." :: w.
Proof.
  intro H.
  repeat (destruct H as [<- | H]; [eexists; reflexivity |]). destruct H.
Qed.

Lemma accepted_extension_in (name : JS.jsstring) :
  Processor.accepted name = true ->
  In (Processor.fileExtension name) Processor.validExtensions.
Proof.
  unfold Processor.accepted. intro H.
  apply existsb_exists in H. destruct H as (e & He & Heq).
  apply string_eqb_eq in Heq. rewrite Heq. exact He.
Qed.

(** An accepted file name has a dot, and in lower case it ends with one
    of the four extensions; a name without dot is never accepted. *)
Theorem accepted_needs_extension (name : JS.jsstring) :
  Processor.accepted name = true ->
  In (RegExp.code ".") name
  /\ exists stem extension,
      In extension Processor.validExtensions
      /\ JS.toLowerCase name = stem ++ extension.
Proof.
  intro Hacc. apply accepted_extension_in in Hacc. split.
  - destruct (in_dec N.eq_dec (RegExp.code ".") name) as [Hin | Hout];
      [exact Hin | exfalso].
    apply extension_length in Hacc.
    unfold Processor.fileExtension, Processor.lastIndexOf in Hacc.
    rewrite lastIndexOf_from_absent in Hacc by exact Hout.
    unfold Processor.slice in Hacc.
    change (-1 <? 0)%Z with true in Hacc. cbv iota in Hacc.
    rewrite length_skipn in Hacc. lia.
  - destruct (slice_is_suffix
                (Processor.lastIndexOf (RegExp.code ".") name)
                (JS.toLowerCase name)) as [stem Hstem].
    exists stem, (Processor.fileExtension name).
    split; [exact Hacc | exact Hstem].
Qed.

Lemma accepted_needs_extension_witness :
  In (RegExp.code ".") (JS.str "Rohbau.X83")
  /\ exists stem extension,
      In extension Processor.validExtensions
      /\ JS.toLowerCase (JS.str "Rohbau.X83") = stem ++ extension.
Proof.
  apply accepted_needs_extension. reflexivity.
Defined.

Lemma lower_units_length (c : JS.char) :
  c <> 304%N -> List.length (JS.lower_units c) = 1.
Proof.
  intro Hc. unfold JS.lower_units.
  destruct (JS.is_upper c); [reflexivity |].
  destruct (_ && _); [reflexivity |].
  destruct (N.eqb_spec c 304); [contradiction |].
  destruct (c =? 8490)%N; [reflexivity |].
  destruct (c =? 8491)%N; reflexivity.
Qed.

Lemma toLowerCase_length (s : JS.jsstring) :
  Forall (fun c => c <> 304%N) s ->
  List.length (JS.toLowerCase s) = List.length s.
Proof.
  unfold JS.toLowerCase.
  induction 1 as [|c s Hc _ IH]; [reflexivity |].
  cbn [flat_map List.length]. rewrite length_app, IH, lower_units_length
    by exact Hc.
  reflexivity.
Qed.

Lemma toLowerCase_keeps (c : JS.char) (s : JS.jsstring) :
  JS.lower_units c = [c] -> In c s -> In c (JS.toLowerCase s).
Proof.
  intros Hc Hin. unfold JS.toLowerCase. apply in_flat_map.
  exists c. split; [exact Hin |]. rewrite Hc. left. reflexivity.
Qed.

(** A file name made of a stem without the letter U+0130, a dot and one of
    the words gaeb, d83, p83 and x83 in any mix of upper and lower case is
    accepted. *)
Theorem accepted_extension (stem extension : JS.jsstring) :
  Forall (fun c => c <> 304%N) stem ->
  In (JS.toLowerCase extension)
     (map JS.str ["gaeb"; "d83"; "p83"; "x83"]%string) ->
  Processor.accepted (stem ++ RegExp.code "." :: extension) = true.
Proof.
  intros Hstem Hext.
  assert (Hdot : ~ In (RegExp.code ".") extension).
  { intro Hin.
    apply (toLowerCase_keeps (RegExp.code ".")) in Hin; [| reflexivity].
    revert Hin.
    repeat (destruct Hext as [<- | Hext];
            [cbn; intuition discriminate |]).
    destruct Hext. }
  assert (Hfile : Processor.fileExtension (stem ++ RegExp.code "." :: extension)
                  = RegExp.code "." :: JS.toLowerCase extension).
  { unfold Processor.fileExtension, Processor.lastIndexOf.
    rewrite lastIndexOf_from_last by exact Hdot.
    unfold Processor.slice, JS.toLowerCase.
    rewrite flat_map_app. fold (JS.toLowerCase stem).
    cbn [flat_map]. fold (JS.toLowerCase extension).
    change (JS.lower_units (RegExp.code ".")) with [RegExp.code "."].
    rewrite Z.add_0_l.
    replace (Z.of_nat (List.length stem) <? 0)%Z with false
      by (symmetry; apply Z.ltb_ge; lia).
    rewrite length_app, (toLowerCase_length stem Hstem).
    rewrite Z.min_l by lia.
    rewrite Nat2Z.id, <- (toLowerCase_length stem Hstem).
    rewrite skipn_app, skipn_all, Nat.sub_diag. reflexivity. }
  unfold Processor.accepted. rewrite Hfile.
  repeat (destruct Hext as [<- | Hext]; [reflexivity |]).
  destruct Hext.
Qed.

Lemma accepted_extension_witness :
  Processor.accepted (JS.str "Rohbau Süd" ++ RegExp.code "." :: JS.str "GaEb")
  = true.
Proof.
  apply accepted_extension.
  - repeat constructor; discriminate.
  - cbn. intuition.
Defined.

(** ** The unit of a line *)

Lemma eat_spec (ic : bool) (p : JS.jsstring) :
  forall b a b' a',
    RegExp.eat ic p b a = Some (b', a') ->
    exists u,
      b' = rev u ++ b /\ a = u ++ a'
      /\ Forall2 (fun x c => RegExp.unit_match ic x c = true) p u.
Proof.
  induction p as [|x p IH]; intros b a b' a' H; cbn [RegExp.eat] in H.
  - injection H as <- <-. exists []. auto.
  - destruct a as [|c a]; [discriminate H |].
    destruct (RegExp.unit_match ic x c) eqn:Hc; [| discriminate H].
    apply IH in H. destruct H as (u & -> & -> & Hu).
    exists (c :: u). cbn [rev app]. rewrite <- app_assoc.
    split; [reflexivity |]. split; [reflexivity |].
    constructor; assumption.
Qed.

Lemma sem_words (ic : bool) (ws : list JS.jsstring) :
  forall w s s',
    RegExp.sem ic (RegExp.words w ws) s s' ->
    exists x u,
      In x (w :: ws)
      /\ RegExp.seen s' = rev u ++ RegExp.seen s
      /\ Forall2 (fun a c => RegExp.unit_match ic a c = true) x u.
Proof.
  induction ws as [|w' ws IH]; intros w s s' H; cbn [RegExp.words] in H.
  - cbn [RegExp.sem] in H. destruct H as (b' & a' & Heat & ->).
    apply eat_spec in Heat. destruct Heat as (u & -> & _ & Hu).
    exists w, u. split; [left; reflexivity |]. auto.
  - cbn [RegExp.sem] in H. destruct H as [H | H].
    + destruct H as (b' & a' & Heat & ->).
      apply eat_spec in Heat. destruct Heat as (u & -> & _ & Hu).
      exists w, u. split; [left; reflexivity |]. auto.
    + apply IH in H. destruct H as (x & u & Hx & Hseen & Hu).
      exists x, u. split; [right; exact Hx |]. auto.
Qed.

Lemma unit_match_same (x u : JS.jsstring) :
  Forall2 (fun a c => RegExp.unit_match true a c = true) x u ->
  same_up_to_case x u.
Proof.
  unfold same_up_to_case.
  induction 1 as [|a c x u Hac _ IH]; [reflexivity |].
  cbn [map]. rewrite IH. f_equal.
  apply char_eqb_eq. exact Hac.
Qed.

Lemma extract_unit_word (line u : JS.jsstring) :
  GAEBParser.extract_unit line = Some u ->
  exists w,
    In w (map JS.str (GAEBParser.gaeb_units ++ GAEBParser.currency_words))
    /\ same_up_to_case w u.
Proof.
  unfold GAEBParser.extract_unit, RegExp.match_first, RegExp.exec.
  destruct (RegExp.search _ _ [] line) as [m|] eqn:Hs; [| discriminate].
  cbn [option_map]. intro H. injection H as <-.
  apply search_here in Hs. destruct Hs as (b1 & a1 & Hm).
  unfold RegExp.match_here in Hm.
  apply run_sound in Hm. destruct Hm as (s' & Hsem & Hk).
  unfold RegExp.after_state in Hk. injection Hk as <-.
  cbn [RegExp.matched].
  cbn [GAEBParser.unitPattern GAEBParser.re_i RegExp.source
       RegExp.ignoreCase RegExp.seq RegExp.sem] in Hsem.
  destruct Hsem as (m1 & (_ & ->) & m2 & (mg & Hg & ->) & (_ & ->)).
  cbn [RegExp.seen] in *.
  apply sem_words in Hg. destruct Hg as (x & v & Hx & Hseen & Hv).
  cbn [RegExp.seen] in Hseen. rewrite Hseen, consumed_extends.
  exists x. split; [exact Hx | apply unit_match_same; exact Hv].
Qed.

(** The unit stored in a node of the line parser is one of the words of
    the unit pattern, in some mix of upper and lower case. *)
Theorem stored_unit_is_a_unit_word (host : Host)
        (content fileName : JS.jsstring) (d : GAEBData.t) :
  GAEBParser.parseTextGAEB host content fileName = Normal d ->
  Forall (fun p =>
            forall u,
              GAEBPosition.unit p = Some u ->
              exists w,
                In w (map JS.str (GAEBParser.gaeb_units
                                    ++ GAEBParser.currency_words))
                /\ same_up_to_case w u)
         (GAEBData.positions d).
Proof.
  apply line_parser_nodes.
  intros line index allLines currentIndex p Hp u Hu.
  destruct (parsePosition_node line index allLines currentIndex)
    as (q & Hq & _ & _ & Hunit & _).
  rewrite Hq in Hp. injection Hp as <-.
  rewrite Hunit in Hu.
  destruct (GAEBParser.proper_unit _); [| discriminate Hu].
  apply (extract_unit_word line u Hu).
Qed.

Lemma stored_unit_is_a_unit_word_witness :
  exists d,
    GAEBParser.parseTextGAEB Samples.bare_host
                             (JS.str "1 Beton C25 12 CBM")
                             (JS.str "lv.d83") = Normal d
    /\ map GAEBPosition.unit (GAEBData.positions d) = [Some (JS.str "CBM")]
    /\ Forall (fun p =>
                 forall u,
                   GAEBPosition.unit p = Some u ->
                   exists w,
                     In w (map JS.str (GAEBParser.gaeb_units
                                         ++ GAEBParser.currency_words))
                     /\ same_up_to_case w u)
              (GAEBData.positions d).
Proof.
  destruct (GAEBParser.parseTextGAEB Samples.bare_host
              (JS.str "1 Beton C25 12 CBM") (JS.str "lv.d83"))
    as [d|e] eqn:Hd; [| vm_compute in Hd; discriminate Hd].
  exists d. split; [reflexivity |]. split.
  - apply (f_equal (fun c => match c with
                             | Normal x =>
                               map GAEBPosition.unit (GAEBData.positions x)
                             | Throw _ => []
                             end)) in Hd.
    vm_compute in Hd. symmetry. exact Hd.
  - exact (stored_unit_is_a_unit_word _ _ _ d Hd).
Defined.

(** ** The type of a node *)

Lemma classify_excludes (trimmedLine : JS.jsstring)
      (positionNumber unit : option JS.jsstring)
      (currencyAmount : option Num.number) :
  let type :=
    GAEBParser.classify trimmedLine positionNumber unit currencyAmount in
  (type = PositionType.text ->
   GAEBParser.string_truthy positionNumber = false)
  /\ (type = PositionType.calculation ->
      GAEBParser.string_truthy unit = false).
Proof.
  unfold GAEBParser.classify.
  destruct (RegExp.test GAEBParser.section_title trimmedLine);
    [split; discriminate |].
  destruct (GAEBParser.string_truthy positionNumber); cbn [negb andb].
  - destruct currencyAmount; cbn [orb]; [split; discriminate |].
    destruct (GAEBParser.string_truthy unit); cbn [orb];
      [split; discriminate |].
    destruct (RegExp.test _ _); split; try discriminate; reflexivity.
  - destruct (_ && _); [split; [reflexivity | discriminate] |].
    destruct currencyAmount; cbn [orb]; [split; discriminate |].
    destruct (GAEBParser.string_truthy unit); cbn [orb];
      [split; discriminate |].
    destruct (RegExp.test _ _); split; try discriminate; reflexivity.
Qed.

Lemma parsePosition_typed (line : JS.jsstring) (index : nat)
      (allLines : list JS.jsstring) (currentIndex : nat)
      (p : GAEBPosition.t) :
  GAEBParser.parsePosition line index allLines currentIndex
  = Normal (Some p) ->
  typed_consistently p.
Proof.
  intro Hp.
  destruct (parsePosition_node line index allLines currentIndex)
    as (q & Hq & _ & Hnumber & Hunit & Htype & _).
  rewrite Hq in Hp. injection Hp as <-.
  pose proof (classify_excludes (JS.trim line)
                (GAEBParser.extract_positionNumber line)
                (GAEBParser.extract_unit line)
                (GAEBParser.extract_currencyAmount line)) as [Htext Hcalc].
  rewrite <- Htype in Htext, Hcalc.
  split.
  - intro Ht. specialize (Htext Ht). rewrite Hnumber.
    destruct (GAEBParser.extract_positionNumber line) as [pn|] eqn:Hpn;
      [| reflexivity].
    apply positionNumber_head in Hpn. destruct Hpn as (c & w & -> & _).
    discriminate Htext.
  - intro Ht. specialize (Hcalc Ht). rewrite Hunit.
    destruct (GAEBParser.extract_unit line) as [u|]; [| reflexivity].
    cbn [GAEBParser.proper_unit]. cbn [GAEBParser.string_truthy] in Hcalc.
    rewrite Hcalc. reflexivity.
Qed.

(** In every document of [parse] a node of type text has no position
    number and a node of type calculation has no unit. *)
Theorem types_exclude_number_and_unit (host : Host)
        (content fileName : JS.jsstring) (d : GAEBData.t) :
  GAEBParser.parse host content fileName = Normal d ->
  Forall typed_consistently (GAEBData.positions d).
Proof.
  apply parse_nodes.
  - apply parsePosition_typed.
  - intros e i n c Hc.
    destruct (parseXMLCategory_shape e i n) as (c' & Hc' & Htype & _).
    rewrite Hc' in Hc. injection Hc as <-.
    split; rewrite Htype; discriminate.
  - intros e i parent n k p Hp.
    destruct (parseXMLItem_shape e i parent n k) as (p' & Hp' & Htype & _).
    rewrite Hp' in Hp. injection Hp as <-.
    split; rewrite Htype; discriminate.
Qed.

Lemma types_exclude_number_and_unit_witness :
  exists d,
    GAEBParser.parse Samples.bare_host
                     (JS.str "1 Beton C25 12 m" ++ 10%N :: JS.str "Summe Beton")
                     (JS.str "lv.d83") = Normal d
    /\ map GAEBPosition.type (GAEBData.positions d)
       = [PositionType.position; PositionType.calculation]
    /\ Forall typed_consistently (GAEBData.positions d).
Proof.
  destruct (GAEBParser.parse Samples.bare_host
              (JS.str "1 Beton C25 12 m" ++ 10%N :: JS.str "Summe Beton") (JS.str "lv.d83"))
    as [d|e] eqn:Hd; [| vm_compute in Hd; discriminate Hd].
  exists d. split; [reflexivity |]. split.
  - apply (f_equal (fun c => match c with
                             | Normal x =>
                               map GAEBPosition.type (GAEBData.positions x)
                             | Throw _ => []
                             end)) in Hd.
    vm_compute in Hd. symmetry. exact Hd.
  - exact (types_exclude_number_and_unit _ _ _ d Hd).
Defined.

(** ** The description of a node of the line parser *)

Lemma lookahead_source (allLines : list JS.jsstring) (currentIndex : nat)
      (s : JS.jsstring) :
  GAEBParser.lookahead allLines currentIndex = s ->
  s <> [] ->
  exists j nextLine,
    currentIndex < j <= currentIndex + 2
    /\ nth_error allLines j = Some nextLine
    /\ GAEBParser.looksLikePosition nextLine = false
    /\ s = JS.trim nextLine
    /\ 10 < List.length s.
Proof.
  unfold GAEBParser.lookahead.
  destruct (find _ _) as [nextLine|] eqn:Hfind;
    [| intros <- H; contradiction H; reflexivity].
  intros <- _.
  apply find_some in Hfind. destruct Hfind as [Hin Htest].
  apply andb_prop in Htest. destruct Htest as [Htest Hlong].
  apply andb_prop in Htest. destruct Htest as [_ Hlooks].
  apply negb_true_iff in Hlooks. apply Nat.ltb_lt in Hlong.
  apply In_nth_error in Hin. destruct Hin as [n Hn].
  assert (Hlt : n < 2).
  { assert (n < List.length (firstn 2 (skipn (currentIndex + 1) allLines)))
      by (apply nth_error_Some; rewrite Hn; discriminate).
    rewrite length_firstn in H. lia. }
  rewrite nth_error_firstn in Hn.
  apply Nat.ltb_lt in Hlt. rewrite Hlt in Hn. apply Nat.ltb_lt in Hlt.
  rewrite nth_error_skipn in Hn.
  exists (currentIndex + 1 + n), nextLine.
  split; [lia |]. auto.
Qed.

(** The description of a node of [parsePosition] is one of the two lines
    that follow the line of the node in the list of all lines, trimmed: a
    line that does not look like a position and whose trimmed text has more
    than 10 units. *)
Theorem description_is_a_following_line (line : JS.jsstring) (index : nat)
        (allLines : list JS.jsstring) (currentIndex : nat)
        (p : GAEBPosition.t) (s : JS.jsstring) :
  GAEBParser.parsePosition line index allLines currentIndex
  = Normal (Some p) ->
  GAEBPosition.description p = Some s ->
  exists j nextLine,
    currentIndex < j <= currentIndex + 2
    /\ nth_error allLines j = Some nextLine
    /\ GAEBParser.looksLikePosition nextLine = false
    /\ s = JS.trim nextLine
    /\ 10 < List.length s.
Proof.
  unfold GAEBParser.parsePosition.
  destruct (GAEBParser.pricing _ _ _) as [[quantity unitPrice] totalPrice].
  cbn [try_catch]. intro H. injection H as <-.
  cbn [GAEBPosition.description].
  destruct (GAEBParser.lookahead allLines currentIndex) as [|c r] eqn:Hl;
    cbn [JS.truthy]; [discriminate |].
  intro H. injection H as <-.
  apply (lookahead_source allLines currentIndex _ Hl). discriminate.
Qed.

Lemma description_is_a_following_line_witness :
  let allLines := [JS.str "1 Beton C25 12 m";
                   JS.str "Sichtbeton, glatt geschalt"] in
  exists p,
    GAEBParser.parsePosition (JS.str "1 Beton C25 12 m") 0 allLines 0
    = Normal (Some p)
    /\ exists j nextLine,
        0 < j <= 2
        /\ nth_error allLines j = Some nextLine
        /\ GAEBParser.looksLikePosition nextLine = false
        /\ JS.str "Sichtbeton, glatt geschalt" = JS.trim nextLine
        /\ 10 < List.length (JS.str "Sichtbeton, glatt geschalt").
Proof.
  intro allLines.
  destruct (GAEBParser.parsePosition (JS.str "1 Beton C25 12 m") 0
                                     allLines 0)
    as [[p|]|e] eqn:Hp;
    [| vm_compute in Hp; discriminate Hp | vm_compute in Hp; discriminate Hp].
  exists p. split; [reflexivity |].
  apply (description_is_a_following_line _ _ _ _ p _ Hp).
  apply (f_equal (fun c => match c with
                           | Normal (Some x) => GAEBPosition.description x
                           | _ => None
                           end)) in Hp.
  vm_compute in Hp. symmetry. exact Hp.
Defined.

(** ** The counts of the summary sheet for a document of the markup path *)

Lemma blocks_counts (categories : list DOM.element)
      (blocks : list (list GAEBPosition.t)) :
  Forall2 block_of categories blocks ->
  List.length
    (filter (fun p => PositionType.eqb (GAEBPosition.type p)
                                       PositionType.title)
            (List.concat blocks))
  = List.length categories
  /\ List.length
       (filter (fun p => PositionType.eqb (GAEBPosition.type p)
                                          PositionType.position)
               (List.concat blocks))
     = list_sum (map (fun c => List.length (items_of c)) categories)
  /\ List.length (List.concat blocks)
     = List.length categories
       + list_sum (map (fun c => List.length (items_of c)) categories).
Proof.
  induction 1 as [|category block categories blocks Hblock _ IH].
  - auto.
  - destruct IH as (IHt & IHp & IHn).
    destruct Hblock as (c & nodes & -> & Htype & _ & _ & Hlen & Hall).
    assert (Ht : filter (fun p => PositionType.eqb (GAEBPosition.type p)
                                                   PositionType.title)
                        nodes = []).
    { clear Hlen. induction Hall as [|p nodes (Hp & _) _ IHn'];
        [reflexivity |].
      cbn [filter]. rewrite Hp. exact IHn'. }
    assert (Hp : filter (fun p => PositionType.eqb (GAEBPosition.type p)
                                                   PositionType.position)
                        nodes = nodes).
    { clear Hlen Ht. induction Hall as [|p nodes (Hp & _) _ IHn'];
        [reflexivity |].
      cbn [filter]. rewrite Hp. cbn [PositionType.eqb]. rewrite IHn'.
      reflexivity. }
    cbn [List.concat map list_sum List.length app filter].
    rewrite Htype. cbn [PositionType.eqb].
    rewrite !filter_app, Ht, Hp. cbn [app List.length].
    rewrite !length_app, IHt, IHp, IHn, Hlen. simpl. lia.
Qed.

(** For a document that the markup path made, the counts of the summary
    sheet are those of the tree: the number of categories below the first
    [BoQ] element, the number of items summed over these categories, and
    as total the sum of the two. *)
Theorem summary_counts_of_markup (host : Host)
        (content fileName : JS.jsstring) (xmlDoc : DOM.document) :
  parseFromString host content = Normal xmlDoc ->
  DOM.docQuerySelector (DOM.select ["parsererror"]%string) xmlDoc = None ->
  exists d,
    GAEBParser.parseXMLGAEB host content fileName = Normal d
    /\ Workbook.count_type PositionType.title d
       = List.length (categories_of xmlDoc)
    /\ Workbook.count_type PositionType.position d
       = list_sum (map (fun c => List.length (items_of c))
                       (categories_of xmlDoc))
    /\ GAEBData.totalPositions d
       = Workbook.count_type PositionType.title d
         + Workbook.count_type PositionType.position d.
Proof.
  intros Hdoc Herr. unfold GAEBParser.parseXMLGAEB.
  rewrite Hdoc. cbn [bind]. rewrite Herr.
  destruct (extract_positions_blocks xmlDoc) as (blocks & Hblocks & Hall).
  rewrite Hblocks. cbn [bind try_catch].
  eexists. split; [reflexivity |].
  unfold Workbook.count_type.
  cbn [GAEBData.positions GAEBData.totalPositions].
  destruct (blocks_counts _ _ Hall) as (Ht & Hp & Hn).
  rewrite Ht, Hp, Hn. auto.
Qed.

Lemma summary_counts_of_markup_witness :
  exists d,
    GAEBParser.parseXMLGAEB (Samples.browser Samples.two_categories_document)
                            Samples.two_categories_markup
                            (JS.str "lv.x83") = Normal d
    /\ Workbook.count_type PositionType.title d = 2
    /\ Workbook.count_type PositionType.position d = 2
    /\ GAEBData.totalPositions d = 4.
Proof.
  destruct (summary_counts_of_markup
              (Samples.browser Samples.two_categories_document)
              Samples.two_categories_markup (JS.str "lv.x83")
              Samples.two_categories_document eq_refl eq_refl)
    as (d & Hd & Ht & Hp & Hn).
  exists d. split; [exact Hd |].
  rewrite Hn, Ht, Hp. repeat split.
Defined.

(** ** The title of a node of the line parser *)

Lemma trimStart_fixed (s : JS.jsstring) :
  match s with c :: _ => JS.is_space c = false | [] => True end ->
  JS.trimStart s = s.
Proof.
  destruct s as [|c s]; [reflexivity |].
  cbn [JS.trimStart]. intros ->. reflexivity.
Qed.

Lemma trimStart_idempotent (s : JS.jsstring) :
  JS.trimStart (JS.trimStart s) = JS.trimStart s.
Proof.
  apply trimStart_fixed.
  destruct (JS.trimStart s) as [|c r] eqn:Hs; [exact I |].
  apply (trimStart_head s c r Hs).
Qed.

Lemma trim_idempotent (s : JS.jsstring) : JS.trim (JS.trim s) = JS.trim s.
Proof.
  unfold JS.trim at 1. rewrite trimStart_trim.
  unfold JS.trim, JS.trimEnd.
  rewrite rev_involutive, trimStart_idempotent. reflexivity.
Qed.

Lemma digit_not_space (c : JS.char) :
  JS.is_digit c = true -> JS.is_space c = false.
Proof.
  unfold JS.is_digit. intro H.
  apply andb_prop in H. destruct H as [Hlo Hhi].
  apply N.leb_le in Hlo. apply N.leb_le in Hhi.
  destruct (JS.is_space c) eqn:E; [exfalso | reflexivity].
  unfold JS.is_space in E.
  repeat (apply orb_prop in E; destruct E as [E | E]);
    try (apply andb_prop in E; destruct E as [E1 E2];
         apply N.leb_le in E1; apply N.leb_le in E2; lia);
    try (apply N.eqb_eq in E; lia).
Qed.

Lemma little_succ_nonnil (d : Decimal.uint) :
  Decimal.Little.succ d <> Decimal.Nil.
Proof. destruct d; discriminate. Qed.

Lemma to_little_uint_nonnil (n : nat) :
  forall acc, acc <> Decimal.Nil -> Nat.to_little_uint n acc <> Decimal.Nil.
Proof.
  induction n as [|n IH]; intros acc Hacc; cbn [Nat.to_little_uint];
    [exact Hacc |].
  apply IH. apply little_succ_nonnil.
Qed.

Lemma revapp_nonnil (d : Decimal.uint) :
  forall acc, acc <> Decimal.Nil -> Decimal.revapp d acc <> Decimal.Nil.
Proof.
  induction d; intros acc Hacc; cbn [Decimal.revapp];
    try exact Hacc; apply IHd; discriminate.
Qed.

Lemma to_uint_nonnil (n : nat) : Nat.to_uint n <> Decimal.Nil.
Proof.
  unfold Nat.to_uint, Decimal.rev.
  pose proof (to_little_uint_nonnil n (Decimal.D0 Decimal.Nil)
                ltac:(discriminate)) as H.
  destruct (Nat.to_little_uint n (Decimal.D0 Decimal.Nil));
    [contradiction H; reflexivity | ..];
    cbn [Decimal.revapp]; apply revapp_nonnil; discriminate.
Qed.

Lemma of_nat_last (n : nat) :
  exists ds d, JS.of_nat n = ds ++ [d] /\ JS.is_digit d = true.
Proof.
  pose proof (units_of_uint_digits (Nat.to_uint n)) as Hall.
  fold (JS.of_nat n) in Hall.
  destruct (JS.of_nat n) as [|c r] eqn:Hn.
  - exfalso. unfold JS.of_nat in Hn.
    pose proof (to_uint_nonnil n) as Hnil.
    destruct (Nat.to_uint n); try discriminate Hn.
    apply Hnil. reflexivity.
  - destruct (exists_last (l := c :: r)) as (ds & d & Hlast);
      [discriminate |].
    exists ds, d. split; [exact Hlast |].
    rewrite Hlast in Hall. apply Forall_app in Hall.
    destruct Hall as [_ Hd]. inversion Hd. assumption.
Qed.

Lemma placeholder_trimmed (n : nat) :
  JS.trim (JS.str "Position " ++ JS.of_nat n) = JS.str "Position " ++ JS.of_nat n.
Proof.
  destruct (of_nat_last n) as (ds & d & Hn & Hd).
  apply digit_not_space in Hd.
  unfold JS.trim. rewrite trimStart_fixed by reflexivity.
  unfold JS.trimEnd. rewrite Hn, app_assoc, rev_app_distr.
  cbn [rev app]. cbn [JS.trimStart]. rewrite Hd.
  cbn [rev]. rewrite rev_involutive. reflexivity.
Qed.

Lemma derive_title_trimmed (trimmedLine : JS.jsstring) (index : nat)
      (positionNumber unit : option JS.jsstring)
      (currencyAmount : option Num.number) :
  let title := GAEBParser.derive_title trimmedLine index positionNumber unit
                                       currencyAmount in
  JS.trim title = title.
Proof.
  unfold GAEBParser.derive_title.
  match goal with
  | |- context [if negb (JS.truthy (JS.trim ?t)) || _ then _ else _] =>
    generalize t; intro cleaned
  end.
  destruct (negb (JS.truthy (JS.trim cleaned)) || _).
  - unfold JS.or_else.
    destruct (JS.truthy _); [apply trim_idempotent | apply placeholder_trimmed].
  - apply trim_idempotent.
Qed.

(** The title of every node of the line parser has no white space at
    either end. *)
Theorem line_parser_titles_are_trimmed (host : Host)
        (content fileName : JS.jsstring) (d : GAEBData.t) :
  GAEBParser.parseTextGAEB host content fileName = Normal d ->
  Forall (fun p => JS.trim (GAEBPosition.title p) = GAEBPosition.title p)
         (GAEBData.positions d).
Proof.
  apply line_parser_nodes.
  intros line index allLines currentIndex p.
  unfold GAEBParser.parsePosition.
  destruct (GAEBParser.pricing _ _ _) as [[quantity unitPrice] totalPrice].
  cbn [try_catch]. intro H. injection H as <-.
  cbn [GAEBPosition.title]. apply derive_title_trimmed.
Qed.

Lemma line_parser_titles_are_trimmed_witness :
  exists d,
    GAEBParser.parseTextGAEB Samples.bare_host Samples.mauerwerk_line
                             (JS.str "lv.d83") = Normal d
    /\ List.length (GAEBData.positions d) = 1
    /\ Forall (fun p => JS.trim (GAEBPosition.title p) = GAEBPosition.title p)
              (GAEBData.positions d).
Proof.
  destruct (GAEBParser.parseTextGAEB Samples.bare_host
              Samples.mauerwerk_line (JS.str "lv.d83"))
    as [d|e] eqn:Hd; [| vm_compute in Hd; discriminate Hd].
  exists d. split; [reflexivity |]. split.
  - apply (f_equal (fun c => match c with
                             | Normal x => List.length (GAEBData.positions x)
                             | Throw _ => 0
                             end)) in Hd.
    vm_compute in Hd. symmetry. exact Hd.
  - exact (line_parser_titles_are_trimmed _ _ _ d Hd).
Defined.
